(** * TAP poll-mode driver: burst I/O engine and queue/descriptor lifecycle

    A shallow embedding of [drivers/net/tap/rte_eth_tap.c].  The driver's
    C functions become Rocq functions with the same names.  Everything the
    driver asks of the outside world (system calls on the TUN/TAP character
    device, the packet-buffer pool) is answered by an environment [env]
    indexed by the number of external calls made so far, and every such call
    is recorded as an [event]; a driver function is a computation in the
    monad [M], which returns its C result together with the events it
    issued.  Theorems quantify over all environments, i.e. over every
    possible behaviour of the kernel and of the buffer pool.

    Integer types follow an LP64 Linux target: [int] is 32 bits,
    [unsigned long] and [uint64_t] are 64 bits. *)

From Stdlib Require Import ZArith Lia.
From stdpp Require Import base list.

Open Scope Z_scope.

(** ** Machine integers *)

Definition wrap (w x : Z) : Z := x mod 2 ^ w.
Definition uint16 : Z -> Z := wrap 16.
Definition uint32 : Z -> Z := wrap 32.
Definition uint64 : Z -> Z := wrap 64.

(** Conversion of a wider signed value ([ssize_t]) to [int]. *)
Definition to_int (x : Z) : Z := (x + 2 ^ 31) mod 2 ^ 32 - 2 ^ 31.

Definition UINT16_MAX : Z := 65535.

(** ** Constants of the driver and of the Linux headers it includes *)

Definition RTE_PMD_TAP_MAX_QUEUES : Z := 16.

(* <linux/if_tun.h> *)
Definition IFF_TAP : Z := 0x0002.
Definition IFF_NO_PI : Z := 0x1000.
Definition IFF_ONE_QUEUE : Z := 0x2000.
Definition IFF_MULTI_QUEUE : Z := 0x0100.
(* <poll.h> *)
Definition POLLOUT : Z := 0x0004.
Definition POLLERR : Z := 0x0008.
(* <linux/if_ether.h>, <errno.h> *)
Definition ETH_FRAME_LEN : Z := 1514.
Definition ENOMEM : Z := 12.
(* rte_ethdev.h *)
Definition ETH_LINK_DOWN : Z := 0.
Definition ETH_LINK_UP : Z := 1.

(** ** Data model *)

(** A packet buffer.  [buf_addr] identifies the buffer; [tailroom] is what
    [rte_pktmbuf_tailroom] reports for it. *)
Record rte_mbuf := {
  buf_addr : Z;
  data_len : Z;
  pkt_len  : Z;
  port     : Z;
  tailroom : Z
}.

Record rte_mempool := {
  mp_id : Z;
  data_room_size : Z        (* rte_pktmbuf_data_room_size(mp) *)
}.

Record pkt_stats := {
  opackets : Z;
  ipackets : Z;
  obytes   : Z;
  ibytes   : Z;
  errs     : Z
}.

Record rx_queue := {
  rx_mp    : option rte_mempool;   (* None is the NULL pointer *)
  in_port  : Z;
  rx_fd    : Z;
  rx_stats : pkt_stats
}.

Record tx_queue := {
  tx_fd    : Z;
  tx_stats : pkt_stats
}.

(** [struct pmd_internals]: the three arrays have
    [RTE_PMD_TAP_MAX_QUEUES] entries.  The interface name, MAC address and
    interface index play no part in queue and descriptor handling and are
    left out. *)
Record pmd_internals := {
  nb_queues : nat;
  fds : list Z;
  rxq : list rx_queue;
  txq : list tx_queue
}.

(** The part of [struct rte_eth_dev] / [rte_eth_dev_data] the driver
    reads and writes. *)
Record rte_eth_dev := {
  port_id     : Z;
  link_status : Z;
  dev_private : pmd_internals
}.

(** ** External calls, their record, and the environment *)

Inductive ioctl_req :=
| TUNGETFEATURES
| TUNSETIFF (flags : Z)
| SIOCGIFHWADDR
| SIOCSIFHWADDR.

Inductive event :=
| EvOpen  (ret : Z)                           (* open("/dev/net/tun", O_RDWR) *)
| EvIoctl (fd : Z) (req : ioctl_req) (ret : Z)
| EvFcntl (fd : Z) (ret : Z)                  (* fcntl(fd, F_SETFL, O_NONBLOCK) *)
| EvClose (fd : Z)
| EvPoll  (fd : Z) (ret revents : Z)          (* poll(&pfd, 1, 0) *)
| EvWrite (fd : Z) (m : rte_mbuf) (ret : Z)   (* write of pkt_len bytes of m *)
| EvRead  (fd : Z) (m : rte_mbuf) (ret : Z)   (* read of up to tailroom bytes *)
| EvAlloc (r : option rte_mbuf)               (* rte_pktmbuf_alloc *)
| EvFree  (m : rte_mbuf).                     (* rte_pktmbuf_free *)

(** The k-th external call of a run gets [sys_ret k] as its return value,
    [sys_out k] in its output parameter (the [revents] of poll, the
    [features] of TUNGETFEATURES), and [pool_get k] if it is a buffer
    allocation. *)
Record env := {
  sys_ret  : nat -> Z;
  sys_out  : nat -> Z;
  pool_get : nat -> option rte_mbuf
}.

(** A computation takes the number of external calls made before it and
    returns its value and the events it issued, in order. *)
Definition M (A : Type) : Type := nat -> A * list event.

#[export] Instance M_ret : MRet M := fun A a _ => (a, []).
#[export] Instance M_bind : MBind M := fun A B f m k =>
  let '(a, es) := m k in
  let '(b, es') := f a (k + length es)%nat in
  (b, es ++ es').

Definition call {A} (f : nat -> A * event) : M A :=
  fun k => let '(a, e) := f k in (a, [e]).

Definition sys_open (E : env) : M Z :=
  call (fun k => (sys_ret E k, EvOpen (sys_ret E k))).

Definition sys_ioctl (E : env) (fd : Z) (req : ioctl_req) : M (Z * Z) :=
  call (fun k => ((sys_ret E k, sys_out E k), EvIoctl fd req (sys_ret E k))).

Definition sys_fcntl_nonblock (E : env) (fd : Z) : M Z :=
  call (fun k => (sys_ret E k, EvFcntl fd (sys_ret E k))).

Definition sys_close (fd : Z) : M unit :=
  call (fun _ => (tt, EvClose fd)).

Definition sys_poll (E : env) (fd : Z) : M (Z * Z) :=
  call (fun k => ((sys_ret E k, sys_out E k),
                  EvPoll fd (sys_ret E k) (sys_out E k))).

Definition sys_write (E : env) (fd : Z) (m : rte_mbuf) : M Z :=
  call (fun k => (to_int (sys_ret E k), EvWrite fd m (to_int (sys_ret E k)))).

Definition sys_read (E : env) (fd : Z) (m : rte_mbuf) : M Z :=
  call (fun k => (to_int (sys_ret E k), EvRead fd m (to_int (sys_ret E k)))).

Definition rte_pktmbuf_alloc (E : env) (mp : option rte_mempool)
  : M (option rte_mbuf) :=
  call (fun k => (pool_get E k, EvAlloc (pool_get E k))).

Definition rte_pktmbuf_free (m : rte_mbuf) : M unit :=
  call (fun _ => (tt, EvFree m)).

(** ** TxEngine: [pmd_tx_burst] *)

Definition add_tx_stats (s : pkt_stats) (num_tx nb_pkts num_tx_bytes : Z)
  : pkt_stats :=
  {| opackets := uint64 (opackets s + num_tx);
     ipackets := ipackets s;
     obytes   := uint64 (obytes s + num_tx_bytes);
     ibytes   := ibytes s;
     errs     := uint64 (errs s + (nb_pkts - num_tx)) |}.

(** The [for (i = 0; i < nb_pkts; i++)] loop; [fuel] is [nb_pkts - i]. *)
Fixpoint tx_loop (E : env) (fd : Z) (bufs : list rte_mbuf) (fuel : nat)
                 (num_tx num_tx_bytes : Z) : M (Z * Z) :=
  match fuel with
  | O => mret (num_tx, num_tx_bytes)
  | S fuel' =>
      '(n, revents) ← sys_poll E fd;
      if n <=? 0 then mret (num_tx, num_tx_bytes)
      else if Z.land revents POLLOUT =? 0
      then tx_loop E fd bufs fuel' num_tx num_tx_bytes
      else
        match bufs !! Z.to_nat num_tx with
        | None => mret (num_tx, num_tx_bytes)   (* past the caller's array *)
        | Some mbuf =>
            n ← sys_write E fd mbuf;
            if n <=? 0 then mret (num_tx, num_tx_bytes)
            else
              _ ← rte_pktmbuf_free mbuf;
              tx_loop E fd bufs fuel'
                      (uint16 (num_tx + 1))
                      (uint64 (num_tx_bytes + pkt_len mbuf))
        end
  end.

Definition pmd_tx_burst (E : env) (txq : tx_queue) (bufs : list rte_mbuf)
                        (nb_pkts : Z) : M (Z * tx_queue) :=
  if nb_pkts =? 0 then mret (0, txq)
  else
    '(num_tx, num_tx_bytes) ← tx_loop E (tx_fd txq) bufs (Z.to_nat nb_pkts) 0 0;
    mret (num_tx,
          {| tx_fd := tx_fd txq;
             tx_stats := add_tx_stats (tx_stats txq) num_tx nb_pkts num_tx_bytes |}).

(** ** RxEngine: [pmd_rx_burst] *)

(** The three stores into the buffer after a successful read.  The width
    of the buffer's [port] field is fixed by rte_mbuf.h; the queue's port
    identity is stored as it is.  [rte_pktmbuf_tailroom] is the buffer
    length less the headroom and [data_len], in 16 bits, so the store to
    [data_len] moves the room it reports by the change of [data_len]. *)
Definition rx_fill (mbuf : rte_mbuf) (len in_port : Z) : rte_mbuf :=
  {| buf_addr := buf_addr mbuf;
     data_len := uint16 len;
     pkt_len  := uint32 len;
     port     := in_port;
     tailroom := uint16 (tailroom mbuf + data_len mbuf - uint16 len) |}.

Definition add_rx_stats (s : pkt_stats) (num_rx num_rx_bytes : Z) : pkt_stats :=
  {| opackets := opackets s;
     ipackets := uint64 (ipackets s + num_rx);
     obytes   := obytes s;
     ibytes   := uint64 (ibytes s + num_rx_bytes);
     errs     := errs s |}.

(** The [for (num_rx = 0; num_rx < nb_pkts; )] loop; [fuel] is
    [nb_pkts - num_rx] and [bufs] the part of the output array filled so
    far. *)
Fixpoint rx_loop (E : env) (q : rx_queue) (fuel : nat)
                 (bufs : list rte_mbuf) (num_rx num_rx_bytes : Z)
  : M (list rte_mbuf * Z * Z) :=
  match fuel with
  | O => mret (bufs, num_rx, num_rx_bytes)
  | S fuel' =>
      o ← rte_pktmbuf_alloc E (rx_mp q);
      match o with
      | None => mret (bufs, num_rx, num_rx_bytes)
      | Some mbuf =>
          len ← sys_read E (rx_fd q) mbuf;
          if len <=? 0
          then _ ← rte_pktmbuf_free mbuf; mret (bufs, num_rx, num_rx_bytes)
          else
            let mbuf' := rx_fill mbuf len (in_port q) in
            rx_loop E q fuel' (bufs ++ [mbuf'])
                    (uint16 (num_rx + 1))
                    (uint64 (num_rx_bytes + pkt_len mbuf'))
      end
  end.

(** Returns [num_rx], the filled prefix of [bufs] and the updated queue. *)
Definition pmd_rx_burst (E : env) (q : rx_queue) (nb_pkts : Z)
  : M (Z * list rte_mbuf * rx_queue) :=
  '(bufs, num_rx, num_rx_bytes) ← rx_loop E q (Z.to_nat nb_pkts) [] 0 0;
  mret (num_rx, bufs,
        {| rx_mp := rx_mp q; in_port := in_port q; rx_fd := rx_fd q;
           rx_stats := add_rx_stats (rx_stats q) num_rx num_rx_bytes |}).

(** ** ChannelFactory: [tun_alloc] *)

(** The [if / else if / else] chain on the feature word, as a function of
    the queue maximum the driver is built with: [None] is the jump to
    [error], [Some f] the flag or-ed into [ifr.ifr_flags]. *)
Definition tun_queue_mode (max_queues features : Z) : option Z :=
  if (Z.land features IFF_MULTI_QUEUE =? 0) && (1 <? max_queues)
  then None
  else if negb (Z.land features IFF_ONE_QUEUE =? 0) && (max_queues =? 1)
  then Some IFF_ONE_QUEUE
  else Some IFF_MULTI_QUEUE.

(** The [error:] label. *)
Definition tun_alloc_error (fd : Z) : M Z :=
  _ ← (if 0 <? fd then sys_close fd else mret tt);
  mret (-1).

(** The interface name only travels to the kernel and back; it is not
    modelled. *)
Definition tun_alloc (E : env) : M Z :=
  fd ← sys_open E;
  if fd <? 0 then tun_alloc_error fd
  else
    '(r, features) ← sys_ioctl E fd TUNGETFEATURES;
    if r <? 0 then tun_alloc_error fd
    else
      match tun_queue_mode RTE_PMD_TAP_MAX_QUEUES features with
      | None => tun_alloc_error fd
      | Some qflag =>
          let ifr_flags := Z.lor (Z.lor IFF_TAP IFF_NO_PI) qflag in
          '(r, _) ← sys_ioctl E fd (TUNSETIFF ifr_flags);
          if r <? 0 then tun_alloc_error fd
          else
            r ← sys_fcntl_nonblock E fd;
            if r <? 0 then tun_alloc_error fd
            else mret fd
      end.

(** ** QueueFdRegistry: queue setup *)

Definition set_rx_fd (fd : Z) (q : rx_queue) : rx_queue :=
  {| rx_mp := rx_mp q; in_port := in_port q; rx_fd := fd;
     rx_stats := rx_stats q |}.

Definition set_tx_fd (fd : Z) (q : tx_queue) : tx_queue :=
  {| tx_fd := fd; tx_stats := tx_stats q |}.

Definition set_rx_pool (mp : option rte_mempool) (p : Z) (q : rx_queue)
  : rx_queue :=
  {| rx_mp := mp; in_port := p; rx_fd := rx_fd q; rx_stats := rx_stats q |}.

Definition install_fd (pmd : pmd_internals) (qid : nat) (fd : Z)
  : pmd_internals :=
  {| nb_queues := nb_queues pmd;
     fds := fds pmd;
     rxq := alter (set_rx_fd fd) qid (rxq pmd);
     txq := alter (set_tx_fd fd) qid (txq pmd) |}.

(** Returns the descriptor (or -1) and the updated private data.  The
    framework's tables of published queue pointers are not modelled. *)
Definition tap_setup_queue (E : env) (pmd : pmd_internals) (qid : nat)
  : M (Z * pmd_internals) :=
  match rxq pmd !! qid, txq pmd !! qid with
  | Some rx, Some tx =>
      if rx_fd rx <? 0 then
        if tx_fd tx <? 0 then
          fd ← tun_alloc E;
          if fd <? 0 then mret (-1, pmd)
          else mret (fd, install_fd pmd qid fd)
        else mret (tx_fd tx, install_fd pmd qid (tx_fd tx))
      else mret (rx_fd rx, install_fd pmd qid (rx_fd rx))
  | _, _ => mret (-1, pmd)          (* outside the arrays *)
  end.

Definition with_private (dev : rte_eth_dev) (pmd : pmd_internals)
  : rte_eth_dev :=
  {| port_id := port_id dev; link_status := link_status dev;
     dev_private := pmd |}.

Definition with_link (dev : rte_eth_dev) (st : Z) : rte_eth_dev :=
  {| port_id := port_id dev; link_status := st;
     dev_private := dev_private dev |}.

(** [headroom] is RTE_PKTMBUF_HEADROOM, a build-configuration constant. *)
Definition tap_rx_queue_setup (E : env) (headroom : Z) (dev : rte_eth_dev)
    (rx_queue_id : nat) (mp : option rte_mempool) : M (Z * rte_eth_dev) :=
  let internals := dev_private dev in
  match mp with
  | Some pool =>
      if (nb_queues internals <=? rx_queue_id)%nat then mret (-1, dev)
      else
        let internals1 :=
          {| nb_queues := nb_queues internals;
             fds := fds internals;
             rxq := alter (set_rx_pool mp (port_id dev)) rx_queue_id
                          (rxq internals);
             txq := txq internals |} in
        let buf_size := uint16 (data_room_size pool - headroom) in
        if buf_size <? ETH_FRAME_LEN
        then mret (- ENOMEM, with_private dev internals1)
        else
          '(fd, internals2) ← tap_setup_queue E internals1 rx_queue_id;
          if fd =? -1 then mret (-1, with_private dev internals2)
          else
            mret (0, with_private dev
                       {| nb_queues := nb_queues internals2;
                          fds := <[rx_queue_id := fd]> (fds internals2);
                          rxq := rxq internals2;
                          txq := txq internals2 |})
  | None => mret (-1, dev)
  end.

Definition tap_tx_queue_setup (E : env) (dev : rte_eth_dev)
    (tx_queue_id : nat) : M (Z * rte_eth_dev) :=
  let internals := dev_private dev in
  if (nb_queues internals <=? tx_queue_id)%nat then mret (-1, dev)
  else
    '(ret, internals') ← tap_setup_queue E internals tx_queue_id;
    if ret =? -1 then mret (-1, with_private dev internals')
    else mret (0, with_private dev internals').

(** [tap_rx_queue_release] / [tap_tx_queue_release]; [None] is a NULL
    queue pointer. *)
Definition tap_rx_queue_release (q : option rx_queue) : M (option rx_queue) :=
  match q with
  | Some rxq =>
      if 0 <? rx_fd rxq
      then _ ← sys_close (rx_fd rxq); mret (Some (set_rx_fd (-1) rxq))
      else mret q
  | None => mret None
  end.

Definition tap_tx_queue_release (q : option tx_queue) : M (option tx_queue) :=
  match q with
  | Some txq =>
      if 0 <? tx_fd txq
      then _ ← sys_close (tx_fd txq); mret (Some (set_tx_fd (-1) txq))
      else mret q
  | None => mret None
  end.

(** ** DeviceLifecycle *)

(** [for (i = start; i < start + fuel; i++) body(i);] *)
Fixpoint for_each (body : nat -> M unit) (start fuel : nat) : M unit :=
  match fuel with
  | O => mret tt
  | S fuel' => _ ← body start; for_each body (S start) fuel'
  end.

(** The loop body shared by stop and remove:
    [if (internals->fds[i] != -1) close(internals->fds[i]);] *)
Definition close_slot (internals : pmd_internals) (i : nat) : M unit :=
  match fds internals !! i with
  | Some fd => if fd =? -1 then mret tt else sys_close fd
  | None => mret tt                  (* outside the array *)
  end.

Definition tap_dev_start (dev : rte_eth_dev) : M (Z * rte_eth_dev) :=
  mret (0, with_link dev ETH_LINK_UP).

Definition tap_dev_stop (dev : rte_eth_dev) : M rte_eth_dev :=
  let internals := dev_private dev in
  _ ← for_each (close_slot internals) 0 (nb_queues internals);
  mret (with_link dev ETH_LINK_DOWN).

Definition tap_dev_close (dev : rte_eth_dev) : M rte_eth_dev := mret dev.

(** [rte_pmd_tap_remove] once the device has been found by name ([None]:
    no device of that name).  The device is gone afterwards. *)
Definition rte_pmd_tap_remove (d : option rte_eth_dev) : M Z :=
  match d with
  | None => mret 0
  | Some eth_dev =>
      let internals := dev_private eth_dev in
      _ ← for_each (close_slot internals) 0 (nb_queues internals);
      mret 0
  end.

Definition pmd_mac_address (E : env) (fd : Z) : M Z :=
  if fd <=? 0 then mret (-1)
  else
    '(r, _) ← sys_ioctl E fd SIOCGIFHWADDR;
    if r =? -1 then mret (-1)
    else
      '(r, _) ← sys_ioctl E fd SIOCSIFHWADDR;
      if r =? -1 then mret (-1) else mret 0.

Definition zero_stats : pkt_stats :=
  {| opackets := 0; ipackets := 0; obytes := 0; ibytes := 0; errs := 0 |}.

(** [eth_dev_tap_create]; the framework's memory and port allocations are
    taken to succeed.  [None] is the [error_exit] path. *)
Definition eth_dev_tap_create (E : env) (port : Z) : M (option rte_eth_dev) :=
  fd ← tun_alloc E;
  if fd <? 0 then mret None
  else
    let n := Z.to_nat RTE_PMD_TAP_MAX_QUEUES in
    let rx0 := {| rx_mp := None; in_port := 0; rx_fd := -1;
                  rx_stats := zero_stats |} in
    let tx0 := {| tx_fd := -1; tx_stats := zero_stats |} in
    let pmd :=
      {| nb_queues := n;
         fds := <[0%nat := fd]> (replicate n (-1));
         rxq := <[0%nat := set_rx_fd fd rx0]> (replicate n rx0);
         txq := <[0%nat := set_tx_fd fd tx0]> (replicate n tx0) |} in
    r ← pmd_mac_address E fd;
    if r <? 0 then mret None
    else mret (Some {| port_id := port; link_status := ETH_LINK_DOWN;
                       dev_private := pmd |}).

(** ** StatsAggregator *)

Record rte_eth_stats := {
  s_ipackets : Z;
  s_opackets : Z;
  s_ibytes   : Z;
  s_obytes   : Z;
  s_oerrors  : Z;
  q_ipackets : list Z;
  q_opackets : list Z;
  q_ibytes   : list Z;
  q_obytes   : list Z;
  q_errors   : list Z
}.

(** [for (i = 0; i < n; i++) s = body i s] *)
Definition for_range {S : Type} (n : nat) (body : nat -> S -> S) (s : S) : S :=
  fold_left (fun s i => body i s) (seq 0 n) s.

(** Element [i] of a counter array as an rvalue. *)
Definition rd (l : list Z) (i : nat) : Z := default 0 (l !! i).

Definition stats_get_rx (pmd : pmd_internals) (i : nat)
    (s : rte_eth_stats * Z * Z) : rte_eth_stats * Z * Z :=
  let '(st, rx_total, rx_bytes_total) := s in
  match rxq pmd !! i with
  | None => s
  | Some q =>
      let qi := <[i := ipackets (rx_stats q)]> (q_ipackets st) in
      let qb := <[i := ibytes (rx_stats q)]> (q_ibytes st) in
      ({| s_ipackets := s_ipackets st; s_opackets := s_opackets st;
          s_ibytes := s_ibytes st; s_obytes := s_obytes st;
          s_oerrors := s_oerrors st;
          q_ipackets := qi; q_opackets := q_opackets st;
          q_ibytes := qb; q_obytes := q_obytes st;
          q_errors := q_errors st |},
       uint64 (rx_total + rd qi i),
       uint64 (rx_bytes_total + rd qb i))
  end.

Definition stats_get_tx (pmd : pmd_internals) (i : nat)
    (s : rte_eth_stats * Z * Z * Z) : rte_eth_stats * Z * Z * Z :=
  let '(st, tx_total, tx_err_total, tx_bytes_total) := s in
  match txq pmd !! i with
  | None => s
  | Some q =>
      let qo := <[i := opackets (tx_stats q)]> (q_opackets st) in
      let qe := <[i := errs (tx_stats q)]> (q_errors st) in
      let qb := <[i := obytes (tx_stats q)]> (q_obytes st) in
      ({| s_ipackets := s_ipackets st; s_opackets := s_opackets st;
          s_ibytes := s_ibytes st; s_obytes := s_obytes st;
          s_oerrors := s_oerrors st;
          q_ipackets := q_ipackets st; q_opackets := qo;
          q_ibytes := q_ibytes st; q_obytes := qb;
          q_errors := qe |},
       uint64 (tx_total + rd qo i),
       uint64 (tx_err_total + rd qe i),
       uint64 (tx_bytes_total + rd qb i))
  end.

(** [stat_cntrs] is RTE_ETHDEV_QUEUE_STAT_CNTRS, the build-configuration
    length of the per-queue arrays of [struct rte_eth_stats]. *)
Definition tap_stats_get (stat_cntrs : nat) (dev : rte_eth_dev)
    (tap_stats : rte_eth_stats) : rte_eth_stats :=
  let pmd := dev_private dev in
  let imax := if (nb_queues pmd <? stat_cntrs)%nat
              then nb_queues pmd else stat_cntrs in
  let '(st1, rx_total, rx_bytes_total) :=
    for_range imax (stats_get_rx pmd) (tap_stats, 0, 0) in
  let '(st2, tx_total, tx_err_total, tx_bytes_total) :=
    for_range imax (stats_get_tx pmd) (st1, 0, 0, 0) in
  {| s_ipackets := rx_total; s_opackets := tx_total;
     s_ibytes := rx_bytes_total; s_obytes := tx_bytes_total;
     s_oerrors := tx_err_total;
     q_ipackets := q_ipackets st2; q_opackets := q_opackets st2;
     q_ibytes := q_ibytes st2; q_obytes := q_obytes st2;
     q_errors := q_errors st2 |}.

Definition reset_rx (q : rx_queue) : rx_queue :=
  {| rx_mp := rx_mp q; in_port := in_port q; rx_fd := rx_fd q;
     rx_stats := {| opackets := opackets (rx_stats q); ipackets := 0;
                    obytes := obytes (rx_stats q); ibytes := 0;
                    errs := errs (rx_stats q) |} |}.

Definition reset_tx (q : tx_queue) : tx_queue :=
  {| tx_fd := tx_fd q;
     tx_stats := {| opackets := 0; ipackets := ipackets (tx_stats q);
                    obytes := 0; ibytes := ibytes (tx_stats q);
                    errs := 0 |} |}.

Definition tap_stats_reset (dev : rte_eth_dev) : rte_eth_dev :=
  let pmd := dev_private dev in
  let rxq' := for_range (nb_queues pmd) (fun i => alter reset_rx i) (rxq pmd) in
  let txq' := for_range (nb_queues pmd) (fun i => alter reset_tx i) (txq pmd) in
  with_private dev
    {| nb_queues := nb_queues pmd; fds := fds pmd; rxq := rxq'; txq := txq' |}.

(** ** Reading a record of events *)

Definition run {A} (m : M A) : A * list event := m 0%nat.

Definition freed (es : list event) : list rte_mbuf :=
  omap (fun e => match e with EvFree m => Some m | _ => None end) es.

(** Buffers handed to a write that returned a positive count. *)
Definition written (es : list event) : list rte_mbuf :=
  omap (fun e => match e with
                 | EvWrite _ m r => if 0 <? r then Some m else None
                 | _ => None end) es.

(** Results of the polls, and of the [open] calls. *)
Definition polls (es : list event) : list (Z * Z) :=
  omap (fun e => match e with EvPoll _ r rev => Some (r, rev) | _ => None end) es.

Definition opens (es : list event) : list Z :=
  omap (fun e => match e with EvOpen r => Some r | _ => None end) es.

(** Descriptors obtained from a successful [open] and not closed since. *)
Definition still_open (es : list event) : list Z :=
  fold_left (fun acc e =>
               match e with
               | EvOpen fd => if fd <? 0 then acc else acc ++ [fd]
               | EvClose fd => filter (fun x => x ≠ fd) acc
               | _ => acc
               end) es [].

(** ** The shape of a transmit burst's record *)

Definition sum_len (l : list rte_mbuf) : Z :=
  foldr (fun m acc => pkt_len m + acc) 0 l.

(** [tx_trace fd bufs fuel num es num']: with [fuel] iterations left and
    [num] frames sent, the loop issues [es] and ends with [num'] sent. *)
Inductive tx_trace (fd : Z) (bufs : list rte_mbuf)
  : nat -> nat -> list event -> nat -> Prop :=
| tx_end num :
    tx_trace fd bufs 0 num [] num
| tx_not_ready fuel num n rev :
    n <= 0 ->
    tx_trace fd bufs (S fuel) num [EvPoll fd n rev] num
| tx_skip fuel num n rev es num' :
    0 < n -> Z.land rev POLLOUT = 0 ->
    tx_trace fd bufs fuel num es num' ->
    tx_trace fd bufs (S fuel) num (EvPoll fd n rev :: es) num'
| tx_write_fail fuel num n rev m r :
    0 < n -> Z.land rev POLLOUT <> 0 ->
    bufs !! num = Some m -> r <= 0 ->
    tx_trace fd bufs (S fuel) num [EvPoll fd n rev; EvWrite fd m r] num
| tx_sent fuel num n rev m r es num' :
    0 < n -> Z.land rev POLLOUT <> 0 ->
    bufs !! num = Some m -> 0 < r ->
    tx_trace fd bufs fuel (S num) es num' ->
    tx_trace fd bufs (S fuel) num
             (EvPoll fd n rev :: EvWrite fd m r :: EvFree m :: es) num'.

(** A burst issues polls, writes and frees on its own descriptor and
    nothing else. *)
Definition tx_event (fd : Z) (e : event) : Prop :=
  match e with
  | EvPoll fd' _ _ | EvWrite fd' _ _ => fd' = fd
  | EvFree _ => True
  | _ => False
  end.

(** The arguments of a burst: [bufs] holds [nb_pkts] frames and
    [nb_pkts] is a [uint16_t]. *)
Definition burst_args (bufs : list rte_mbuf) (nb_pkts : Z) : Prop :=
  nb_pkts = Z.of_nat (length bufs) /\ nb_pkts <= UINT16_MAX.

(** ** Concrete environments and inputs *)

(** An environment that answers the k-th call from three lists (0, 0 and
    "no buffer" past their ends). *)
Definition scripted (rets outs : list Z) (pool : list (option rte_mbuf)) : env :=
  {| sys_ret := fun k => default 0 (rets !! k);
     sys_out := fun k => default 0 (outs !! k);
     pool_get := fun k => default None (pool !! k) |}.

Definition frame (addr len : Z) : rte_mbuf :=
  {| buf_addr := addr; data_len := len; pkt_len := len; port := 0;
     tailroom := 0 |}.

Definition fresh_buf (addr room : Z) : rte_mbuf :=
  {| buf_addr := addr; data_len := 0; pkt_len := 0; port := 0;
     tailroom := room |}.

Definition txq0 (fd : Z) : tx_queue := {| tx_fd := fd; tx_stats := zero_stats |}.


(** Three frames on descriptor 7: the first poll reports an error
    condition without POLLOUT, the next two report POLLOUT, the first
    write takes the whole frame and the second only 5 of 200 bytes, the
    last iteration is not reached. *)
Definition frames3 : list rte_mbuf := [frame 1 100; frame 2 200; frame 3 300].

Definition E_burst : env :=
  scripted [1; 1; 100; 0; 1; 5; 0] [POLLERR; POLLOUT; 0; 0; POLLOUT; 0; 0] [].

(** Two frames: ready for both, the second write is refused. *)
Definition frames2 : list rte_mbuf := [frame 1 100; frame 2 200].

Definition E_refused : env :=
  scripted [1; 100; 0; 1; -1] [POLLOUT; 0; 0; POLLOUT; 0] [].

(** The reading of "stop at the first check that does not report the
    descriptor ready" on a record of events: nothing follows a poll that
    returned zero or less or returned without POLLOUT. *)
Definition stops_at_first_not_ready (fd : Z) (es : list event) : Prop :=
  forall pre n rev post,
    es = pre ++ EvPoll fd n rev :: post ->
    n <= 0 \/ Z.land rev POLLOUT = 0 ->
    post = [].

(** A receive queue on descriptor 7 with port identity 2, and an
    environment in which the pool hands out two buffers, the first read
    yields a 60-byte frame and the second would block. *)
Definition pool0 : rte_mempool := {| mp_id := 1; data_room_size := 2176 |}.

Definition rxq0 : rx_queue :=
  {| rx_mp := Some pool0;
     in_port := 2; rx_fd := 7; rx_stats := zero_stats |}.

Definition E_rx : env :=
  scripted [0; 60; 0; -1]
           []
           [Some (fresh_buf 1 2048); None; Some (fresh_buf 2 2048)].

(** ** Vocabulary of the statements *)

Definition supports_multiqueue (features : Z) : Prop :=
  Z.land features IFF_MULTI_QUEUE <> 0.

Definition restricts_one_queue (features : Z) : Prop :=
  Z.land features IFF_ONE_QUEUE <> 0.

Definition IFR_ONE : Z := Z.lor (Z.lor IFF_TAP IFF_NO_PI) IFF_ONE_QUEUE.

(** The flags of the first TUNSETIFF request in a record of events: the
    mode a channel creation asked the kernel for, if it asked. *)
Definition requested_mode (es : list event) : option Z :=
  head (omap (fun e => match e with
                       | EvIoctl _ (TUNSETIFF flags) _ => Some flags
                       | _ => None end) es).

(** The mode policy in the specification's words: multiqueue when the
    backend supports it and the maximum exceeds 1, single-queue when the
    backend restricts to one queue and the maximum is exactly 1, a
    mismatch ([None]) in every other case. *)
Definition mode_policy_as_stated (max_queues features : Z) : option Z :=
  if negb (Z.land features IFF_MULTI_QUEUE =? 0) && (1 <? max_queues)
  then Some IFF_MULTI_QUEUE
  else if negb (Z.land features IFF_ONE_QUEUE =? 0) && (max_queues =? 1)
  then Some IFF_ONE_QUEUE
  else None.

(** The arrays of the private data cover the configured queues. *)
Definition wf_internals (pmd : pmd_internals) : Prop :=
  (nb_queues pmd <= length (fds pmd))%nat /\
  (nb_queues pmd <= length (rxq pmd))%nat /\
  (nb_queues pmd <= length (txq pmd))%nat.

Definition rxq_fd (pmd : pmd_internals) (i : nat) : option Z :=
  rx_fd <$> rxq pmd !! i.

Definition txq_fd (pmd : pmd_internals) (i : nat) : option Z :=
  tx_fd <$> txq pmd !! i.

(** A slot of [fds] that does not hold the sentinel. *)
Definition assigned (fd : Z) : Prop := fd <> -1.

(** Either half of a queue's setup. *)
Inductive setup_half :=
| SetupRx (mp : option rte_mempool)
| SetupTx.

Definition queue_setup (E : env) (headroom : Z) (dev : rte_eth_dev)
    (qid : nat) (h : setup_half) : M (Z * rte_eth_dev) :=
  match h with
  | SetupRx mp => tap_rx_queue_setup E headroom dev qid mp
  | SetupTx => tap_tx_queue_setup E dev qid
  end.

(** Queue [i] has all the counters that [tap_stats_get] reads at zero. *)
Definition rx_zeroed (pmd : pmd_internals) (i : nat) : Prop :=
  exists q, rxq pmd !! i = Some q /\
            ipackets (rx_stats q) = 0 /\ ibytes (rx_stats q) = 0.

Definition tx_zeroed (pmd : pmd_internals) (i : nat) : Prop :=
  exists q, txq pmd !! i = Some q /\
            opackets (tx_stats q) = 0 /\ obytes (tx_stats q) = 0 /\
            errs (tx_stats q) = 0.

(** The per-queue arrays of the caller's [struct rte_eth_stats] have
    [stat_cntrs] entries. *)
Definition stats_shape (stat_cntrs : nat) (st : rte_eth_stats) : Prop :=
  length (q_ipackets st) = stat_cntrs /\
  length (q_opackets st) = stat_cntrs /\
  length (q_ibytes st) = stat_cntrs /\
  length (q_obytes st) = stat_cntrs /\
  length (q_errors st) = stat_cntrs.

(** A counter array whose first [n] entries are zero. *)
Definition zero_upto (n : nat) (l : list Z) : Prop :=
  forall i, (i < n)%nat -> l !! i = Some 0.

(** ** A device brought up on descriptors 3 and 4 *)

(** The kernel hands out descriptor 3 to the creation and descriptor 4 to
    the next channel; it supports multiqueue and every call succeeds. *)
Definition E_create : env :=
  scripted [3; 0; 0; 0; 0; 0; 4; 0; 0; 0]
           [0; IFF_MULTI_QUEUE + IFF_ONE_QUEUE; 0; 0; 0; 0; 0; IFF_MULTI_QUEUE]
           [].

Definition rx_unset : rx_queue :=
  {| rx_mp := None; in_port := 0; rx_fd := -1; rx_stats := zero_stats |}.

Definition tx_unset : tx_queue := {| tx_fd := -1; tx_stats := zero_stats |}.

(** The device as [eth_dev_tap_create] leaves it in [E_create]. *)
Definition dev_created : rte_eth_dev :=
  {| port_id := 0; link_status := ETH_LINK_DOWN;
     dev_private :=
       {| nb_queues := 16;
          fds := 3 :: replicate 15 (-1);
          rxq := set_rx_fd 3 rx_unset :: replicate 15 rx_unset;
          txq := set_tx_fd 3 tx_unset :: replicate 15 tx_unset |} |}.

(** ... and after the TX half of queue 1 has been set up on it. *)
Definition dev_tx1 : rte_eth_dev :=
  {| port_id := 0; link_status := ETH_LINK_DOWN;
     dev_private :=
       {| nb_queues := 16;
          fds := 3 :: replicate 15 (-1);
          rxq := set_rx_fd 3 rx_unset :: set_rx_fd 4 rx_unset
                 :: replicate 14 rx_unset;
          txq := set_tx_fd 3 tx_unset :: set_tx_fd 4 tx_unset
                 :: replicate 14 tx_unset |} |}.

Definition IFR_MULTI : Z := Z.lor (Z.lor IFF_TAP IFF_NO_PI) IFF_MULTI_QUEUE.

(** The calls of the creation and of the TX setup of queue 1 in
    [E_create]. *)
Definition created_events : list event :=
  [EvOpen 3; EvIoctl 3 TUNGETFEATURES 0; EvIoctl 3 (TUNSETIFF IFR_MULTI) 0;
   EvFcntl 3 0; EvIoctl 3 SIOCGIFHWADDR 0; EvIoctl 3 SIOCSIFHWADDR 0].

Definition tx1_events : list event :=
  [EvOpen 4; EvIoctl 4 TUNGETFEATURES 0; EvIoctl 4 (TUNSETIFF IFR_MULTI) 0;
   EvFcntl 4 0].

(** The device after traffic on queue 0, and a caller's statistics
    structure holding stale values. *)
Definition busy_stats : pkt_stats :=
  {| opackets := 7; ipackets := 5; obytes := 700; ibytes := 500; errs := 2 |}.

Definition dev_busy : rte_eth_dev :=
  {| port_id := 0; link_status := ETH_LINK_UP;
     dev_private :=
       {| nb_queues := 16;
          fds := 3 :: replicate 15 (-1);
          rxq := {| rx_mp := None; in_port := 0; rx_fd := 3;
                    rx_stats := busy_stats |} :: replicate 15 rx_unset;
          txq := {| tx_fd := 3; tx_stats := busy_stats |}
                 :: replicate 15 tx_unset |} |}.

Definition stale_stats : rte_eth_stats :=
  {| s_ipackets := 9; s_opackets := 9; s_ibytes := 9; s_obytes := 9;
     s_oerrors := 9;
     q_ipackets := replicate 16 9; q_opackets := replicate 16 9;
     q_ibytes := replicate 16 9; q_obytes := replicate 16 9;
     q_errors := replicate 16 9 |}.

(** ** Further readings of a record of events *)

(** Buffers handed to a write, whatever the write returned. *)
Definition attempted (es : list event) : list rte_mbuf :=
  omap (fun e => match e with EvWrite _ m _ => Some m | _ => None end) es.

(** Polls that returned a positive count without POLLOUT. *)
Definition idle_polls (es : list event) : list (Z * Z) :=
  omap (fun e => match e with
                 | EvPoll _ r rev =>
                     if (0 <? r) && (Z.land rev POLLOUT =? 0)
                     then Some (r, rev) else None
                 | _ => None end) es.

Definition closes (es : list event) : list Z :=
  omap (fun e => match e with EvClose fd => Some fd | _ => None end) es.

(** Buffers the pool handed out. *)
Definition allocated (es : list event) : list rte_mbuf :=
  omap (fun e => match e with EvAlloc (Some m) => Some m | _ => None end) es.

(** The reads, and those that returned a positive count, each with the
    buffer read into. *)
Definition reads (es : list event) : list (rte_mbuf * Z) :=
  omap (fun e => match e with EvRead _ m r => Some (m, r) | _ => None end) es.

Definition good_reads (es : list event) : list (rte_mbuf * Z) :=
  omap (fun e => match e with
                 | EvRead _ m r => if 0 <? r then Some (m, r) else None
                 | _ => None end) es.

(** ** Environments that always deliver *)

(** Every poll reports POLLOUT and every write takes something. *)
Definition always_writable (E : env) : Prop :=
  forall j, 0 < sys_ret E j /\ Z.land (sys_out E j) POLLOUT <> 0 /\
            0 < to_int (sys_ret E j).

(** The pool always has a buffer and every read yields data. *)
Definition always_readable (E : env) : Prop :=
  forall j, pool_get E j <> None /\ 0 < to_int (sys_ret E j).

Definition E_ready : env :=
  {| sys_ret := fun _ => 64; sys_out := fun _ => POLLOUT;
     pool_get := fun k => Some (fresh_buf (Z.of_nat k) 2048) |}.

(** ** The shape of a receive burst's record *)

(** [rx_trace q fuel es new]: with [fuel] iterations left the loop issues
    [es] and appends the frames [new] to the output array. *)
Inductive rx_trace (q : rx_queue) : nat -> list event -> list rte_mbuf -> Prop :=
| rx_end :
    rx_trace q 0 [] []
| rx_no_buf fuel :
    rx_trace q (S fuel) [EvAlloc None] []
| rx_no_data fuel m r :
    r <= 0 ->
    rx_trace q (S fuel) [EvAlloc (Some m); EvRead (rx_fd q) m r; EvFree m] []
| rx_got fuel m r es new :
    0 < r < 2 ^ 31 ->
    rx_trace q fuel es new ->
    rx_trace q (S fuel) (EvAlloc (Some m) :: EvRead (rx_fd q) m r :: es)
             (rx_fill m r (in_port q) :: new).

(** A receive burst issues allocations, reads on its own descriptor and
    frees, and nothing else. *)
Definition rx_event (fd : Z) (e : event) : Prop :=
  match e with
  | EvRead fd' _ _ => fd' = fd
  | EvAlloc _ | EvFree _ => True
  | _ => False
  end.

(** The frame a positive read leaves in its buffer. *)
Definition filled (in_port : Z) (mr : rte_mbuf * Z) : rte_mbuf :=
  rx_fill (fst mr) (snd mr) in_port.

(** ** Outcomes of channel creation *)

(** The five things [tun_alloc] needs from the kernel for the call made
    as external call number [k]: a descriptor, its features, multiqueue
    support, the configuration and non-blocking mode. *)
Definition tun_steps_ok (E : env) (k : nat) : Prop :=
  0 <= sys_ret E k /\
  0 <= sys_ret E (k + 1) /\
  supports_multiqueue (sys_out E (k + 1)) /\
  0 <= sys_ret E (k + 2) /\
  0 <= sys_ret E (k + 3).

(** The kernel hands out descriptor 5 and refuses TUNSETIFF. *)
Definition E_setiff_fails : env :=
  scripted [5; 0; -1] [0; IFF_MULTI_QUEUE] [].

(** The kernel hands out descriptor 0 and has no multiqueue support. *)
Definition E_fd0_single : env :=
  scripted [0; 0] [0; IFF_ONE_QUEUE] [].

(** A pool whose buffers are too small for an Ethernet frame once the
    headroom is taken off. *)
Definition pool_small : rte_mempool := {| mp_id := 2; data_room_size := 1500 |}.

(** A queue whose halves share descriptor 9, and one on descriptor 0. *)
Definition rx_on (fd : Z) : rx_queue := set_rx_fd fd rx_unset.
Definition tx_on (fd : Z) : tx_queue := set_tx_fd fd tx_unset.

(** The kernel hands out descriptor 3 and then fails the first ioctl on
    the interface's hardware address. *)
Definition E_mac_fails : env :=
  scripted [3; 0; 0; 0; -1] [0; IFF_MULTI_QUEUE] [].

(** ** Sums of counters *)

Definition sum_z (l : list Z) : Z := foldr Z.add 0 l.

(** The counters of the first [n] queues, as [tap_stats_get] reads
    them. *)
Definition rx_counters (f : pkt_stats -> Z) (pmd : pmd_internals) (n : nat)
  : list Z := (fun q => f (rx_stats q)) <$> take n (rxq pmd).

Definition tx_counters (f : pkt_stats -> Z) (pmd : pmd_internals) (n : nat)
  : list Z := (fun q => f (tx_stats q)) <$> take n (txq pmd).

(** ** Probe: [rte_pmd_tap_probe] *)

(* rte_ethdev.h, <errno.h> *)
Definition ETH_SPEED_NUM_10G : Z := 10000.
Definition EINVAL : Z := 22.

(** The driver's two file-scope variables: the next unit number and the
    speed field of [pmd_link]. *)
Record pmd_globals := {
  tap_unit   : Z;
  link_speed : Z
}.

(** What the rte_kvargs library answers during one probe: whether
    [rte_kvargs_parse] returned a list, and for each of the two arguments
    its count and the return value of [rte_kvargs_process];
    [kv_speed] is the value the speed handler leaves in [speed]. *)
Record kvargs_run := {
  kv_list        : bool;
  kv_speed_count : Z;
  kv_speed_ret   : Z;
  kv_speed       : Z;
  kv_iface_count : Z;
  kv_iface_ret   : Z
}.

(** The [leave:] label. *)
Definition probe_leave (ret : Z) (g : pmd_globals) (d : option rte_eth_dev)
  : Z * pmd_globals * option rte_eth_dev :=
  (ret,
   if ret =? -1
   then {| tap_unit := tap_unit g - 1; link_speed := link_speed g |}
   else g,
   d).

(** [has_params] is [params && params[0] != '\0'].  The interface names
    are not modelled; [eth_dev_tap_create] returns 0 or -EINVAL. *)
Definition rte_pmd_tap_probe (E : env) (has_params : bool) (kv : kvargs_run)
    (g : pmd_globals) (port : Z)
  : M (Z * pmd_globals * option rte_eth_dev) :=
  let g1 := {| tap_unit := tap_unit g + 1; link_speed := link_speed g |} in
  let create speed :=
    let g2 := {| tap_unit := tap_unit g1; link_speed := speed |} in
    d ← eth_dev_tap_create E port;
    mret (probe_leave (match d with Some _ => 0 | None => - EINVAL end) g2 d) in
  let after_speed speed :=
    if kv_iface_count kv =? 1 then
      if kv_iface_ret kv =? -1
      then mret (probe_leave (kv_iface_ret kv) g1 None)
      else create speed
    else create speed in
  if has_params && kv_list kv then
    if kv_speed_count kv =? 1 then
      if kv_speed_ret kv =? -1
      then mret (probe_leave (kv_speed_ret kv) g1 None)
      else after_speed (kv_speed kv)
    else after_speed ETH_SPEED_NUM_10G
  else create ETH_SPEED_NUM_10G.

Definition no_kvargs : kvargs_run :=
  {| kv_list := false; kv_speed_count := 0; kv_speed_ret := 0; kv_speed := 0;
     kv_iface_count := 0; kv_iface_ret := 0 |}.

Definition globals0 : pmd_globals :=
  {| tap_unit := 0; link_speed := ETH_SPEED_NUM_10G |}.
(** * Properties *)

(** ** Machine-integer facts *)

Lemma uint64_range x : 0 <= uint64 x < 2 ^ 64.
Proof. unfold uint64, wrap. apply Z.mod_pos_bound. lia. Qed.

Lemma uint64_small x : 0 <= x < 2 ^ 64 -> uint64 x = x.
Proof. intros H. unfold uint64, wrap. now apply Z.mod_small. Qed.

Lemma uint64_add_l x y : uint64 (uint64 x + y) = uint64 (x + y).
Proof. unfold uint64, wrap. apply Zplus_mod_idemp_l. Qed.

Lemma uint64_add_r x y : uint64 (x + uint64 y) = uint64 (x + y).
Proof. unfold uint64, wrap. apply Zplus_mod_idemp_r. Qed.

Lemma uint16_succ (n : nat) :
  Z.of_nat n + 1 <= UINT16_MAX -> uint16 (Z.of_nat n + 1) = Z.of_nat (S n).
Proof.
  unfold UINT16_MAX, uint16, wrap. intros H. rewrite Z.mod_small; lia.
Qed.

Lemma to_int_pos x : 0 < to_int x -> 0 < to_int x < 2 ^ 31.
Proof.
  unfold to_int. intros H.
  pose proof (Z.mod_pos_bound (x + 2 ^ 31) (2 ^ 32)). lia.
Qed.

(** ** Running computations *)

Lemma run_bind {A B} (m : M A) (f : A -> M B) k :
  (m ≫= f) k =
  let '(a, es) := m k in
  let '(b, es') := f a (k + length es)%nat in (b, es ++ es').
Proof. reflexivity. Qed.

Lemma run_ret {A} (a : A) k : (mret a : M A) k = (a, []).
Proof. reflexivity. Qed.

Ltac mrun :=
  repeat (rewrite ?run_bind, ?run_ret;
          cbn [call sys_poll sys_write sys_read sys_open sys_ioctl sys_close
               sys_fcntl_nonblock rte_pktmbuf_alloc rte_pktmbuf_free app
               length fst snd]).

Lemma written_cons_sent fd m r es :
  0 < r -> written (EvWrite fd m r :: EvFree m :: es) = m :: written es.
Proof.
  intros H. cbn. destruct (0 <? r) eqn:Hr; [reflexivity | lia].
Qed.

Lemma tx_loop_sound E fd bufs fuel :
  forall (num : nat) bytes k,
    (num + fuel <= length bufs)%nat ->
    Z.of_nat (length bufs) <= UINT16_MAX ->
    0 <= bytes < 2 ^ 64 ->
    exists num' es,
      tx_loop E fd bufs fuel (Z.of_nat num) bytes k
      = (Z.of_nat num', uint64 (bytes + sum_len (written es)), es)
      /\ tx_trace fd bufs fuel num es num'.
Proof.
  induction fuel as [|fuel IH]; intros num bytes k Hlen Hmax Hb.
  - exists num, []. cbn. rewrite run_ret, Z.add_0_r, uint64_small by lia.
    split; [reflexivity | constructor].
  - cbn [tx_loop]. mrun.
    destruct (sys_ret E k <=? 0) eqn:Hn.
    { exists num, [EvPoll fd (sys_ret E k) (sys_out E k)]. mrun. cbn.
      rewrite Z.add_0_r, uint64_small by lia.
      split; [reflexivity | constructor; lia]. }
    destruct (Z.land (sys_out E k) POLLOUT =? 0) eqn:Hrev.
    { destruct (IH num bytes (k + 1)%nat) as (num' & es & Heq & Htr);
        [lia | lia | lia |].
      exists num', (EvPoll fd (sys_ret E k) (sys_out E k) :: es).
      rewrite Heq. split; [reflexivity |].
      apply tx_skip; [lia | lia | exact Htr]. }
    rewrite Nat2Z.id.
    destruct (bufs !! num) as [m|] eqn:Hm.
    2:{ apply lookup_ge_None in Hm. lia. }
    mrun.
    destruct (to_int (sys_ret E (k + 1)) <=? 0) eqn:Hw.
    { exists num, [EvPoll fd (sys_ret E k) (sys_out E k);
                   EvWrite fd m (to_int (sys_ret E (k + 1)))].
      mrun. cbn. destruct (0 <? to_int (sys_ret E (k + 1))) eqn:Hp; [lia|].
      cbn. rewrite Z.add_0_r, uint64_small by lia.
      split; [reflexivity |].
      apply tx_write_fail; [lia | lia | exact Hm | lia]. }
    mrun. rewrite uint16_succ by (unfold UINT16_MAX in *; lia).
    destruct (IH (S num) (uint64 (bytes + pkt_len m)) (k + 1 + 1 + 1)%nat)
      as (num' & es & Heq & Htr); [lia | lia | apply uint64_range |].
    exists num', (EvPoll fd (sys_ret E k) (sys_out E k)
                  :: EvWrite fd m (to_int (sys_ret E (k + 1)))
                  :: EvFree m :: es).
    rewrite Heq. split.
    + cbn [app]. f_equal. f_equal.
      change (written (EvPoll fd (sys_ret E k) (sys_out E k)
                       :: EvWrite fd m (to_int (sys_ret E (k + 1)))
                       :: EvFree m :: es))
        with (written (EvWrite fd m (to_int (sys_ret E (k + 1)))
                       :: EvFree m :: es)).
      rewrite written_cons_sent by lia. cbn [sum_len foldr].
      rewrite uint64_add_l. f_equal. unfold sum_len. lia.
    + apply tx_sent; [lia | lia | exact Hm | lia | exact Htr].
Qed.

Lemma tx_trace_bounds fd bufs fuel num es num' :
  tx_trace fd bufs fuel num es num' -> (num <= num' <= num + fuel)%nat.
Proof. induction 1; lia. Qed.

Lemma tx_trace_sent fd bufs fuel num es num' :
  tx_trace fd bufs fuel num es num' ->
  freed es = take (num' - num) (drop num bufs) /\
  written es = take (num' - num) (drop num bufs).
Proof.
  induction 1 as [num|fuel num n rev Hn|fuel num n rev es num' Hn Hrev Htr IH
                 |fuel num n rev m r Hn Hrev Hm Hr
                 |fuel num n rev m r es num' Hn Hrev Hm Hr Htr IH].
  - rewrite Nat.sub_diag. now cbn.
  - rewrite Nat.sub_diag. now cbn.
  - exact IH.
  - rewrite Nat.sub_diag. cbn. destruct (0 <? r) eqn:Hp; [lia | now cbn].
  - apply tx_trace_bounds in Htr. destruct IH as [IHf IHw].
    rewrite (drop_S _ _ _ Hm).
    replace (num' - num)%nat with (S (num' - S num)) by lia.
    cbn [take]. split.
    + change (freed (EvPoll fd n rev :: EvWrite fd m r :: EvFree m :: es))
        with (m :: freed es).
      now rewrite IHf.
    + change (written (EvPoll fd n rev :: EvWrite fd m r :: EvFree m :: es))
        with (written (EvWrite fd m r :: EvFree m :: es)).
      rewrite written_cons_sent by lia. now rewrite IHw.
Qed.

Lemma tx_trace_polls fd bufs fuel num es num' :
  tx_trace fd bufs fuel num es num' ->
  (length (polls es) <= fuel)%nat.
Proof.
  induction 1; unfold polls in *; cbn; try (cbn in IHtx_trace); lia.
Qed.

(** A poll that returns zero or less ends the record. *)
Lemma tx_trace_poll_stop fd bufs fuel num es num' :
  tx_trace fd bufs fuel num es num' ->
  forall pre fd' n rev post,
    es = pre ++ EvPoll fd' n rev :: post -> n <= 0 -> post = [].
Proof.
  induction 1 as [num|fuel num n0 rev0 Hn|fuel num n0 rev0 es num' Hn Hrev Htr IH
                 |fuel num n0 rev0 m r Hn Hrev Hm Hr
                 |fuel num n0 rev0 m r es num' Hn Hrev Hm Hr Htr IH];
    intros pre fd' n rev post Heq Hle.
  - destruct pre; discriminate.
  - destruct pre as [|e [|e' pre]]; cbn in Heq; try discriminate.
    now inversion Heq.
  - destruct pre as [|e pre]; cbn in Heq.
    + inversion Heq; subst. lia.
    + inversion Heq; subst. eapply IH; eauto.
  - destruct pre as [|e [|e' [|e'' pre]]]; cbn in Heq; try discriminate.
    inversion Heq; subst. lia.
  - destruct pre as [|e [|e' [|e'' pre]]]; cbn in Heq; try discriminate.
    + inversion Heq; subst. lia.
    + inversion Heq; subst. eapply IH; eauto.
Qed.

(** What follows a poll that returned a positive count: nothing or the
    next poll when POLLOUT is not set, the write when it is. *)
Lemma tx_trace_poll_next fd bufs fuel num es num' :
  tx_trace fd bufs fuel num es num' ->
  forall pre fd' n rev post,
    es = pre ++ EvPoll fd' n rev :: post -> 0 < n ->
    (Z.land rev POLLOUT = 0 ->
       post = [] \/ exists n' rev' post', post = EvPoll fd n' rev' :: post') /\
    (Z.land rev POLLOUT <> 0 ->
       exists m r post', post = EvWrite fd m r :: post').
Proof.
  induction 1 as [num|fuel num n0 rev0 Hn|fuel num n0 rev0 es num' Hn Hrev Htr IH
                 |fuel num n0 rev0 m r Hn Hrev Hm Hr
                 |fuel num n0 rev0 m r es num' Hn Hrev Hm Hr Htr IH];
    intros pre fd' n rev post Heq Hpos.
  - destruct pre; discriminate.
  - destruct pre as [|e [|e' pre]]; cbn in Heq; try discriminate.
    inversion Heq; subst. lia.
  - destruct pre as [|e pre]; cbn in Heq.
    + inversion Heq; subst. split; [intros _ | intros; lia].
      inversion Htr; subst; eauto.
    + inversion Heq; subst. eapply IH; eauto.
  - destruct pre as [|e [|e' [|e'' pre]]]; cbn in Heq; try discriminate.
    inversion Heq; subst. split; [intros; lia | eauto].
  - destruct pre as [|e [|e' [|e'' pre]]]; cbn in Heq; try discriminate.
    + inversion Heq; subst. split; [intros; lia | eauto].
    + inversion Heq; subst. eapply IH; eauto.
Qed.

(** A write that returned zero or less is the last event, and its buffer
    is the one at index [num']. *)
Lemma tx_trace_write_fail fd bufs fuel num es num' :
  tx_trace fd bufs fuel num es num' ->
  forall pre fd' m r post,
    es = pre ++ EvWrite fd' m r :: post -> r <= 0 ->
    post = [] /\ bufs !! num' = Some m.
Proof.
  induction 1 as [num|fuel num n0 rev0 Hn|fuel num n0 rev0 es num' Hn Hrev Htr IH
                 |fuel num n0 rev0 m0 r0 Hn Hrev Hm Hr
                 |fuel num n0 rev0 m0 r0 es num' Hn Hrev Hm Hr Htr IH];
    intros pre fd' m r post Heq Hle.
  - destruct pre; discriminate.
  - destruct pre as [|e [|e' pre]]; cbn in Heq; discriminate.
  - destruct pre as [|e pre]; cbn in Heq; [discriminate|].
    inversion Heq; subst. eapply IH; eauto.
  - destruct pre as [|e [|e' [|e'' pre]]]; cbn in Heq; try discriminate.
    inversion Heq; subst. now split.
  - destruct pre as [|e [|e' [|e'' pre]]]; cbn in Heq; try discriminate.
    + inversion Heq; subst. lia.
    + inversion Heq; subst. eapply IH; eauto.
Qed.

Lemma tx_trace_events fd bufs fuel num es num' :
  tx_trace fd bufs fuel num es num' -> Forall (tx_event fd) es.
Proof.
  induction 1; repeat constructor; cbn; auto.
Qed.

(** The burst in terms of the loop's record. *)
Lemma pmd_tx_burst_empty E txq bufs k :
  pmd_tx_burst E txq bufs 0 k = (0, txq, []).
Proof. reflexivity. Qed.

Lemma pmd_tx_burst_spec E txq bufs nb_pkts k :
  burst_args bufs nb_pkts -> nb_pkts <> 0 ->
  exists (sent : nat) es,
    pmd_tx_burst E txq bufs nb_pkts k
    = (Z.of_nat sent,
       {| tx_fd := tx_fd txq;
          tx_stats := add_tx_stats (tx_stats txq) (Z.of_nat sent) nb_pkts
                        (uint64 (sum_len (take sent bufs))) |}, es)
    /\ tx_trace (tx_fd txq) bufs (length bufs) 0 es sent.
Proof.
  intros [Hn Hmax] H0. unfold pmd_tx_burst.
  destruct (nb_pkts =? 0) eqn:Hz; [lia|].
  rewrite run_bind.
  destruct (tx_loop_sound E (tx_fd txq) bufs (length bufs) 0 0 k)
    as (sent & es & Heq & Htr); [lia | lia | lia |].
  subst nb_pkts. rewrite Nat2Z.id. change (Z.of_nat 0) with 0 in Heq.
  rewrite Heq. rewrite run_ret, app_nil_r.
  exists sent, es. split; [|exact Htr].
  destruct (tx_trace_sent _ _ _ _ _ _ Htr) as [_ Hw].
  rewrite Hw, Nat.sub_0_r, drop_0. reflexivity.
Qed.

(** ** TxEngine *)

Lemma pmd_tx_burst_cases E txq bufs nb_pkts k sent txq' es :
  burst_args bufs nb_pkts ->
  pmd_tx_burst E txq bufs nb_pkts k = (sent, txq', es) ->
  exists n : nat,
    sent = Z.of_nat n /\
    tx_trace (tx_fd txq) bufs (length bufs) 0 es n /\
    (nb_pkts <> 0 ->
     tx_stats txq' = add_tx_stats (tx_stats txq) sent nb_pkts
                       (uint64 (sum_len (take n bufs)))).
Proof.
  intros Hargs Heq. destruct (Z.eq_dec nb_pkts 0) as [H0|H0].
  - subst nb_pkts. rewrite pmd_tx_burst_empty in Heq. inversion Heq; subst.
    destruct Hargs as [Hl _]. exists 0%nat.
    assert (length bufs = 0%nat) as -> by lia.
    split; [reflexivity | split; [constructor | congruence]].
  - destruct (pmd_tx_burst_spec E txq bufs nb_pkts k Hargs H0)
      as (n & es0 & Hrun & Htr).
    rewrite Hrun in Heq. inversion Heq; subst. exists n. cbn. auto.
Qed.

(** A loop with an iteration left starts with a poll. *)
Lemma tx_trace_head fd bufs fuel num es num' :
  tx_trace fd bufs (S fuel) num es num' ->
  exists n rev rest, es = EvPoll fd n rev :: rest.
Proof. intros H. inversion H; subst; eauto. Qed.

(** After a poll that returned a positive count without POLLOUT the loop
    goes on: the next poll follows if an iteration is left, and nothing
    follows if none is. *)
Lemma tx_trace_idle_continues fd bufs fuel num es num' :
  tx_trace fd bufs fuel num es num' ->
  forall pre fd' n rev post,
    es = pre ++ EvPoll fd' n rev :: post ->
    0 < n -> Z.land rev POLLOUT = 0 ->
    ((S (length (polls pre)) < fuel)%nat ->
     exists n' rev' post', post = EvPoll fd n' rev' :: post') /\
    (S (length (polls pre)) = fuel -> post = []).
Proof.
  induction 1 as [num|fuel num n0 rev0 Hn|fuel num n0 rev0 es num' Hn Hrev Htr IH
                 |fuel num n0 rev0 m r Hn Hrev Hm Hr
                 |fuel num n0 rev0 m r es num' Hn Hrev Hm Hr Htr IH];
    intros pre fd' n rev post Heq Hpos Hidle.
  - destruct pre; discriminate.
  - destruct pre as [|e [|e' pre]]; cbn in Heq; try discriminate.
    inversion Heq; subst. lia.
  - destruct pre as [|e pre]; cbn in Heq.
    + inversion Heq; subst. cbn [polls omap list_omap length]. split.
      * intros Hlt. destruct fuel as [|fuel]; [lia |].
        destruct (tx_trace_head _ _ _ _ _ _ Htr) as (n' & rev' & rest & ->).
        eauto.
      * intros Hlast. assert (fuel = 0%nat) as -> by lia.
        now inversion Htr.
    + inversion Heq; subst.
      destruct (IH _ _ _ _ _ eq_refl Hpos Hidle) as [IH1 IH2].
      change (polls (EvPoll fd n0 rev0 :: pre))
        with ((n0, rev0) :: polls pre).
      cbn [length]. split; intros; [apply IH1 | apply IH2]; lia.
  - destruct pre as [|e [|e' [|e'' pre]]]; cbn in Heq; try discriminate.
    inversion Heq; subst. lia.
  - destruct pre as [|e [|e' [|e'' pre]]]; cbn in Heq; try discriminate.
    + inversion Heq; subst. lia.
    + inversion Heq; subst.
      destruct (IH _ _ _ _ _ eq_refl Hpos Hidle) as [IH1 IH2].
      change (polls (EvPoll fd n0 rev0 :: EvWrite fd m r :: EvFree m :: pre))
        with ((n0, rev0) :: polls pre).
      cbn [length]. split; intros; [apply IH1 | apply IH2]; lia.
Qed.

(** Every write comes straight after a poll that returned a positive
    count with POLLOUT. *)
Lemma tx_trace_write_after_ready fd bufs fuel num es num' :
  tx_trace fd bufs fuel num es num' ->
  forall pre fd' m r post,
    es = pre ++ EvWrite fd' m r :: post ->
    exists pre' n rev,
      pre = pre' ++ [EvPoll fd n rev] /\ 0 < n /\ Z.land rev POLLOUT <> 0.
Proof.
  induction 1 as [num|fuel num n0 rev0 Hn|fuel num n0 rev0 es num' Hn Hrev Htr IH
                 |fuel num n0 rev0 m0 r0 Hn Hrev Hm Hr
                 |fuel num n0 rev0 m0 r0 es num' Hn Hrev Hm Hr Htr IH];
    intros pre fd' m r post Heq.
  - destruct pre; discriminate.
  - destruct pre as [|e [|e' pre]]; cbn in Heq; discriminate.
  - destruct pre as [|e pre]; cbn in Heq; [discriminate |].
    inversion Heq; subst.
    destruct (IH _ _ _ _ _ eq_refl) as (pre' & n & rev & -> & Hp & Hr').
    exists (EvPoll fd n0 rev0 :: pre'), n, rev. now repeat split.
  - destruct pre as [|e [|e' [|e'' pre]]]; cbn in Heq; try discriminate.
    inversion Heq; subst. exists [], n0, rev0. now repeat split.
  - destruct pre as [|e [|e' [|e'' pre]]]; cbn in Heq; try discriminate.
    + inversion Heq; subst. exists [], n0, rev0. now repeat split.
    + inversion Heq; subst.
      destruct (IH _ _ _ _ _ eq_refl) as (pre' & n & rev & -> & Hp & Hr').
      exists (EvPoll fd n0 rev0 :: EvWrite fd m0 r0 :: EvFree m0 :: pre'),
        n, rev.
      now repeat split.
Qed.

(** The loop ends for one of three reasons only: every iteration has been
    used (one poll each), a poll returned zero or less, or a write
    returned zero or less. *)
Lemma tx_trace_end_reason fd bufs fuel num es num' :
  tx_trace fd bufs fuel num es num' ->
  length (polls es) = fuel \/
  (exists pre fd' n rev, es = pre ++ [EvPoll fd' n rev] /\ n <= 0) \/
  (exists pre fd' m r, es = pre ++ [EvWrite fd' m r] /\ r <= 0).
Proof.
  induction 1 as [num|fuel num n0 rev0 Hn|fuel num n0 rev0 es num' Hn Hrev Htr IH
                 |fuel num n0 rev0 m0 r0 Hn Hrev Hm Hr
                 |fuel num n0 rev0 m0 r0 es num' Hn Hrev Hm Hr Htr IH].
  - now left.
  - right; left. exists [], fd, n0, rev0. now split.
  - destruct IH as [IH|[(pre & fd' & n & rev & -> & Hle)
                       |(pre & fd' & m & r & -> & Hle)]].
    + left. change (polls (EvPoll fd n0 rev0 :: es))
        with ((n0, rev0) :: polls es). cbn [length]. lia.
    + right; left. exists (EvPoll fd n0 rev0 :: pre), fd', n, rev. now split.
    + right; right. exists (EvPoll fd n0 rev0 :: pre), fd', m, r. now split.
  - right; right. exists [EvPoll fd n0 rev0], fd, m0, r0. now split.
  - destruct IH as [IH|[(pre & fd' & n & rev & -> & Hle)
                       |(pre & fd' & m & r & -> & Hle)]].
    + left.
      change (polls (EvPoll fd n0 rev0 :: EvWrite fd m0 r0 :: EvFree m0 :: es))
        with ((n0, rev0) :: polls es). cbn [length]. lia.
    + right; left.
      exists (EvPoll fd n0 rev0 :: EvWrite fd m0 r0 :: EvFree m0 :: pre),
        fd', n, rev. now split.
    + right; right.
      exists (EvPoll fd n0 rev0 :: EvWrite fd m0 r0 :: EvFree m0 :: pre),
        fd', m, r. now split.
Qed.

(** C4 (as amended).  A poll that returns zero or less (not ready, or the
    check failed) ends the burst: nothing is polled, written or freed
    after it.  A poll that returns a positive count without POLLOUT does
    not end it: that iteration writes nothing and the loop goes on, so the
    next poll follows whenever an iteration is left, and nothing follows
    only when this was the last of the [nb_pkts] iterations.  A poll that
    reports POLLOUT is followed by the write, and every write comes
    straight after such a poll.  A burst issues at most one poll per
    requested frame, and it ends only when every iteration has been used,
    a poll returned zero or less, or a write returned zero or less. *)
Theorem pmd_tx_burst_poll_gate E txq bufs nb_pkts k sent txq' es :
  burst_args bufs nb_pkts ->
  pmd_tx_burst E txq bufs nb_pkts k = (sent, txq', es) ->
  (length (polls es) <= length bufs)%nat /\
  (forall pre fd n rev post,
     es = pre ++ EvPoll fd n rev :: post ->
     (n <= 0 -> post = []) /\
     (0 < n -> Z.land rev POLLOUT = 0 ->
        (Z.of_nat (length (polls pre)) + 1 < nb_pkts ->
         exists n' rev' post', post = EvPoll (tx_fd txq) n' rev' :: post') /\
        (Z.of_nat (length (polls pre)) + 1 = nb_pkts -> post = [])) /\
     (0 < n -> Z.land rev POLLOUT <> 0 ->
        exists m r post', post = EvWrite (tx_fd txq) m r :: post')) /\
  (forall pre fd m r post,
     es = pre ++ EvWrite fd m r :: post ->
     exists pre' n rev,
       pre = pre' ++ [EvPoll (tx_fd txq) n rev] /\
       0 < n /\ Z.land rev POLLOUT <> 0) /\
  (Z.of_nat (length (polls es)) = nb_pkts \/
   (exists pre fd n rev, es = pre ++ [EvPoll fd n rev] /\ n <= 0) \/
   (exists pre fd m r, es = pre ++ [EvWrite fd m r] /\ r <= 0)).
Proof.
  intros Hargs Heq.
  destruct (pmd_tx_burst_cases _ _ _ _ _ _ _ _ Hargs Heq) as (n0 & _ & Htr & _).
  destruct Hargs as [Hlen _].
  split; [eapply tx_trace_polls; eauto |].
  split; [| split].
  - intros pre fd n rev post Hes. split; [| split].
    + intros Hn. eapply tx_trace_poll_stop; eauto.
    + intros Hn Hrev.
      destruct (tx_trace_idle_continues _ _ _ _ _ _ Htr _ _ _ _ _ Hes Hn Hrev)
        as [H1 H2].
      split; intros Hiter; [apply H1 | apply H2]; lia.
    + intros Hn Hrev.
      destruct (tx_trace_poll_next _ _ _ _ _ _ Htr _ _ _ _ _ Hes Hn) as [_ H].
      auto.
  - intros pre fd m r post Hes.
    eapply tx_trace_write_after_ready; eauto.
  - destruct (tx_trace_end_reason _ _ _ _ _ _ Htr) as [H|[H|H]].
    + left. lia.
    + right; left. exact H.
    + right; right. exact H.
Qed.

Lemma pmd_tx_burst_poll_gate_witness :
  burst_args frames3 3 /\
  pmd_tx_burst E_burst (txq0 7) frames3 3 0%nat
  = (2, {| tx_fd := 7;
           tx_stats := {| opackets := 2; ipackets := 0; obytes := 300;
                          ibytes := 0; errs := 1 |} |},
     [] ++ EvPoll 7 1 POLLERR
        :: [EvPoll 7 1 POLLOUT; EvWrite 7 (frame 1 100) 100;
            EvFree (frame 1 100); EvPoll 7 1 POLLOUT;
            EvWrite 7 (frame 2 200) 5; EvFree (frame 2 200)]) /\
  0 < 1 /\ Z.land POLLERR POLLOUT = 0 /\
  Z.of_nat (length (polls [])) + 1 < 3 /\
  exists n' rev' post',
    [EvPoll 7 1 POLLOUT; EvWrite 7 (frame 1 100) 100; EvFree (frame 1 100);
     EvPoll 7 1 POLLOUT; EvWrite 7 (frame 2 200) 5; EvFree (frame 2 200)]
    = EvPoll (tx_fd (txq0 7)) n' rev' :: post'.
Proof.
  assert (burst_args frames3 3) as Hargs
    by (split; [reflexivity | unfold UINT16_MAX; lia]).
  assert (0 < 1) as H1 by lia.
  assert (Z.land POLLERR POLLOUT = 0) as Hidle by reflexivity.
  assert (Z.of_nat (length (polls [])) + 1 < 3) as Hleft by (cbn; lia).
  split; [exact Hargs | split; [reflexivity |]].
  split; [exact H1 | split; [exact Hidle | split; [exact Hleft |]]].
  destruct (pmd_tx_burst_poll_gate E_burst (txq0 7) frames3 3 0%nat _ _ _
              Hargs eq_refl) as (_ & Hpoll & _).
  destruct (Hpoll [] 7 1 POLLERR _ eq_refl) as (_ & Hgo & _).
  exact (proj1 (Hgo H1 Hidle) Hleft).
Defined.

(** C4, the claim as stated fails: after a poll that did not report the
    descriptor ready (positive return, POLLERR only) the loop polls again
    and writes. *)
Lemma pmd_tx_burst_continues_after_not_ready :
  snd (run (pmd_tx_burst E_burst (txq0 7) frames3 3))
  = [EvPoll 7 1 POLLERR; EvPoll 7 1 POLLOUT; EvWrite 7 (frame 1 100) 100;
     EvFree (frame 1 100); EvPoll 7 1 POLLOUT; EvWrite 7 (frame 2 200) 5;
     EvFree (frame 2 200)]
  /\ ~ stops_at_first_not_ready 7
         (snd (run (pmd_tx_burst E_burst (txq0 7) frames3 3))).
Proof.
  split; [reflexivity |].
  intros H.
  specialize (H [] 1 POLLERR _ eq_refl (or_intror eq_refl)).
  discriminate H.
Qed.

(** C5.  A burst of [nb_pkts > 0] frames returns [sent] with
    [0 <= sent <= nb_pkts] and adds [nb_pkts - sent] to the queue's error
    counter, in 64-bit arithmetic; as long as the counter does not
    overflow it grows by exactly [nb_pkts - sent].  How the unsent frames
    came to be unsent plays no part. *)
Theorem pmd_tx_burst_errors_charged E txq bufs nb_pkts k sent txq' es :
  burst_args bufs nb_pkts -> nb_pkts <> 0 ->
  pmd_tx_burst E txq bufs nb_pkts k = (sent, txq', es) ->
  0 <= sent <= nb_pkts /\
  errs (tx_stats txq') = uint64 (errs (tx_stats txq) + (nb_pkts - sent)) /\
  (0 <= errs (tx_stats txq) ->
   errs (tx_stats txq) + (nb_pkts - sent) < 2 ^ 64 ->
   errs (tx_stats txq') - errs (tx_stats txq) = nb_pkts - sent).
Proof.
  intros Hargs H0 Heq.
  destruct (pmd_tx_burst_cases _ _ _ _ _ _ _ _ Hargs Heq)
    as (n & -> & Htr & Hst).
  apply tx_trace_bounds in Htr. destruct Hargs as [Hl _].
  rewrite (Hst H0). cbn [errs add_tx_stats].
  split; [lia | split; [reflexivity |]].
  intros Hlo Hhi. rewrite uint64_small; lia.
Qed.

Lemma pmd_tx_burst_errors_charged_witness :
  burst_args frames3 3 /\ 3 <> 0 /\
  pmd_tx_burst E_burst (txq0 7) frames3 3 0%nat
  = (2, {| tx_fd := 7;
           tx_stats := {| opackets := 2; ipackets := 0; obytes := 300;
                          ibytes := 0; errs := 1 |} |},
     [EvPoll 7 1 POLLERR; EvPoll 7 1 POLLOUT; EvWrite 7 (frame 1 100) 100;
      EvFree (frame 1 100); EvPoll 7 1 POLLOUT; EvWrite 7 (frame 2 200) 5;
      EvFree (frame 2 200)]) /\
  0 <= 2 <= 3 /\ 1 = uint64 (0 + (3 - 2)).
Proof.
  assert (burst_args frames3 3) as Hargs
    by (split; [reflexivity | unfold UINT16_MAX; lia]).
  assert (3 <> 0) as H3 by lia.
  split; [exact Hargs | split; [exact H3 | split; [reflexivity |]]].
  destruct (pmd_tx_burst_errors_charged E_burst (txq0 7) frames3 3 0%nat
              _ _ _ Hargs H3 eq_refl) as (Hb & He & _).
  split; [exact Hb | exact He].
Defined.

(** C6.  A burst that returns [sent] releases exactly the buffers at
    indices below [sent], each once and in order.  It issues nothing but
    polls, writes and frees on the queue's descriptor, so no other buffer
    is touched except to be read by a write.  A write that yields zero or
    less is the last event of the burst and its buffer is the one at index
    [sent]: it is not freed.  When the caller's buffers are distinct, no
    buffer at index [sent] or above is among those released. *)
Theorem pmd_tx_burst_frees_sent_prefix E txq bufs nb_pkts k sent txq' es :
  burst_args bufs nb_pkts ->
  pmd_tx_burst E txq bufs nb_pkts k = (sent, txq', es) ->
  0 <= sent <= nb_pkts /\
  freed es = take (Z.to_nat sent) bufs /\
  Forall (tx_event (tx_fd txq)) es /\
  (forall pre fd m r post,
     es = pre ++ EvWrite fd m r :: post -> r <= 0 ->
     post = [] /\ bufs !! Z.to_nat sent = Some m) /\
  (NoDup bufs ->
   forall i m, (Z.to_nat sent <= i)%nat -> bufs !! i = Some m ->
               m ∉ freed es).
Proof.
  intros Hargs Heq.
  destruct (pmd_tx_burst_cases _ _ _ _ _ _ _ _ Hargs Heq)
    as (n & -> & Htr & _).
  rewrite Nat2Z.id.
  pose proof (tx_trace_bounds _ _ _ _ _ _ Htr) as Hb.
  destruct (tx_trace_sent _ _ _ _ _ _ Htr) as [Hf _].
  rewrite Nat.sub_0_r, drop_0 in Hf.
  destruct Hargs as [Hl _].
  split; [lia | split; [exact Hf | split; [| split]]].
  - eapply tx_trace_events; eauto.
  - intros pre fd m r post Hes Hr. eapply tx_trace_write_fail; eauto.
  - intros Hnd i m Hi Hm Hin. rewrite Hf in Hin.
    apply elem_of_take in Hin as (j & Hj & Hlt).
    pose proof (NoDup_lookup _ _ _ _ Hnd Hm Hj). lia.
Qed.

Lemma pmd_tx_burst_frees_sent_prefix_witness :
  burst_args frames2 2 /\
  pmd_tx_burst E_refused (txq0 7) frames2 2 0%nat
  = (1, {| tx_fd := 7;
           tx_stats := {| opackets := 1; ipackets := 0; obytes := 100;
                          ibytes := 0; errs := 1 |} |},
     [EvPoll 7 1 POLLOUT; EvWrite 7 (frame 1 100) 100; EvFree (frame 1 100);
      EvPoll 7 1 POLLOUT; EvWrite 7 (frame 2 200) (-1)]) /\
  freed [EvPoll 7 1 POLLOUT; EvWrite 7 (frame 1 100) 100; EvFree (frame 1 100);
         EvPoll 7 1 POLLOUT; EvWrite 7 (frame 2 200) (-1)]
  = take (Z.to_nat 1) frames2.
Proof.
  assert (burst_args frames2 2) as Hargs
    by (split; [reflexivity | unfold UINT16_MAX; lia]).
  split; [exact Hargs | split; [reflexivity |]].
  exact (proj1 (proj2 (pmd_tx_burst_frees_sent_prefix E_refused (txq0 7)
                         frames2 2 0%nat _ _ _ Hargs eq_refl))).
Defined.

(** C10.  The frames counted as sent are exactly those whose write
    returned a positive count, whatever that count is: [written] looks at
    the sign of the return value only.  The packet counter grows by their
    number and the byte counter by the sum of their declared [pkt_len],
    not by the counts the writes returned (64-bit arithmetic). *)
Theorem pmd_tx_burst_counts_declared_length E txq bufs nb_pkts k sent txq' es :
  burst_args bufs nb_pkts -> nb_pkts <> 0 ->
  pmd_tx_burst E txq bufs nb_pkts k = (sent, txq', es) ->
  written es = take (Z.to_nat sent) bufs /\
  sent = Z.of_nat (length (written es)) /\
  opackets (tx_stats txq') = uint64 (opackets (tx_stats txq) + sent) /\
  obytes (tx_stats txq')
  = uint64 (obytes (tx_stats txq) + sum_len (written es)).
Proof.
  intros Hargs H0 Heq.
  destruct (pmd_tx_burst_cases _ _ _ _ _ _ _ _ Hargs Heq)
    as (n & -> & Htr & Hst).
  rewrite Nat2Z.id.
  pose proof (tx_trace_bounds _ _ _ _ _ _ Htr) as Hb.
  destruct (tx_trace_sent _ _ _ _ _ _ Htr) as [_ Hw].
  rewrite Nat.sub_0_r, drop_0 in Hw.
  rewrite (Hst H0), Hw. cbn [opackets obytes add_tx_stats].
  rewrite length_take, uint64_add_r.
  split; [reflexivity | split; [lia | split; reflexivity]].
Qed.

Lemma pmd_tx_burst_counts_declared_length_witness :
  burst_args frames3 3 /\ 3 <> 0 /\
  pmd_tx_burst E_burst (txq0 7) frames3 3 0%nat
  = (2, {| tx_fd := 7;
           tx_stats := {| opackets := 2; ipackets := 0; obytes := 300;
                          ibytes := 0; errs := 1 |} |},
     [EvPoll 7 1 POLLERR; EvPoll 7 1 POLLOUT; EvWrite 7 (frame 1 100) 100;
      EvFree (frame 1 100); EvPoll 7 1 POLLOUT; EvWrite 7 (frame 2 200) 5;
      EvFree (frame 2 200)]) /\
  300 = uint64 (0 + sum_len [frame 1 100; frame 2 200]).
Proof.
  assert (burst_args frames3 3) as Hargs
    by (split; [reflexivity | unfold UINT16_MAX; lia]).
  assert (3 <> 0) as H3 by lia.
  split; [exact Hargs | split; [exact H3 | split; [reflexivity |]]].
  exact (proj2 (proj2 (proj2
           (pmd_tx_burst_counts_declared_length E_burst (txq0 7) frames3 3
              0%nat _ _ _ Hargs H3 eq_refl)))).
Defined.

(** ** RxEngine *)

Lemma sum_len_app l1 l2 : sum_len (l1 ++ l2) = sum_len l1 + sum_len l2.
Proof.
  induction l1 as [|m l1 IH]; cbn; [reflexivity |].
  unfold sum_len in *. cbn. rewrite IH. lia.
Qed.

Lemma rx_loop_spec E q fuel :
  forall bufs (num : nat) bytes k,
    Z.of_nat num + Z.of_nat fuel <= UINT16_MAX ->
    0 <= bytes < 2 ^ 64 ->
    exists new es,
      rx_loop E q fuel bufs (Z.of_nat num) bytes k
      = (bufs ++ new, Z.of_nat (num + length new),
         uint64 (bytes + sum_len new), es)
      /\ (length new <= fuel)%nat
      /\ Forall (fun m => 0 < pkt_len m /\ port m = in_port q) new.
Proof.
  induction fuel as [|fuel IH]; intros bufs num bytes k Hmax Hb.
  - exists [], []. cbn. rewrite run_ret, app_nil_r, Nat.add_0_r, Z.add_0_r,
      uint64_small by lia.
    split; [reflexivity | split; [lia | constructor]].
  - cbn [rx_loop]. mrun.
    destruct (pool_get E k) as [mbuf|].
    2:{ exists [], [EvAlloc None]. mrun. cbn.
        rewrite app_nil_r, Nat.add_0_r, Z.add_0_r, uint64_small by lia.
        split; [reflexivity | split; [lia | constructor]]. }
    mrun. set (len := to_int (sys_ret E (k + 1))).
    destruct (len <=? 0) eqn:Hlen.
    { exists [], [EvAlloc (Some mbuf); EvRead (rx_fd q) mbuf len; EvFree mbuf].
      mrun. cbn.
      rewrite app_nil_r, Nat.add_0_r, Z.add_0_r, uint64_small by lia.
      split; [reflexivity | split; [lia | constructor]]. }
    rewrite uint16_succ by lia.
    destruct (IH (bufs ++ [rx_fill mbuf len (in_port q)]) (S num)
                 (uint64 (bytes + pkt_len (rx_fill mbuf len (in_port q))))
                 (k + 1 + 1)%nat)
      as (new & es & Heq & Hn & Hall); [lia | apply uint64_range |].
    rewrite Heq.
    exists (rx_fill mbuf len (in_port q) :: new),
           (EvAlloc (Some mbuf) :: EvRead (rx_fd q) mbuf len :: es).
    split; [| split].
    + cbn [app length]. rewrite <- app_assoc. cbn [app].
      replace (S num + length new)%nat with (num + S (length new))%nat by lia.
      rewrite uint64_add_l. do 2 f_equal.
      unfold sum_len. cbn. f_equal. lia.
    + cbn. lia.
    + constructor; [| exact Hall]. split; [| reflexivity].
      cbn. unfold uint32, wrap.
      assert (0 < len) as Hpos by lia.
      apply to_int_pos in Hpos. rewrite Z.mod_small; lia.
Qed.

Lemma sum_len_nonneg l :
  Forall (fun m => 0 < pkt_len m) l -> 0 <= sum_len l.
Proof.
  induction 1 as [|m l Hm _ IH]; unfold sum_len in *; cbn; lia.
Qed.

(** C7.  A receive of at most [nb_pkts] frames returns [num_rx] frames
    with [0 <= num_rx <= nb_pkts]; no outcome is an error, an empty batch
    included.  The queue's packet counter grows by [num_rx] and its byte
    counter by the sum of the returned frames' lengths, in 64-bit
    arithmetic and exactly so as long as the counters do not overflow; the
    other counters and the queue's descriptor are left alone.  The loop
    itself does not touch the counters: the two sums are added once, after
    it. *)
Theorem pmd_rx_burst_counts E q nb_pkts k num_rx bufs q' es :
  0 <= nb_pkts <= UINT16_MAX ->
  pmd_rx_burst E q nb_pkts k = (num_rx, bufs, q', es) ->
  0 <= num_rx <= nb_pkts /\
  num_rx = Z.of_nat (length bufs) /\
  rx_stats q' = add_rx_stats (rx_stats q) num_rx (uint64 (sum_len bufs)) /\
  ipackets (rx_stats q') = uint64 (ipackets (rx_stats q) + num_rx) /\
  ibytes (rx_stats q') = uint64 (ibytes (rx_stats q) + sum_len bufs) /\
  (0 <= ipackets (rx_stats q) -> ipackets (rx_stats q) + num_rx < 2 ^ 64 ->
   ipackets (rx_stats q') - ipackets (rx_stats q) = num_rx) /\
  (0 <= ibytes (rx_stats q) -> ibytes (rx_stats q) + sum_len bufs < 2 ^ 64 ->
   ibytes (rx_stats q') - ibytes (rx_stats q) = sum_len bufs) /\
  rx_fd q' = rx_fd q.
Proof.
  intros Hn Heq. unfold pmd_rx_burst in Heq. rewrite run_bind in Heq.
  destruct (rx_loop_spec E q (Z.to_nat nb_pkts) [] 0 0 k)
    as (new & es0 & Hrun & Hlen & Hall); [lia | lia |].
  change (Z.of_nat 0) with 0 in Hrun. rewrite Hrun in Heq.
  rewrite run_ret in Heq. cbn [app Nat.add] in Heq.
  inversion Heq; subst; clear Heq. cbn [rx_stats rx_fd add_rx_stats ipackets ibytes].
  rewrite uint64_add_r.
  assert (0 <= sum_len bufs) as Hsum.
  { apply sum_len_nonneg. eapply Forall_impl; [exact Hall |].
    intros m [Hm _]. exact Hm. }
  repeat split; try lia.
  - intros Hlo Hhi. rewrite uint64_small; lia.
  - intros Hlo Hhi. rewrite uint64_small; lia.
Qed.

Lemma pmd_rx_burst_counts_witness :
  0 <= 4 <= UINT16_MAX /\
  pmd_rx_burst E_rx rxq0 4 0%nat
  = (1, [rx_fill (fresh_buf 1 2048) 60 2],
     {| rx_mp := rx_mp rxq0; in_port := 2; rx_fd := 7;
        rx_stats := {| opackets := 0; ipackets := 1; obytes := 0;
                       ibytes := 60; errs := 0 |} |},
     [EvAlloc (Some (fresh_buf 1 2048)); EvRead 7 (fresh_buf 1 2048) 60;
      EvAlloc (Some (fresh_buf 2 2048)); EvRead 7 (fresh_buf 2 2048) (-1);
      EvFree (fresh_buf 2 2048)]) /\
  0 <= 1 <= 4.
Proof.
  assert (0 <= 4 <= UINT16_MAX) as H4 by (unfold UINT16_MAX; lia).
  split; [exact H4 | split; [reflexivity |]].
  exact (proj1 (pmd_rx_burst_counts E_rx rxq0 4 0%nat _ _ _ _ H4 eq_refl)).
Defined.

(** ** ChannelFactory *)

Lemma tun_queue_mode_cases max_queues features :
  (tun_queue_mode max_queues features = None
   <-> ~ supports_multiqueue features /\ 1 < max_queues) /\
  (tun_queue_mode max_queues features = Some IFF_ONE_QUEUE
   <-> restricts_one_queue features /\ max_queues = 1) /\
  (tun_queue_mode max_queues features = Some IFF_MULTI_QUEUE
   <-> (supports_multiqueue features \/ max_queues <= 1) /\
       ~ (restricts_one_queue features /\ max_queues = 1)).
Proof.
  unfold tun_queue_mode, supports_multiqueue, restricts_one_queue.
  destruct (Z.land features IFF_MULTI_QUEUE =? 0) eqn:Hm;
    destruct (1 <? max_queues) eqn:H1;
    destruct (Z.land features IFF_ONE_QUEUE =? 0) eqn:Ho;
    destruct (max_queues =? 1) eqn:He; cbn;
    (repeat split; intros; try discriminate; try lia;
     try (intros [? ?]; lia)).
Qed.

(** What [tun_alloc] does once the channel is open and its features are
    read, by multiqueue support. *)
Lemma tun_alloc_after_features E k :
  let fd := sys_ret E k in
  let r := sys_ret E (k + 1) in
  let features := sys_out E (k + 1) in
  0 <= fd -> 0 <= r ->
  (~ supports_multiqueue features ->
   tun_alloc E k
   = (-1, [EvOpen fd; EvIoctl fd TUNGETFEATURES r]
          ++ (if 0 <? fd then [EvClose fd] else []))) /\
  (supports_multiqueue features ->
   exists ret es,
     tun_alloc E k
     = (ret, EvOpen fd :: EvIoctl fd TUNGETFEATURES r
             :: EvIoctl fd (TUNSETIFF IFR_MULTI) (sys_ret E (k + 1 + 1))
             :: es)).
Proof.
  intros fd r features Hfd Hr. subst fd r features. split.
  - intros Hno. unfold tun_alloc. mrun.
    destruct (sys_ret E k <? 0) eqn:Hfd'; [lia |]. mrun.
    destruct (sys_ret E (k + 1) <? 0) eqn:Hr'; [lia |].
    destruct (tun_queue_mode_cases RTE_PMD_TAP_MAX_QUEUES (sys_out E (k + 1)))
      as [[_ Hnone] _].
    rewrite Hnone by (split; [exact Hno | unfold RTE_PMD_TAP_MAX_QUEUES; lia]).
    unfold tun_alloc_error. mrun.
    destruct (0 <? sys_ret E k); mrun; reflexivity.
  - intros Hyes. unfold tun_alloc. mrun.
    destruct (sys_ret E k <? 0) eqn:Hfd'; [lia |]. mrun.
    destruct (sys_ret E (k + 1) <? 0) eqn:Hr'; [lia |].
    destruct (tun_queue_mode_cases RTE_PMD_TAP_MAX_QUEUES (sys_out E (k + 1)))
      as (_ & _ & [_ Hmulti]).
    rewrite Hmulti
      by (split; [now left | unfold RTE_PMD_TAP_MAX_QUEUES; lia]).
    mrun.
    destruct (sys_ret E (k + 1 + 1) <? 0).
    { unfold tun_alloc_error. mrun.
      destruct (0 <? sys_ret E k); mrun; eauto. }
    mrun. destruct (sys_ret E (k + 1 + 1 + 1) <? 0).
    { unfold tun_alloc_error. mrun.
      destruct (0 <? sys_ret E k); mrun; eauto. }
    mrun. eauto.
Qed.

(** Above a maximum of 1 the feature test is the stated policy. *)
Lemma tun_queue_mode_as_stated max_queues features :
  1 < max_queues ->
  tun_queue_mode max_queues features
  = mode_policy_as_stated max_queues features.
Proof.
  intros Hmax. unfold tun_queue_mode, mode_policy_as_stated.
  destruct (Z.land features IFF_MULTI_QUEUE =? 0);
    destruct (1 <? max_queues) eqn:H1; try lia;
    destruct (Z.land features IFF_ONE_QUEUE =? 0);
    destruct (max_queues =? 1) eqn:He; try lia; reflexivity.
Qed.

(** C2.  Once the channel is open and its features are read, the mode
    [tun_alloc] asks the kernel for is the one the stated policy gives for
    the driver's maximum queue count: it requests multiqueue mode exactly
    when the backend supports multiqueue and the maximum is greater than
    1, single-queue mode exactly when the backend restricts to one queue
    and the maximum is exactly 1, and in every other combination it
    requests no mode at all and returns -1 at once, closing the
    descriptor: there is no fallback.  The driver is built with a maximum
    of 16; the feature test agrees with the stated policy for every
    maximum above 1. *)
Theorem tun_alloc_queue_mode E k :
  let fd := sys_ret E k in
  let r := sys_ret E (k + 1) in
  let features := sys_out E (k + 1) in
  0 <= fd -> 0 <= r ->
  requested_mode (snd (tun_alloc E k))
  = Z.lor (Z.lor IFF_TAP IFF_NO_PI)
      <$> mode_policy_as_stated RTE_PMD_TAP_MAX_QUEUES features /\
  (requested_mode (snd (tun_alloc E k)) = Some IFR_MULTI
   <-> supports_multiqueue features /\ 1 < RTE_PMD_TAP_MAX_QUEUES) /\
  (requested_mode (snd (tun_alloc E k)) = Some IFR_ONE
   <-> restricts_one_queue features /\ RTE_PMD_TAP_MAX_QUEUES = 1) /\
  (~ (supports_multiqueue features /\ 1 < RTE_PMD_TAP_MAX_QUEUES) ->
   ~ (restricts_one_queue features /\ RTE_PMD_TAP_MAX_QUEUES = 1) ->
   tun_alloc E k
   = (-1, [EvOpen fd; EvIoctl fd TUNGETFEATURES r]
          ++ (if 0 <? fd then [EvClose fd] else [])) /\
   requested_mode (snd (tun_alloc E k)) = None) /\
  (forall max_queues,
     1 < max_queues ->
     tun_queue_mode max_queues features
     = mode_policy_as_stated max_queues features).
Proof.
  intros fd r features Hfd Hr.
  destruct (tun_alloc_after_features E k Hfd Hr) as [Hno Hyes].
  fold fd r features in Hno, Hyes.
  assert (IFR_MULTI <> IFR_ONE) as Hflags by discriminate.
  assert (1 < RTE_PMD_TAP_MAX_QUEUES) as Hmax
    by (unfold RTE_PMD_TAP_MAX_QUEUES; lia).
  assert (mode_policy_as_stated RTE_PMD_TAP_MAX_QUEUES features
          = if Z.land features IFF_MULTI_QUEUE =? 0
            then None else Some IFF_MULTI_QUEUE) as Hpol.
  { unfold mode_policy_as_stated.
    destruct (Z.land features IFF_MULTI_QUEUE =? 0);
      destruct (Z.land features IFF_ONE_QUEUE =? 0); reflexivity. }
  rewrite Hpol.
  destruct (Z.eq_dec (Z.land features IFF_MULTI_QUEUE) 0) as [Hz|Hnz].
  - assert (~ supports_multiqueue features) as Hn
      by (unfold supports_multiqueue; lia).
    specialize (Hno Hn).
    assert (requested_mode (snd (tun_alloc E k)) = None) as Hreq.
    { rewrite Hno. cbn [snd]. destruct (0 <? fd); reflexivity. }
    rewrite Hreq.
    assert ((Z.land features IFF_MULTI_QUEUE =? 0) = true) as -> by lia.
    split; [reflexivity |].
    split; [split; [discriminate | intros [H _]; contradiction] |].
    split; [split; [discriminate
                   | intros [_ H]; unfold RTE_PMD_TAP_MAX_QUEUES in H; lia] |].
    split; [intros _ _; split; [exact Hno | reflexivity] |].
    intros; now apply tun_queue_mode_as_stated.
  - assert (supports_multiqueue features) as Hy
      by (unfold supports_multiqueue; lia).
    destruct (Hyes Hy) as (ret & es & Hrun).
    assert (requested_mode (snd (tun_alloc E k)) = Some IFR_MULTI) as Hreq
      by (rewrite Hrun; reflexivity).
    rewrite Hreq.
    assert ((Z.land features IFF_MULTI_QUEUE =? 0) = false) as -> by lia.
    split; [reflexivity |].
    split; [split; [intros _; now split | reflexivity] |].
    split; [split; [intros H; inversion H; congruence
                   | intros [_ H]; unfold RTE_PMD_TAP_MAX_QUEUES in H; lia] |].
    split; [intros Hc; exfalso; apply Hc; now split |].
    intros; now apply tun_queue_mode_as_stated.
Qed.

Lemma tun_alloc_queue_mode_witness :
  0 <= sys_ret E_create 0 /\ 0 <= sys_ret E_create (0 + 1) /\
  requested_mode (snd (tun_alloc E_create 0%nat)) = Some IFR_MULTI /\
  requested_mode (snd (tun_alloc E_create 0%nat))
  = Z.lor (Z.lor IFF_TAP IFF_NO_PI)
      <$> mode_policy_as_stated RTE_PMD_TAP_MAX_QUEUES
            (sys_out E_create (0 + 1)).
Proof.
  assert (0 <= sys_ret E_create 0) as H0 by (change (0 <= 3); lia).
  assert (0 <= sys_ret E_create (0 + 1)) as H1 by (change (0 <= 0); lia).
  split; [exact H0 | split; [exact H1 | split; [reflexivity |]]].
  exact (proj1 (tun_alloc_queue_mode E_create 0%nat H0 H1)).
Defined.

(** ** QueueFdRegistry *)

(** [tun_alloc] calls [open] once and returns -1 or a descriptor. *)
Lemma tun_alloc_result E k :
  exists fd es,
    tun_alloc E k = (fd, es) /\ (fd = -1 \/ 0 <= fd) /\
    length (opens es) = 1%nat.
Proof.
  unfold tun_alloc, tun_alloc_error. mrun.
  destruct (sys_ret E k <? 0) eqn:H1; mrun.
  { destruct (0 <? sys_ret E k) eqn:H2; [lia |]. mrun.
    eexists _, _. split; [reflexivity |]. split; [now left | reflexivity]. }
  destruct (sys_ret E (k + 1) <? 0); mrun.
  { destruct (0 <? sys_ret E k); mrun;
      (eexists _, _; split; [reflexivity |]; split; [now left | reflexivity]). }
  destruct (tun_queue_mode RTE_PMD_TAP_MAX_QUEUES (sys_out E (k + 1))); mrun.
  2:{ destruct (0 <? sys_ret E k); mrun;
      (eexists _, _; split; [reflexivity |]; split; [now left | reflexivity]). }
  destruct (sys_ret E (k + 1 + 1) <? 0); mrun.
  { destruct (0 <? sys_ret E k); mrun;
      (eexists _, _; split; [reflexivity |]; split; [now left | reflexivity]). }
  destruct (sys_ret E (k + 1 + 1 + 1) <? 0); mrun.
  { destruct (0 <? sys_ret E k); mrun;
      (eexists _, _; split; [reflexivity |]; split; [now left | reflexivity]). }
  eexists _, _. split; [reflexivity |]. split; [right; lia | reflexivity].
Qed.

Lemma install_fd_rxq pmd i fd rx :
  rxq pmd !! i = Some rx -> rxq_fd (install_fd pmd i fd) i = Some fd.
Proof.
  intros H. unfold rxq_fd, install_fd. cbn [rxq].
  now rewrite list_lookup_alter_eq, H.
Qed.

Lemma install_fd_txq pmd i fd tx :
  txq pmd !! i = Some tx -> txq_fd (install_fd pmd i fd) i = Some fd.
Proof.
  intros H. unfold txq_fd, install_fd. cbn [txq].
  now rewrite list_lookup_alter_eq, H.
Qed.

(** A setup that does not return -1 leaves the same valid descriptor in
    both slots and has called [open] at most once. *)
Lemma tap_setup_queue_spec E pmd qid k fd pmd' es :
  tap_setup_queue E pmd qid k = (fd, pmd', es) ->
  fd <> -1 ->
  0 <= fd /\ rxq_fd pmd' qid = Some fd /\ txq_fd pmd' qid = Some fd /\
  (length (opens es) <= 1)%nat /\
  nb_queues pmd' = nb_queues pmd /\ fds pmd' = fds pmd.
Proof.
  unfold tap_setup_queue. intros Heq Hfd.
  destruct (rxq pmd !! qid) as [rx|] eqn:Hrx;
    [| rewrite run_ret in Heq; inversion Heq; subst; lia].
  destruct (txq pmd !! qid) as [tx|] eqn:Htx;
    [| rewrite run_ret in Heq; inversion Heq; subst; lia].
  destruct (rx_fd rx <? 0) eqn:Hr.
  - destruct (tx_fd tx <? 0) eqn:Ht.
    + rewrite run_bind in Heq.
      destruct (tun_alloc_result E k) as (fd0 & es0 & Hrun & Hres & Hop).
      rewrite Hrun in Heq.
      destruct (fd0 <? 0) eqn:Hneg; rewrite run_ret in Heq;
        inversion Heq; subst; [lia |].
      rewrite app_nil_r, Hop.
      repeat split; eauto using install_fd_rxq, install_fd_txq; lia.
    + rewrite run_ret in Heq; inversion Heq; subst. cbn.
      repeat split; eauto using install_fd_rxq, install_fd_txq; lia.
  - rewrite run_ret in Heq; inversion Heq; subst. cbn.
    repeat split; eauto using install_fd_rxq, install_fd_txq; lia.
Qed.

(** With a valid descriptor in the RX slot, a setup reuses it and makes
    no external call. *)
Lemma tap_setup_queue_reuse E pmd qid k fd :
  rxq_fd pmd qid = Some fd -> txq_fd pmd qid = Some fd -> 0 <= fd ->
  exists pmd',
    tap_setup_queue E pmd qid k = (fd, pmd', []) /\
    rxq_fd pmd' qid = Some fd /\ txq_fd pmd' qid = Some fd /\
    nb_queues pmd' = nb_queues pmd /\ fds pmd' = fds pmd.
Proof.
  unfold rxq_fd, txq_fd, tap_setup_queue. intros Hrx Htx Hfd.
  destruct (rxq pmd !! qid) as [rx|] eqn:Hr; [| discriminate].
  destruct (txq pmd !! qid) as [tx|] eqn:Ht; [| discriminate].
  cbn in Hrx, Htx. inversion Hrx as [Hrx']. inversion Htx as [Htx'].
  destruct (rx_fd rx <? 0) eqn:Hneg; [lia |].
  rewrite run_ret. eexists. split; [rewrite Hrx'; reflexivity |].
  rewrite Hrx'.
  repeat split; eauto using install_fd_rxq, install_fd_txq.
Qed.

Lemma queue_setup_success E headroom dev i h k dev1 es :
  queue_setup E headroom dev i h k = (0, dev1, es) ->
  exists fd,
    0 <= fd /\
    rxq_fd (dev_private dev1) i = Some fd /\
    txq_fd (dev_private dev1) i = Some fd /\
    (length (opens es) <= 1)%nat.
Proof.
  destruct h as [mp|]; cbn [queue_setup].
  - unfold tap_rx_queue_setup. destruct mp as [pool|];
      [| rewrite run_ret; intros H; inversion H].
    destruct (nb_queues (dev_private dev) <=? i)%nat;
      [rewrite run_ret; intros H; inversion H |].
    destruct (uint16 (data_room_size pool - headroom) <? ETH_FRAME_LEN);
      [rewrite run_ret; intros H; inversion H |].
    rewrite run_bind.
    match goal with |- context [tap_setup_queue E ?p i k] =>
      destruct (tap_setup_queue E p i k) as [[fd pmd2] es0] eqn:Hs end.
    destruct (fd =? -1) eqn:Hfd; rewrite run_ret; intros H; inversion H; subst.
    apply tap_setup_queue_spec in Hs; [| lia].
    destruct Hs as (Hpos & Hrx & Htx & Hop & _).
    exists fd. rewrite app_nil_r. repeat split; assumption.
  - unfold tap_tx_queue_setup.
    destruct (nb_queues (dev_private dev) <=? i)%nat;
      [rewrite run_ret; intros H; inversion H |].
    rewrite run_bind.
    destruct (tap_setup_queue E (dev_private dev) i k)
      as [[fd pmd2] es0] eqn:Hs.
    destruct (fd =? -1) eqn:Hfd; rewrite run_ret; intros H; inversion H; subst.
    apply tap_setup_queue_spec in Hs; [| lia].
    destruct Hs as (Hpos & Hrx & Htx & Hop & _).
    exists fd. rewrite app_nil_r. repeat split; assumption.
Qed.

Lemma set_rx_pool_rxq_fd (l : list rx_queue) mp p i j :
  rx_fd <$> alter (set_rx_pool mp p) i l !! j = rx_fd <$> l !! j.
Proof.
  destruct (decide (i = j)) as [->|Hne].
  - rewrite list_lookup_alter_eq. now destruct (l !! j).
  - now rewrite list_lookup_alter_ne.
Qed.

(** Once both slots of queue [i] hold a valid descriptor, a further setup
    of either half makes no external call and leaves it there. *)
Lemma queue_setup_assigned E headroom dev i h k fd :
  rxq_fd (dev_private dev) i = Some fd ->
  txq_fd (dev_private dev) i = Some fd -> 0 <= fd ->
  exists r dev2,
    queue_setup E headroom dev i h k = (r, dev2, []) /\
    rxq_fd (dev_private dev2) i = Some fd /\
    txq_fd (dev_private dev2) i = Some fd.
Proof.
  intros Hrx Htx Hfd. destruct h as [mp|]; cbn [queue_setup].
  - unfold tap_rx_queue_setup. destruct mp as [pool|];
      [| rewrite run_ret; eauto].
    destruct (nb_queues (dev_private dev) <=? i)%nat;
      [rewrite run_ret; eauto |].
    set (internals1 := {| nb_queues := _ |}).
    assert (rxq_fd internals1 i = Some fd) as Hrx1.
    { unfold rxq_fd, internals1. cbn [rxq].
      rewrite set_rx_pool_rxq_fd. exact Hrx. }
    assert (txq_fd internals1 i = Some fd) as Htx1 by exact Htx.
    destruct (uint16 (data_room_size pool - headroom) <? ETH_FRAME_LEN).
    { rewrite run_ret. eexists _, _. split; [reflexivity |]. now split. }
    rewrite run_bind.
    destruct (tap_setup_queue_reuse E internals1 i k fd Hrx1 Htx1 Hfd)
      as (pmd' & Hrun & Hrx' & Htx' & _).
    rewrite Hrun. destruct (fd =? -1) eqn:Hm; [lia |].
    rewrite run_ret. eexists _, _. split; [reflexivity |]. now split.
  - unfold tap_tx_queue_setup.
    destruct (nb_queues (dev_private dev) <=? i)%nat;
      [rewrite run_ret; eauto |].
    rewrite run_bind.
    destruct (tap_setup_queue_reuse E (dev_private dev) i k fd Hrx Htx Hfd)
      as (pmd' & Hrun & Hrx' & Htx' & _).
    rewrite Hrun. destruct (fd =? -1) eqn:Hm; [lia |].
    rewrite run_ret. eexists _, _. split; [reflexivity |]. now split.
Qed.

(** C8.  When a setup of either half of queue [i] succeeds, the RX and TX
    slots of [i] hold one and the same valid descriptor, and the setup has
    opened at most one channel.  Any further setup of [i], of the other
    half or of the same one, in any environment, opens nothing (it makes
    no external call at all) and leaves that descriptor in both slots: so
    RX-first and TX-first both end with a single channel for queue [i]. *)
Theorem queue_setup_shares_descriptor E headroom dev i first k r dev1 es1 :
  queue_setup E headroom dev i first k = (r, dev1, es1) ->
  r = 0 ->
  exists fd,
    0 <= fd /\
    rxq_fd (dev_private dev1) i = Some fd /\
    txq_fd (dev_private dev1) i = Some fd /\
    (length (opens es1) <= 1)%nat /\
    forall E' second k',
    exists r' dev2,
      queue_setup E' headroom dev1 i second k' = (r', dev2, []) /\
      rxq_fd (dev_private dev2) i = Some fd /\
      txq_fd (dev_private dev2) i = Some fd.
Proof.
  intros Hrun ->.
  destruct (queue_setup_success _ _ _ _ _ _ _ _ Hrun)
    as (fd & Hfd & Hrx & Htx & Hop).
  exists fd. repeat split; try assumption.
  intros E' second k'. now apply queue_setup_assigned.
Qed.

Lemma queue_setup_shares_descriptor_witness :
  queue_setup E_create 128 dev_created 1 SetupTx 6%nat
  = (0, dev_tx1, tx1_events) /\
  exists fd,
    0 <= fd /\
    rxq_fd (dev_private dev_tx1) 1 = Some fd /\
    txq_fd (dev_private dev_tx1) 1 = Some fd /\
    (length (opens tx1_events) <= 1)%nat /\
    forall E' second k',
    exists r' dev2,
      queue_setup E' 128 dev_tx1 1 second k' = (r', dev2, []) /\
      rxq_fd (dev_private dev2) 1 = Some fd /\
      txq_fd (dev_private dev2) 1 = Some fd.
Proof.
  split; [reflexivity |].
  exact (queue_setup_shares_descriptor E_create 128 dev_created 1%nat SetupTx
           6%nat 0 dev_tx1 tx1_events eq_refl eq_refl).
Defined.

(** ** DeviceLifecycle *)

(** The close loop closes the assigned slots among the [fuel] slots from
    [start] on, in order, and does nothing else. *)
Lemma close_loop_events internals fuel :
  forall start k,
    for_each (close_slot internals) start fuel k
    = (tt, EvClose <$> filter assigned (take fuel (drop start (fds internals)))).
Proof.
  induction fuel as [|fuel IH]; intros start k.
  - reflexivity.
  - cbn [for_each]. rewrite run_bind. unfold close_slot at 1.
    destruct (fds internals !! start) as [fd|] eqn:Hfd.
    + rewrite (drop_S _ _ _ Hfd). cbn [take]. rewrite filter_cons.
      destruct (fd =? -1) eqn:Hm.
      * rewrite run_ret, IH. destruct (decide (assigned fd)) as [Ha|Ha].
        { unfold assigned in Ha. lia. }
        reflexivity.
      * cbn [sys_close call]. rewrite IH.
        destruct (decide (assigned fd)) as [Ha|Ha].
        { reflexivity. }
        unfold assigned in Ha. lia.
    + rewrite run_ret, IH.
      apply lookup_ge_None in Hfd.
      rewrite !drop_ge by lia. now destruct fuel.
Qed.

(** Stop closes the assigned slots of [fds] and sets the link down; it
    writes to no slot. *)
Lemma tap_dev_stop_events dev k :
  tap_dev_stop dev k
  = (with_link dev ETH_LINK_DOWN,
     EvClose <$> filter assigned
                   (take (nb_queues (dev_private dev))
                         (fds (dev_private dev)))).
Proof.
  unfold tap_dev_stop. rewrite run_bind, close_loop_events, drop_0.
  rewrite run_ret, app_nil_r. reflexivity.
Qed.

(** C1, evaluated on the device [eth_dev_tap_create] builds in
    [E_create]: the first stop closes descriptor 3 and leaves it in slot
    0 of [fds] (and in the RX and TX slots), so the second stop closes
    descriptor 3 once more.  On every device a second stop repeats the
    close calls of the first, and the slots are as they were. *)
Theorem tap_dev_stop_twice_closes_again :
  run (eth_dev_tap_create E_create 0) = (Some dev_created, created_events) /\
  tap_dev_stop dev_created 6%nat = (dev_created, [EvClose 3]) /\
  fds (dev_private dev_created) !! 0%nat = Some 3 /\
  rxq_fd (dev_private dev_created) 0 = Some 3 /\
  txq_fd (dev_private dev_created) 0 = Some 3 /\
  tap_dev_stop dev_created 7%nat = (dev_created, [EvClose 3]) /\
  forall dev k k',
    dev_private (fst (tap_dev_stop dev k)) = dev_private dev /\
    snd (tap_dev_stop (fst (tap_dev_stop dev k)) k') = snd (tap_dev_stop dev k).
Proof.
  repeat split; rewrite !tap_dev_stop_events; reflexivity.
Qed.

(** C3, evaluated on the same device after the TX half of queue 1 has
    been set up first: the setup opens descriptor 4 and installs it in the
    RX and TX slots of queue 1 but not in [fds]; stop, and likewise
    remove, close descriptor 3 only, and descriptor 4 stays open.  Had the
    RX half been set up instead, slot 1 of [fds] would hold descriptor 4
    and stop would close both. *)
Theorem tap_dev_stop_leaves_tx_descriptor_open :
  run (eth_dev_tap_create E_create 0) = (Some dev_created, created_events) /\
  tap_tx_queue_setup E_create dev_created 1 6%nat = (0, dev_tx1, tx1_events) /\
  txq_fd (dev_private dev_tx1) 1 = Some 4 /\
  fds (dev_private dev_tx1) !! 1%nat = Some (-1) /\
  tap_dev_stop dev_tx1 10%nat = (dev_tx1, [EvClose 3]) /\
  rte_pmd_tap_remove (Some dev_tx1) 10%nat = (0, [EvClose 3]) /\
  still_open (created_events ++ tx1_events ++ [EvClose 3]) = [4] /\
  snd (tap_dev_stop
         (snd (fst (tap_rx_queue_setup E_create 128 dev_created 1
                      (Some pool0) 6%nat))) 10%nat)
  = [EvClose 3; EvClose 4].
Proof. repeat split. Qed.

(** ** StatsAggregator *)

Lemma for_range_S {S : Type} n (body : nat -> S -> S) s :
  for_range (Datatypes.S n) body s = body n (for_range n body s).
Proof.
  unfold for_range. rewrite seq_S, fold_left_app. reflexivity.
Qed.

Lemma reset_loop_lookup_gen {A} (f : A -> A) n (l : list A) j :
  for_range n (fun i => alter f i) l !! j
  = if decide (j < n)%nat then f <$> l !! j else l !! j.
Proof.
  induction n as [|n IH].
  - destruct (decide (j < 0)%nat); [lia | reflexivity].
  - rewrite for_range_S, list_lookup_alter.
    destruct (decide (n = j)) as [->|Hne].
    + rewrite IH.
      destruct (decide (j < j)%nat); [lia |].
      destruct (decide (j < S j)%nat); [reflexivity | lia].
    + rewrite IH.
      destruct (decide (j < n)%nat); destruct (decide (j < S n)%nat);
        try reflexivity; lia.
Qed.

Lemma reset_loop_lookup {A} (f : A -> A) n (l : list A) j :
  (j < n)%nat ->
  for_range n (fun i => alter f i) l !! j = f <$> l !! j.
Proof.
  intros Hj. rewrite reset_loop_lookup_gen.
  destruct (decide (j < n)%nat); [reflexivity | lia].
Qed.

Lemma tap_stats_reset_zeroes dev i :
  wf_internals (dev_private dev) ->
  (i < nb_queues (dev_private dev))%nat ->
  rx_zeroed (dev_private (tap_stats_reset dev)) i /\
  tx_zeroed (dev_private (tap_stats_reset dev)) i.
Proof.
  intros (_ & Hrx & Htx) Hi. unfold rx_zeroed, tx_zeroed, tap_stats_reset.
  cbn [dev_private with_private rxq txq].
  rewrite !reset_loop_lookup by exact Hi.
  destruct (lookup_lt_is_Some_2 (rxq (dev_private dev)) i) as [rq Hrq]; [lia |].
  destruct (lookup_lt_is_Some_2 (txq (dev_private dev)) i) as [tq Htq]; [lia |].
  rewrite Hrq, Htq. split; eexists; (split; [reflexivity |]); cbn; auto.
Qed.

Lemma uint64_0 : uint64 (0 + 0) = 0.
Proof. reflexivity. Qed.

Lemma rd_insert (l : list Z) i v : (i < length l)%nat -> rd (<[i:=v]> l) i = v.
Proof.
  intros H. unfold rd. now rewrite list_lookup_insert_eq.
Qed.

Lemma zero_upto_insert n (l : list Z) :
  (n < length l)%nat -> zero_upto n l -> zero_upto (S n) (<[n:=0]> l).
Proof.
  intros Hn Hz i Hi. destruct (decide (n = i)) as [->|Hne].
  - now apply list_lookup_insert_eq.
  - rewrite list_lookup_insert_ne by exact Hne. apply Hz. lia.
Qed.

(** The RX loop of [tap_stats_get] over zeroed queues. *)
Lemma stats_get_rx_zero pmd st n :
  (forall i, (i < n)%nat -> rx_zeroed pmd i) ->
  (n <= length (q_ipackets st))%nat -> (n <= length (q_ibytes st))%nat ->
  exists st',
    for_range n (stats_get_rx pmd) (st, 0, 0) = (st', 0, 0) /\
    zero_upto n (q_ipackets st') /\ zero_upto n (q_ibytes st') /\
    length (q_ipackets st') = length (q_ipackets st) /\
    length (q_ibytes st') = length (q_ibytes st) /\
    q_opackets st' = q_opackets st /\ q_obytes st' = q_obytes st /\
    q_errors st' = q_errors st.
Proof.
  induction n as [|n IH]; intros Hz Hl1 Hl2.
  - exists st. repeat split; intros i Hi; lia.
  - destruct IH as (st1 & Hrun & Hz1 & Hz2 & Hlen1 & Hlen2 & Ho & Hb & He);
      [intros; apply Hz; lia | lia | lia |].
    destruct (Hz n) as (q & Hq & Hip & Hib); [lia |].
    rewrite for_range_S, Hrun. unfold stats_get_rx. rewrite Hq, Hip, Hib.
    rewrite !rd_insert by lia. rewrite uint64_0.
    eexists. split; [reflexivity |]. cbn.
    rewrite !length_insert.
    repeat split; try assumption; apply zero_upto_insert; auto; lia.
Qed.

(** The TX loop of [tap_stats_get] over zeroed queues. *)
Lemma stats_get_tx_zero pmd st n :
  (forall i, (i < n)%nat -> tx_zeroed pmd i) ->
  (n <= length (q_opackets st))%nat -> (n <= length (q_obytes st))%nat ->
  (n <= length (q_errors st))%nat ->
  exists st',
    for_range n (stats_get_tx pmd) (st, 0, 0, 0) = (st', 0, 0, 0) /\
    zero_upto n (q_opackets st') /\ zero_upto n (q_obytes st') /\
    zero_upto n (q_errors st') /\
    length (q_opackets st') = length (q_opackets st) /\
    length (q_obytes st') = length (q_obytes st) /\
    length (q_errors st') = length (q_errors st) /\
    q_ipackets st' = q_ipackets st /\ q_ibytes st' = q_ibytes st.
Proof.
  induction n as [|n IH]; intros Hz Hl1 Hl2 Hl3.
  - exists st. repeat split; intros i Hi; lia.
  - destruct IH as (st1 & Hrun & Hz1 & Hz2 & Hz3 & Hlen1 & Hlen2 & Hlen3
                    & Hi & Hb);
      [intros; apply Hz; lia | lia | lia | lia |].
    destruct (Hz n) as (q & Hq & Hop & Hob & Her); [lia |].
    rewrite for_range_S, Hrun. unfold stats_get_tx. rewrite Hq, Hop, Hob, Her.
    rewrite !rd_insert by lia. rewrite uint64_0.
    eexists. split; [reflexivity |]. cbn.
    rewrite !length_insert.
    repeat split; try assumption; apply zero_upto_insert; auto; lia.
Qed.

(** C9.  After a reset, [tap_stats_get] reports zero in the five
    device-level totals and, for every queue index it exposes (those below
    the smaller of the queue count and the length of the per-queue
    arrays), zero in the five per-queue fields. *)
Theorem stats_reset_then_get_zero stat_cntrs dev tap_stats :
  wf_internals (dev_private dev) ->
  stats_shape stat_cntrs tap_stats ->
  let st := tap_stats_get stat_cntrs (tap_stats_reset dev) tap_stats in
  s_ipackets st = 0 /\ s_ibytes st = 0 /\
  s_opackets st = 0 /\ s_obytes st = 0 /\ s_oerrors st = 0 /\
  forall i,
    (i < Nat.min (nb_queues (dev_private dev)) stat_cntrs)%nat ->
    q_ipackets st !! i = Some 0 /\ q_ibytes st !! i = Some 0 /\
    q_opackets st !! i = Some 0 /\ q_obytes st !! i = Some 0 /\
    q_errors st !! i = Some 0.
Proof.
  intros Hwf (H1 & H2 & H3 & H4 & H5). unfold tap_stats_get.
  change (nb_queues (dev_private (tap_stats_reset dev)))
    with (nb_queues (dev_private dev)).
  set (imax := if (nb_queues (dev_private dev) <? stat_cntrs)%nat
               then nb_queues (dev_private dev) else stat_cntrs).
  assert (imax = Nat.min (nb_queues (dev_private dev)) stat_cntrs) as Himax.
  { unfold imax.
    destruct (nb_queues (dev_private dev) <? stat_cntrs)%nat eqn:Hlt.
    - apply Nat.ltb_lt in Hlt. lia.
    - apply Nat.ltb_ge in Hlt. lia. }
  assert (forall i, (i < imax)%nat ->
                    rx_zeroed (dev_private (tap_stats_reset dev)) i /\
                    tx_zeroed (dev_private (tap_stats_reset dev)) i) as Hz.
  { intros i Hi. apply tap_stats_reset_zeroes; [exact Hwf | lia]. }
  destruct (stats_get_rx_zero (dev_private (tap_stats_reset dev)) tap_stats imax)
    as (st1 & Hrun1 & Hz1 & Hz2 & Hl1 & Hl2 & Ho & Hb & He);
    [intros i Hi; apply Hz, Hi | lia | lia |].
  rewrite Hrun1.
  destruct (stats_get_tx_zero (dev_private (tap_stats_reset dev)) st1 imax)
    as (st2 & Hrun2 & Hz3 & Hz4 & Hz5 & _ & _ & _ & Hi2 & Hb2);
    [intros i Hi; apply Hz, Hi | rewrite Ho; lia | rewrite Hb; lia
     | rewrite He; lia |].
  rewrite Hrun2. cbn. rewrite <- Himax.
  repeat split; try reflexivity.
  - rewrite Hi2. now apply Hz1.
  - rewrite Hb2. now apply Hz2.
  - now apply Hz3.
  - now apply Hz4.
  - now apply Hz5.
Qed.

Lemma stats_reset_then_get_zero_witness :
  wf_internals (dev_private dev_busy) /\
  stats_shape 16 stale_stats /\
  s_ipackets (tap_stats_get 16 dev_busy stale_stats) = 5 /\
  s_ipackets (tap_stats_get 16 (tap_stats_reset dev_busy) stale_stats) = 0.
Proof.
  assert (wf_internals (dev_private dev_busy)) as Hwf
    by (repeat split; cbn; lia).
  assert (stats_shape 16 stale_stats) as Hsh by (repeat split).
  split; [exact Hwf | split; [exact Hsh | split; [reflexivity |]]].
  exact (proj1 (stats_reset_then_get_zero 16 dev_busy stale_stats Hwf Hsh)).
Defined.

(** * Further properties of the driver *)

(** ** TxEngine: order, budget and progress *)

Lemma tx_trace_attempted fd bufs fuel num es num' :
  tx_trace fd bufs fuel num es num' ->
  exists n, (num' - num <= n <= S (num' - num))%nat /\
            attempted es = take n (drop num bufs).
Proof.
  induction 1 as [num|fuel num n rev Hn|fuel num n rev es num' Hn Hrev Htr IH
                 |fuel num n rev m r Hn Hrev Hm Hr
                 |fuel num n rev m r es num' Hn Hrev Hm Hr Htr IH].
  - exists 0%nat. split; [lia | reflexivity].
  - exists 0%nat. split; [lia | reflexivity].
  - exact IH.
  - exists 1%nat. split; [lia |].
    rewrite (drop_S _ _ _ Hm). reflexivity.
  - destruct IH as (n0 & Hn0 & Heq). apply tx_trace_bounds in Htr.
    exists (S n0). split; [lia |].
    rewrite (drop_S _ _ _ Hm). cbn [take].
    change (attempted (EvPoll fd n rev :: EvWrite fd m r :: EvFree m :: es))
      with (m :: attempted es).
    now rewrite Heq.
Qed.

Lemma tx_trace_budget fd bufs fuel num es num' :
  tx_trace fd bufs fuel num es num' ->
  (num' - num + length (idle_polls es) <= fuel)%nat /\
  (length es <= 3 * fuel)%nat.
Proof.
  induction 1 as [num|fuel num n rev Hn|fuel num n rev es num' Hn Hrev Htr IH
                 |fuel num n rev m r Hn Hrev Hm Hr
                 |fuel num n rev m r es num' Hn Hrev Hm Hr Htr IH].
  - cbn. lia.
  - unfold idle_polls. cbn. destruct (0 <? n) eqn:H0; cbn; lia.
  - unfold idle_polls in *. cbn.
    destruct (0 <? n) eqn:H0; [| lia].
    destruct (Z.land rev POLLOUT =? 0) eqn:H1; [| lia].
    cbn. cbn in IH. lia.
  - unfold idle_polls. cbn.
    destruct (0 <? n) eqn:H0; [| lia].
    destruct (Z.land rev POLLOUT =? 0) eqn:H1; [lia |].
    cbn. lia.
  - apply tx_trace_bounds in Htr. unfold idle_polls in *. cbn.
    destruct (0 <? n) eqn:H0; [| lia].
    destruct (Z.land rev POLLOUT =? 0) eqn:H1; [lia |].
    cbn. cbn in IH. lia.
Qed.

(** X1.  Frames reach the descriptor in the caller's order: the buffers handed
    to [write] during a burst, successful or not, are an initial segment
    of the batch, and there are [sent] of them or one more (the one whose
    write was refused).  No frame is skipped and none is offered twice. *)
Theorem pmd_tx_burst_writes_in_order E txq bufs nb_pkts k sent txq' es :
  burst_args bufs nb_pkts ->
  pmd_tx_burst E txq bufs nb_pkts k = (sent, txq', es) ->
  attempted es = take (length (attempted es)) bufs /\
  sent <= Z.of_nat (length (attempted es)) <= sent + 1.
Proof.
  intros Hargs Heq.
  destruct (pmd_tx_burst_cases _ _ _ _ _ _ _ _ Hargs Heq)
    as (n & -> & Htr & _).
  pose proof (tx_trace_bounds _ _ _ _ _ _ Htr) as Hb.
  destruct (tx_trace_attempted _ _ _ _ _ _ Htr) as (n0 & Hn0 & Ha).
  rewrite drop_0 in Ha.
  assert (length (attempted es) = Nat.min n0 (length bufs)) as Hlen
    by (rewrite Ha; apply length_take).
  split.
  - rewrite Hlen, Ha. destruct (Nat.min_spec n0 (length bufs)) as [[? ->]|[? ->]].
    + reflexivity.
    + now rewrite !take_ge by lia.
  - lia.
Qed.

Lemma pmd_tx_burst_writes_in_order_witness :
  burst_args frames2 2 /\
  attempted (snd (pmd_tx_burst E_refused (txq0 7) frames2 2 0%nat)) = frames2 /\
  fst (fst (pmd_tx_burst E_refused (txq0 7) frames2 2 0%nat)) = 1 /\
  1 <= Z.of_nat (length
                   (attempted (snd (pmd_tx_burst E_refused (txq0 7) frames2 2
                                      0%nat)))) <= 1 + 1.
Proof.
  assert (burst_args frames2 2) as Hargs
    by (split; [reflexivity | unfold UINT16_MAX; lia]).
  split; [exact Hargs | split; [reflexivity | split; [reflexivity |]]].
  exact (proj2 (pmd_tx_burst_writes_in_order E_refused (txq0 7) frames2 2 0%nat
                  1 _ _ Hargs eq_refl)).
Defined.

(** X2.  A burst has one loop iteration per requested frame and every poll
    uses one up: each poll that returns a positive count without POLLOUT
    lowers the number of frames the burst can still send by one.  A burst
    makes at most three external calls per requested frame, hence none
    for an empty batch. *)
Theorem pmd_tx_burst_budget E txq bufs nb_pkts k sent txq' es :
  burst_args bufs nb_pkts ->
  pmd_tx_burst E txq bufs nb_pkts k = (sent, txq', es) ->
  sent + Z.of_nat (length (idle_polls es)) <= nb_pkts /\
  Z.of_nat (length es) <= 3 * nb_pkts.
Proof.
  intros Hargs Heq.
  destruct (pmd_tx_burst_cases _ _ _ _ _ _ _ _ Hargs Heq)
    as (n & -> & Htr & _).
  destruct (tx_trace_budget _ _ _ _ _ _ Htr) as [H1 H2].
  destruct Hargs as [-> _]. lia.
Qed.

Lemma pmd_tx_burst_budget_witness :
  burst_args frames3 3 /\
  idle_polls (snd (pmd_tx_burst E_burst (txq0 7) frames3 3 0%nat))
  = [(1, POLLERR)] /\
  2 + Z.of_nat (length (idle_polls
                          (snd (pmd_tx_burst E_burst (txq0 7) frames3 3 0%nat))))
  <= 3.
Proof.
  assert (burst_args frames3 3) as Hargs
    by (split; [reflexivity | unfold UINT16_MAX; lia]).
  split; [exact Hargs | split; [reflexivity |]].
  exact (proj1 (pmd_tx_burst_budget E_burst (txq0 7) frames3 3 0%nat
                  2 _ _ Hargs eq_refl)).
Defined.

Lemma tx_loop_all_sent E fd bufs :
  always_writable E ->
  forall fuel (num : nat) bytes k,
    (num + fuel <= length bufs)%nat ->
    Z.of_nat (length bufs) <= UINT16_MAX ->
    fst (fst (tx_loop E fd bufs fuel (Z.of_nat num) bytes k))
    = Z.of_nat (num + fuel).
Proof.
  intros Hw. induction fuel as [|fuel IH]; intros num bytes k Hlen Hmax.
  - cbn. f_equal. lia.
  - cbn [tx_loop]. mrun.
    destruct (Hw k) as (Hp & Hrev & _).
    destruct (sys_ret E k <=? 0) eqn:Hn; [lia |].
    destruct (Z.land (sys_out E k) POLLOUT =? 0) eqn:Hr; [lia |].
    rewrite Nat2Z.id.
    destruct (bufs !! num) as [m|] eqn:Hm.
    2:{ apply lookup_ge_None in Hm. lia. }
    mrun. destruct (Hw (k + 1)%nat) as (_ & _ & Hwr).
    destruct (to_int (sys_ret E (k + 1)) <=? 0) eqn:Hwn; [lia |].
    mrun. rewrite uint16_succ by (unfold UINT16_MAX in *; lia).
    specialize (IH (S num) (uint64 (bytes + pkt_len m)) (k + 1 + 1 + 1)%nat).
    destruct (tx_loop E fd bufs fuel (Z.of_nat (S num))
                      (uint64 (bytes + pkt_len m)) (k + 1 + 1 + 1)%nat)
      as [[a b] es0].
    cbn [fst] in *. rewrite IH by lia. f_equal. lia.
Qed.

(** X3.  On a descriptor that is always ready for writing and takes every
    write, a burst sends the whole batch: it returns [nb_pkts], releases
    every buffer in order and charges no error. *)
Theorem pmd_tx_burst_sends_all E txq bufs nb_pkts k sent txq' es :
  always_writable E ->
  burst_args bufs nb_pkts ->
  pmd_tx_burst E txq bufs nb_pkts k = (sent, txq', es) ->
  sent = nb_pkts /\ freed es = bufs /\ attempted es = bufs /\
  (0 <= errs (tx_stats txq) < 2 ^ 64 ->
   errs (tx_stats txq') = errs (tx_stats txq)).
Proof.
  intros Hw Hargs Heq.
  destruct (pmd_tx_burst_cases _ _ _ _ _ _ _ _ Hargs Heq)
    as (n & Hs & Htr & Hst).
  assert (sent = nb_pkts) as Hall.
  { destruct (Z.eq_dec nb_pkts 0) as [H0|H0].
    - subst nb_pkts. rewrite pmd_tx_burst_empty in Heq. now inversion Heq.
    - unfold pmd_tx_burst in Heq.
      destruct (nb_pkts =? 0) eqn:Hz; [lia |].
      rewrite run_bind in Heq.
      pose proof (tx_loop_all_sent E (tx_fd txq) bufs Hw (length bufs) 0 0 k)
        as Hfull.
      destruct Hargs as [Hl Hmax]. rewrite Hl, Nat2Z.id in Heq.
      change (Z.of_nat 0) with 0 in Hfull.
      destruct (tx_loop E (tx_fd txq) bufs (length bufs) 0 0 k)
        as [[a b] es0].
      cbn [fst] in Hfull. rewrite run_ret in Heq. inversion Heq; subst.
      rewrite Hfull by lia. reflexivity. }
  pose proof Hargs as [Hl _].
  assert (n = length bufs) as -> by lia.
  destruct (tx_trace_sent _ _ _ _ _ _ Htr) as [Hf _].
  destruct (tx_trace_attempted _ _ _ _ _ _ Htr) as (n0 & Hn0 & Ha).
  rewrite Nat.sub_0_r, drop_0 in *. rewrite take_ge in Hf by lia.
  rewrite take_ge in Ha by lia.
  split; [exact Hall | split; [exact Hf | split; [exact Ha |]]].
  intros Herr. destruct (Z.eq_dec nb_pkts 0) as [H0|H0].
  - rewrite H0, pmd_tx_burst_empty in Heq. now inversion Heq.
  - rewrite (Hst H0). cbn [errs add_tx_stats].
    rewrite Hall, Z.sub_diag, Z.add_0_r. now apply uint64_small.
Qed.

Lemma E_ready_writable : always_writable E_ready.
Proof.
  intros j. cbn. repeat split; try lia. discriminate.
Qed.

Lemma pmd_tx_burst_sends_all_witness :
  always_writable E_ready /\ burst_args frames3 3 /\
  fst (fst (pmd_tx_burst E_ready (txq0 7) frames3 3 0%nat)) = 3 /\
  freed (snd (pmd_tx_burst E_ready (txq0 7) frames3 3 0%nat)) = frames3.
Proof.
  assert (burst_args frames3 3) as Hargs
    by (split; [reflexivity | unfold UINT16_MAX; lia]).
  split; [exact E_ready_writable | split; [exact Hargs |]].
  destruct (pmd_tx_burst_sends_all E_ready (txq0 7) frames3 3 0%nat
              _ _ _ E_ready_writable Hargs eq_refl) as (H1 & H2 & _).
  split; [exact H1 | exact H2].
Defined.

(** ** RxEngine: buffers, frames and termination *)

Lemma rx_loop_sound E q fuel :
  forall bufs (num : nat) bytes k,
    Z.of_nat num + Z.of_nat fuel <= UINT16_MAX ->
    0 <= bytes < 2 ^ 64 ->
    exists new es,
      rx_loop E q fuel bufs (Z.of_nat num) bytes k
      = (bufs ++ new, Z.of_nat (num + length new),
         uint64 (bytes + sum_len new), es)
      /\ rx_trace q fuel es new.
Proof.
  induction fuel as [|fuel IH]; intros bufs num bytes k Hmax Hb.
  - exists [], []. cbn. rewrite run_ret, app_nil_r, Nat.add_0_r, Z.add_0_r,
      uint64_small by lia.
    split; [reflexivity | constructor].
  - cbn [rx_loop]. mrun.
    destruct (pool_get E k) as [mbuf|].
    2:{ exists [], [EvAlloc None]. mrun. cbn.
        rewrite app_nil_r, Nat.add_0_r, Z.add_0_r, uint64_small by lia.
        split; [reflexivity | constructor]. }
    mrun. set (len := to_int (sys_ret E (k + 1))).
    destruct (len <=? 0) eqn:Hlen.
    { exists [], [EvAlloc (Some mbuf); EvRead (rx_fd q) mbuf len; EvFree mbuf].
      mrun. cbn.
      rewrite app_nil_r, Nat.add_0_r, Z.add_0_r, uint64_small by lia.
      split; [reflexivity | constructor; lia]. }
    rewrite uint16_succ by lia.
    destruct (IH (bufs ++ [rx_fill mbuf len (in_port q)]) (S num)
                 (uint64 (bytes + pkt_len (rx_fill mbuf len (in_port q))))
                 (k + 1 + 1)%nat)
      as (new & es & Heq & Htr); [lia | apply uint64_range |].
    rewrite Heq.
    exists (rx_fill mbuf len (in_port q) :: new),
           (EvAlloc (Some mbuf) :: EvRead (rx_fd q) mbuf len :: es).
    split.
    + cbn [app length]. rewrite <- app_assoc. cbn [app].
      replace (S num + length new)%nat with (num + S (length new))%nat by lia.
      rewrite uint64_add_l. do 2 f_equal.
      unfold sum_len. cbn. f_equal. lia.
    + constructor; [| exact Htr].
      assert (0 < len) as Hpos by lia. apply to_int_pos in Hpos. lia.
Qed.

Lemma pmd_rx_burst_trace E q nb_pkts k num_rx bufs q' es :
  0 <= nb_pkts <= UINT16_MAX ->
  pmd_rx_burst E q nb_pkts k = (num_rx, bufs, q', es) ->
  rx_trace q (Z.to_nat nb_pkts) es bufs /\ num_rx = Z.of_nat (length bufs).
Proof.
  intros Hn Heq. unfold pmd_rx_burst in Heq. rewrite run_bind in Heq.
  destruct (rx_loop_sound E q (Z.to_nat nb_pkts) [] 0 0 k)
    as (new & es0 & Hrun & Htr); [lia | lia |].
  change (Z.of_nat 0) with 0 in Hrun. rewrite Hrun, run_ret in Heq.
  cbn [app Nat.add] in Heq. inversion Heq; subst.
  rewrite app_nil_r. now split.
Qed.

Lemma rx_trace_buffers q fuel es new :
  rx_trace q fuel es new ->
  buf_addr <$> allocated es = (buf_addr <$> new) ++ (buf_addr <$> freed es) /\
  (length (freed es) <= 1)%nat /\
  length (reads es) = length (allocated es) /\
  fst <$> reads es = allocated es.
Proof.
  induction 1 as [|fuel|fuel m r Hr|fuel m r es new Hr Htr IH].
  - repeat split; cbn; lia.
  - repeat split; cbn; lia.
  - repeat split; cbn; lia.
  - destruct IH as (Ha & Hf & Hl & Hb).
    change (allocated (EvAlloc (Some m) :: EvRead (rx_fd q) m r :: es))
      with (m :: allocated es).
    change (freed (EvAlloc (Some m) :: EvRead (rx_fd q) m r :: es))
      with (freed es).
    change (reads (EvAlloc (Some m) :: EvRead (rx_fd q) m r :: es))
      with ((m, r) :: reads es).
    split; [rewrite !fmap_cons, Ha; reflexivity |].
    split; [exact Hf |].
    split; [cbn; lia |].
    rewrite fmap_cons, Hb. reflexivity.
Qed.

Lemma rx_trace_frames q fuel es new :
  rx_trace q fuel es new ->
  new = filled (in_port q) <$> good_reads es /\
  Forall (fun m => 0 < pkt_len m < 2 ^ 31 /\
                   data_len m = uint16 (pkt_len m) /\
                   port m = in_port q) new.
Proof.
  induction 1 as [|fuel|fuel m r Hr|fuel m r es new Hr Htr IH].
  - split; [reflexivity | constructor].
  - split; [reflexivity | constructor].
  - split; [| constructor]. cbn. destruct (0 <? r) eqn:H0; [lia | reflexivity].
  - destruct IH as [IH1 IH2]. split.
    + change (good_reads (EvAlloc (Some m) :: EvRead (rx_fd q) m r :: es))
        with (good_reads (EvRead (rx_fd q) m r :: es)).
      unfold good_reads at 1. cbn [omap list_omap].
      destruct (0 <? r) eqn:H0; [| lia].
      fold (good_reads es). rewrite fmap_cons, <- IH1. reflexivity.
    + constructor; [| exact IH2]. cbn.
      assert (uint32 r = r) as -> by (unfold uint32, wrap; rewrite Z.mod_small; lia).
      repeat split; lia.
Qed.

Lemma rx_trace_budget q fuel es new :
  rx_trace q fuel es new ->
  (length (reads es) <= fuel)%nat /\ (length es <= 3 * fuel)%nat /\
  Forall (rx_event (rx_fd q)) es.
Proof.
  induction 1 as [|fuel|fuel m r Hr|fuel m r es new Hr Htr IH].
  - repeat split; cbn; try lia; constructor.
  - repeat split; cbn; try lia. repeat constructor.
  - repeat split; cbn; try lia. repeat constructor.
  - destruct IH as (H1 & H2 & H3). unfold reads in *.
    split; [cbn in *; lia | split; [cbn in *; lia |]].
    repeat constructor. exact H3.
Qed.

Lemma rx_trace_stops q fuel es new :
  rx_trace q fuel es new ->
  (forall pre post, es = pre ++ EvAlloc None :: post -> post = []) /\
  (forall pre fd m r post,
     es = pre ++ EvRead fd m r :: post -> r <= 0 -> post = [EvFree m]).
Proof.
  induction 1 as [|fuel|fuel m0 r0 Hr|fuel m0 r0 es new Hr Htr IH].
  - split; intros; destruct pre; discriminate.
  - split.
    + intros pre post Heq. destruct pre as [|e [|e' pre]]; cbn in Heq;
        try discriminate. now inversion Heq.
    + intros pre fd m r post Heq. destruct pre as [|e [|e' pre]]; cbn in Heq;
        discriminate.
  - split.
    + intros pre post Heq.
      destruct pre as [|e [|e' [|e'' [|e3 pre]]]]; cbn in Heq; discriminate.
    + intros pre fd m r post Heq _.
      destruct pre as [|e [|e' [|e'' [|e3 pre]]]]; cbn in Heq;
        try discriminate. now inversion Heq.
  - destruct IH as [IH1 IH2]. split.
    + intros pre post Heq.
      destruct pre as [|e [|e' pre]]; cbn in Heq; try discriminate.
      inversion Heq; subst. eapply IH1; eauto.
    + intros pre fd m r post Heq Hle.
      destruct pre as [|e [|e' pre]]; cbn in Heq; try discriminate.
      * inversion Heq; subst. lia.
      * inversion Heq; subst. eapply IH2; eauto.
Qed.

(** X4.  A receive burst leaks no buffer: every buffer it takes from the pool
    is either handed to the caller in the output array or given back with
    [rte_pktmbuf_free], and at most one buffer per burst is given back
    (the one whose read yielded nothing).  It reads once into each buffer
    it took: the reads are into the buffers handed out, in that order. *)
Theorem pmd_rx_burst_no_leak E q nb_pkts k num_rx bufs q' es :
  0 <= nb_pkts <= UINT16_MAX ->
  pmd_rx_burst E q nb_pkts k = (num_rx, bufs, q', es) ->
  buf_addr <$> allocated es = (buf_addr <$> bufs) ++ (buf_addr <$> freed es) /\
  (length (freed es) <= 1)%nat /\
  length (reads es) = length (allocated es) /\
  fst <$> reads es = allocated es.
Proof.
  intros Hn Heq.
  destruct (pmd_rx_burst_trace _ _ _ _ _ _ _ _ Hn Heq) as [Htr _].
  eapply rx_trace_buffers; eauto.
Qed.

Lemma pmd_rx_burst_no_leak_witness :
  0 <= 4 <= UINT16_MAX /\
  buf_addr <$> allocated (snd (pmd_rx_burst E_rx rxq0 4 0%nat)) = [1; 2] /\
  buf_addr <$> allocated (snd (pmd_rx_burst E_rx rxq0 4 0%nat))
  = (buf_addr <$> snd (fst (fst (pmd_rx_burst E_rx rxq0 4 0%nat))))
    ++ (buf_addr <$> freed (snd (pmd_rx_burst E_rx rxq0 4 0%nat))).
Proof.
  assert (0 <= 4 <= UINT16_MAX) as H4 by (unfold UINT16_MAX; lia).
  split; [exact H4 | split; [reflexivity |]].
  exact (proj1 (pmd_rx_burst_no_leak E_rx rxq0 4 0%nat _ _ _ _ H4 eq_refl)).
Defined.

(** X5.  The frames a receive burst returns are the positive reads, in the
    order they were made: each is the buffer that was read into, with
    [pkt_len] the byte count the read returned (between 1 and 2^31 - 1),
    [data_len] that count cut to 16 bits, [port] the queue's input
    port, and the room [rte_pktmbuf_tailroom] reports lowered by the
    change of [data_len]. *)
Theorem pmd_rx_burst_frames E q nb_pkts k num_rx bufs q' es :
  0 <= nb_pkts <= UINT16_MAX ->
  pmd_rx_burst E q nb_pkts k = (num_rx, bufs, q', es) ->
  bufs = filled (in_port q) <$> good_reads es /\
  Forall (fun m => 0 < pkt_len m < 2 ^ 31 /\
                   data_len m = uint16 (pkt_len m) /\
                   port m = in_port q) bufs.
Proof.
  intros Hn Heq.
  destruct (pmd_rx_burst_trace _ _ _ _ _ _ _ _ Hn Heq) as [Htr _].
  eapply rx_trace_frames; eauto.
Qed.

Lemma pmd_rx_burst_frames_witness :
  0 <= 4 <= UINT16_MAX /\
  good_reads (snd (pmd_rx_burst E_rx rxq0 4 0%nat)) = [(fresh_buf 1 2048, 60)] /\
  tailroom <$> snd (fst (fst (pmd_rx_burst E_rx rxq0 4 0%nat))) = [1988] /\
  snd (fst (fst (pmd_rx_burst E_rx rxq0 4 0%nat)))
  = filled (in_port rxq0) <$> good_reads (snd (pmd_rx_burst E_rx rxq0 4 0%nat)).
Proof.
  assert (0 <= 4 <= UINT16_MAX) as H4 by (unfold UINT16_MAX; lia).
  split; [exact H4 | split; [reflexivity | split; [reflexivity |]]].
  exact (proj1 (pmd_rx_burst_frames E_rx rxq0 4 0%nat _ _ _ _ H4 eq_refl)).
Defined.

(** X6.  A receive burst never waits and never retries: it makes at most
    [nb_pkts] reads, all on the queue's descriptor, and at most three
    external calls per requested frame (none when [nb_pkts] is 0); a
    failed allocation is its last call, and a read that yields zero or
    less is followed by the release of its buffer and nothing else. *)
Theorem pmd_rx_burst_single_pass E q nb_pkts k num_rx bufs q' es :
  0 <= nb_pkts <= UINT16_MAX ->
  pmd_rx_burst E q nb_pkts k = (num_rx, bufs, q', es) ->
  Z.of_nat (length (reads es)) <= nb_pkts /\
  Z.of_nat (length es) <= 3 * nb_pkts /\
  Forall (rx_event (rx_fd q)) es /\
  (forall pre post, es = pre ++ EvAlloc None :: post -> post = []) /\
  (forall pre fd m r post,
     es = pre ++ EvRead fd m r :: post -> r <= 0 -> post = [EvFree m]).
Proof.
  intros Hn Heq.
  destruct (pmd_rx_burst_trace _ _ _ _ _ _ _ _ Hn Heq) as [Htr _].
  destruct (rx_trace_budget _ _ _ _ Htr) as (H1 & H2 & H3).
  destruct (rx_trace_stops _ _ _ _ Htr) as [H4 H5].
  repeat split; try assumption; lia.
Qed.

Lemma pmd_rx_burst_single_pass_witness :
  0 <= 4 <= UINT16_MAX /\
  length (snd (pmd_rx_burst E_rx rxq0 4 0%nat)) = 5%nat /\
  Z.of_nat (length (reads (snd (pmd_rx_burst E_rx rxq0 4 0%nat)))) <= 4.
Proof.
  assert (0 <= 4 <= UINT16_MAX) as H4 by (unfold UINT16_MAX; lia).
  split; [exact H4 | split; [reflexivity |]].
  exact (proj1 (pmd_rx_burst_single_pass E_rx rxq0 4 0%nat _ _ _ _ H4 eq_refl)).
Defined.

Lemma rx_loop_full E q :
  always_readable E ->
  forall fuel bufs (num : nat) bytes k,
    Z.of_nat num + Z.of_nat fuel <= UINT16_MAX ->
    snd (fst (fst (rx_loop E q fuel bufs (Z.of_nat num) bytes k)))
    = Z.of_nat (num + fuel).
Proof.
  intros Hr. induction fuel as [|fuel IH]; intros bufs num bytes k Hmax.
  - cbn. f_equal. lia.
  - cbn [rx_loop]. mrun.
    destruct (Hr k) as [Hp _].
    destruct (pool_get E k) as [mbuf|]; [| congruence].
    mrun. destruct (Hr (k + 1)%nat) as [_ Hd].
    destruct (to_int (sys_ret E (k + 1)) <=? 0) eqn:Hl; [lia |].
    rewrite uint16_succ by lia.
    match goal with |- context [rx_loop E q fuel ?b (Z.of_nat (S num)) ?y ?c] =>
      specialize (IH b (S num) y c);
      destruct (rx_loop E q fuel b (Z.of_nat (S num)) y c) as [[[a1 a2] a3] es0]
    end.
    cbn [fst snd] in *. rewrite IH by lia. f_equal. lia.
Qed.

(** X7.  When the pool always has a buffer and every read yields data, a
    receive burst fills the whole request: it returns exactly [nb_pkts]
    frames. *)
Theorem pmd_rx_burst_full E q nb_pkts k num_rx bufs q' es :
  always_readable E ->
  0 <= nb_pkts <= UINT16_MAX ->
  pmd_rx_burst E q nb_pkts k = (num_rx, bufs, q', es) ->
  num_rx = nb_pkts /\ Z.of_nat (length bufs) = nb_pkts.
Proof.
  intros Hr Hn Heq.
  destruct (pmd_rx_burst_trace _ _ _ _ _ _ _ _ Hn Heq) as [_ Hlen].
  unfold pmd_rx_burst in Heq. rewrite run_bind in Heq.
  pose proof (rx_loop_full E q Hr (Z.to_nat nb_pkts) [] 0 0 k) as Hfull.
  change (Z.of_nat 0) with 0 in Hfull.
  destruct (rx_loop E q (Z.to_nat nb_pkts) [] 0 0 k) as [[[a1 a2] a3] es0].
  cbn [fst snd] in Hfull. rewrite run_ret in Heq.
  inversion Heq as [[Ha Hb Hc Hd]]. rewrite Ha in Hfull.
  assert (num_rx = nb_pkts) as Hall by (rewrite Hfull; lia).
  split; [exact Hall | congruence].
Qed.

Lemma E_ready_readable : always_readable E_ready.
Proof.
  intros j. split; [discriminate | reflexivity].
Qed.

Lemma pmd_rx_burst_full_witness :
  always_readable E_ready /\ 0 <= 3 <= UINT16_MAX /\
  fst (fst (fst (pmd_rx_burst E_ready rxq0 3 0%nat))) = 3.
Proof.
  assert (0 <= 3 <= UINT16_MAX) as H3 by (unfold UINT16_MAX; lia).
  split; [exact E_ready_readable | split; [exact H3 |]].
  exact (proj1 (pmd_rx_burst_full E_ready rxq0 3 0%nat _ _ _ _
                  E_ready_readable H3 eq_refl)).
Defined.

(** ** ChannelFactory: success and cleanup *)

Lemma tun_mode_built features :
  (supports_multiqueue features ->
   tun_queue_mode RTE_PMD_TAP_MAX_QUEUES features = Some IFF_MULTI_QUEUE) /\
  (~ supports_multiqueue features ->
   tun_queue_mode RTE_PMD_TAP_MAX_QUEUES features = None).
Proof.
  destruct (tun_queue_mode_cases RTE_PMD_TAP_MAX_QUEUES features)
    as ([_ Hnone] & _ & [_ Hmulti]).
  split; intros H.
  - apply Hmulti. split; [now left | unfold RTE_PMD_TAP_MAX_QUEUES; lia].
  - apply Hnone. split; [exact H | unfold RTE_PMD_TAP_MAX_QUEUES; lia].
Qed.

Lemma supports_multiqueue_dec features :
  supports_multiqueue features \/ ~ supports_multiqueue features.
Proof.
  unfold supports_multiqueue.
  destruct (Z.eq_dec (Z.land features IFF_MULTI_QUEUE) 0); [right | left]; lia.
Qed.

Lemma tun_alloc_ok E k :
  tun_steps_ok E k ->
  tun_alloc E k
  = (sys_ret E k,
     [EvOpen (sys_ret E k);
      EvIoctl (sys_ret E k) TUNGETFEATURES (sys_ret E (k + 1));
      EvIoctl (sys_ret E k) (TUNSETIFF IFR_MULTI) (sys_ret E (k + 2));
      EvFcntl (sys_ret E k) (sys_ret E (k + 3))]).
Proof.
  intros (H0 & H1 & Hmq & H2 & H3). unfold tun_alloc. mrun.
  destruct (sys_ret E k <? 0) eqn:E0; [lia |]. mrun.
  destruct (sys_ret E (k + 1) <? 0) eqn:E1; [lia |].
  rewrite (proj1 (tun_mode_built _) Hmq). mrun.
  replace (k + 1 + 1)%nat with (k + 2)%nat by lia.
  destruct (sys_ret E (k + 2) <? 0) eqn:E2; [lia |]. mrun.
  replace (k + 2 + 1)%nat with (k + 3)%nat by lia.
  destruct (sys_ret E (k + 3) <? 0) eqn:E3; [lia |].
  reflexivity.
Qed.

(** X8.  [tun_alloc] returns a descriptor exactly when every step succeeds,
    and then the descriptor is the one [open] returned, configured as a
    multiqueue TAP channel without packet information and switched to
    non-blocking mode; the four calls are all it makes, and nothing is
    closed. *)
Theorem tun_alloc_success E k :
  tun_steps_ok E k ->
  tun_alloc E k
  = (sys_ret E k,
     [EvOpen (sys_ret E k);
      EvIoctl (sys_ret E k) TUNGETFEATURES (sys_ret E (k + 1));
      EvIoctl (sys_ret E k) (TUNSETIFF IFR_MULTI) (sys_ret E (k + 2));
      EvFcntl (sys_ret E k) (sys_ret E (k + 3))]).
Proof. apply tun_alloc_ok. Qed.

Lemma tun_alloc_success_witness :
  tun_steps_ok E_create 6 /\
  tun_alloc E_create 6%nat = (4, tx1_events).
Proof.
  assert (tun_steps_ok E_create 6) as Hok.
  { unfold tun_steps_ok, supports_multiqueue.
    change (0 <= 4 /\ 0 <= 0 /\
            Z.land IFF_MULTI_QUEUE IFF_MULTI_QUEUE <> 0 /\ 0 <= 0 /\ 0 <= 0).
    repeat split; try lia. discriminate. }
  split; [exact Hok |]. exact (tun_alloc_success E_create 6%nat Hok).
Defined.

(** X9.  When a step fails [tun_alloc] returns -1 after a single [open].  It
    closes the descriptor it opened when that descriptor is positive, as
    its last call; descriptor 0 is not closed and stays open. *)
Theorem tun_alloc_failure E k :
  ~ tun_steps_ok E k ->
  fst (tun_alloc E k) = -1 /\
  opens (snd (tun_alloc E k)) = [sys_ret E k] /\
  closes (snd (tun_alloc E k))
  = (if 0 <? sys_ret E k then [sys_ret E k] else []) /\
  still_open (snd (tun_alloc E k))
  = (if sys_ret E k =? 0 then [0] else []) /\
  (0 < sys_ret E k ->
   exists pre, snd (tun_alloc E k) = pre ++ [EvClose (sys_ret E k)]).
Proof.
  intros Hnot. unfold tun_alloc, tun_alloc_error. mrun.
  destruct (sys_ret E k <? 0) eqn:E0; mrun.
  { destruct (0 <? sys_ret E k) eqn:P0; [lia |]. mrun. cbn.
    rewrite E0. destruct (sys_ret E k =? 0) eqn:Z0; [lia |].
    repeat split. intros; lia. }
  assert (forall mid,
            Forall (fun e => match e with
                             | EvOpen _ | EvClose _ => False | _ => True end)
                   mid ->
            still_open (EvOpen (sys_ret E k) :: mid
                        ++ (if 0 <? sys_ret E k
                            then [EvClose (sys_ret E k)] else []))
            = (if sys_ret E k =? 0 then [0] else [])) as Hso.
  { intros mid Hmid. unfold still_open. cbn [fold_left]. rewrite E0.
    cbn [app]. rewrite fold_left_app.
    assert (forall acc,
              fold_left (fun acc e =>
                           match e with
                           | EvOpen fd => if fd <? 0 then acc else acc ++ [fd]
                           | EvClose fd => filter (fun x => x ≠ fd) acc
                           | _ => acc end) mid acc = acc) as Hid.
    { induction Hmid as [|e mid He _ IH]; intros acc; [reflexivity |].
      cbn [fold_left]. destruct e; try contradiction; apply IH. }
    rewrite Hid.
    destruct (0 <? sys_ret E k) eqn:P0.
    - cbn [fold_left app]. destruct (sys_ret E k =? 0) eqn:Z0; [lia |].
      rewrite filter_cons. destruct (decide (sys_ret E k ≠ sys_ret E k));
        [congruence | reflexivity].
    - cbn [fold_left app]. destruct (sys_ret E k =? 0) eqn:Z0; [| lia].
      f_equal. lia. }
  assert (forall mid,
            Forall (fun e => match e with
                             | EvOpen _ | EvClose _ => False | _ => True end)
                   mid ->
            opens (EvOpen (sys_ret E k) :: mid
                   ++ (if 0 <? sys_ret E k
                       then [EvClose (sys_ret E k)] else []))
            = [sys_ret E k] /\
            closes (EvOpen (sys_ret E k) :: mid
                    ++ (if 0 <? sys_ret E k
                        then [EvClose (sys_ret E k)] else []))
            = (if 0 <? sys_ret E k then [sys_ret E k] else [])) as Hoc.
  { intros mid Hmid. unfold opens, closes. cbn [omap list_omap].
    induction Hmid as [|e mid He _ IH].
    - destruct (0 <? sys_ret E k); now cbn.
    - destruct e; try contradiction; cbn; exact IH. }
  assert (forall mid,
            Forall (fun e => match e with
                             | EvOpen _ | EvClose _ => False | _ => True end)
                   mid ->
            -1 = -1 /\
            opens (EvOpen (sys_ret E k) :: mid
                   ++ (if 0 <? sys_ret E k
                       then [EvClose (sys_ret E k)] else []))
            = [sys_ret E k] /\
            closes (EvOpen (sys_ret E k) :: mid
                    ++ (if 0 <? sys_ret E k
                        then [EvClose (sys_ret E k)] else []))
            = (if 0 <? sys_ret E k then [sys_ret E k] else []) /\
            still_open (EvOpen (sys_ret E k) :: mid
                        ++ (if 0 <? sys_ret E k
                            then [EvClose (sys_ret E k)] else []))
            = (if sys_ret E k =? 0 then [0] else []) /\
            (0 < sys_ret E k ->
             exists pre,
               EvOpen (sys_ret E k) :: mid
               ++ (if 0 <? sys_ret E k then [EvClose (sys_ret E k)] else [])
               = pre ++ [EvClose (sys_ret E k)])) as Hall.
  { intros mid Hmid. destruct (Hoc mid Hmid) as [Ho Hc].
    repeat split; auto.
    intros Hpos. destruct (0 <? sys_ret E k) eqn:P0; [| lia].
    exists (EvOpen (sys_ret E k) :: mid). reflexivity. }
  clear Hso Hoc.
  destruct (sys_ret E (k + 1) <? 0) eqn:E1; mrun.
  { destruct (0 <? sys_ret E k) eqn:P0; mrun;
      (specialize (Hall [EvIoctl (sys_ret E k) TUNGETFEATURES
                                 (sys_ret E (k + 1))]);
       rewrite ?P0 in Hall; apply Hall; repeat constructor). }
  destruct (supports_multiqueue_dec (sys_out E (k + 1))) as [Hmq|Hmq].
  2:{ rewrite (proj2 (tun_mode_built _) Hmq). mrun.
      destruct (0 <? sys_ret E k) eqn:P0; mrun;
        (specialize (Hall [EvIoctl (sys_ret E k) TUNGETFEATURES
                                   (sys_ret E (k + 1))]);
         rewrite ?P0 in Hall; apply Hall; repeat constructor). }
  rewrite (proj1 (tun_mode_built _) Hmq). mrun.
  replace (k + 1 + 1)%nat with (k + 2)%nat by lia.
  destruct (sys_ret E (k + 2) <? 0) eqn:E2; mrun.
  { destruct (0 <? sys_ret E k) eqn:P0; mrun;
      (specialize (Hall [EvIoctl (sys_ret E k) TUNGETFEATURES
                                 (sys_ret E (k + 1));
                         EvIoctl (sys_ret E k)
                                 (TUNSETIFF (Z.lor (Z.lor IFF_TAP IFF_NO_PI)
                                                   IFF_MULTI_QUEUE))
                                 (sys_ret E (k + 2))]);
       rewrite ?P0 in Hall; apply Hall; repeat constructor). }
  replace (k + 2 + 1)%nat with (k + 3)%nat by lia.
  destruct (sys_ret E (k + 3) <? 0) eqn:E3; mrun.
  { destruct (0 <? sys_ret E k) eqn:P0; mrun;
      (specialize (Hall [EvIoctl (sys_ret E k) TUNGETFEATURES
                                 (sys_ret E (k + 1));
                         EvIoctl (sys_ret E k)
                                 (TUNSETIFF (Z.lor (Z.lor IFF_TAP IFF_NO_PI)
                                                   IFF_MULTI_QUEUE))
                                 (sys_ret E (k + 2));
                         EvFcntl (sys_ret E k) (sys_ret E (k + 3))]);
       rewrite ?P0 in Hall; apply Hall; repeat constructor). }
  exfalso. apply Hnot. unfold tun_steps_ok. repeat split; try lia. exact Hmq.
Qed.

Lemma tun_alloc_failure_witness :
  ~ tun_steps_ok E_fd0_single 0 /\
  tun_alloc E_fd0_single 0%nat = (-1, [EvOpen 0; EvIoctl 0 TUNGETFEATURES 0]) /\
  still_open (snd (tun_alloc E_fd0_single 0%nat)) = [0].
Proof.
  assert (~ tun_steps_ok E_fd0_single 0) as Hnot.
  { intros (_ & _ & Hmq & _). apply Hmq. reflexivity. }
  split; [exact Hnot | split; [reflexivity |]].
  exact (proj1 (proj2 (proj2 (proj2
           (tun_alloc_failure E_fd0_single 0%nat Hnot))))).
Defined.

(** ** QueueFdRegistry: failures, isolation and bookkeeping *)

Lemma tap_setup_queue_outcome E pmd i k fd pmd' es :
  tap_setup_queue E pmd i k = (fd, pmd', es) ->
  (fd = -1 /\ pmd' = pmd) \/ (0 <= fd /\ pmd' = install_fd pmd i fd).
Proof.
  unfold tap_setup_queue. intros Heq.
  destruct (rxq pmd !! i) as [rx|];
    [| rewrite run_ret in Heq; inversion Heq; now left].
  destruct (txq pmd !! i) as [tx|];
    [| rewrite run_ret in Heq; inversion Heq; now left].
  destruct (rx_fd rx <? 0) eqn:Hr.
  - destruct (tx_fd tx <? 0) eqn:Ht.
    + rewrite run_bind in Heq.
      destruct (tun_alloc_result E k) as (fd0 & es0 & Hrun & Hres & _).
      rewrite Hrun in Heq.
      destruct (fd0 <? 0) eqn:Hneg; rewrite run_ret in Heq;
        inversion Heq; subst; [now left | right; split; [lia | reflexivity]].
    + rewrite run_ret in Heq; inversion Heq; subst.
      right; split; [lia | reflexivity].
  - rewrite run_ret in Heq; inversion Heq; subst.
    right; split; [lia | reflexivity].
Qed.

Lemma with_private_same dev : with_private dev (dev_private dev) = dev.
Proof. now destruct dev. Qed.

Lemma rx_fd_set_rx_pool (l : list rx_queue) mp p i :
  rx_fd <$> alter (set_rx_pool mp p) i l = rx_fd <$> l.
Proof.
  apply list_eq. intros j. rewrite !list_lookup_fmap.
  apply set_rx_pool_rxq_fd.
Qed.

(** X10.  The TX half of a setup never writes the [fds] array.  It returns 0 or
    -1, and when it returns -1 (queue id not below the queue count, or the
    channel could not be created) the device is exactly as before; an
    out-of-range id is refused without any external call. *)
Theorem tap_tx_queue_setup_outcome E dev i k r dev' es :
  tap_tx_queue_setup E dev i k = (r, dev', es) ->
  fds (dev_private dev') = fds (dev_private dev) /\
  (r = 0 \/ r = -1) /\
  (r = -1 -> dev' = dev) /\
  ((nb_queues (dev_private dev) <= i)%nat -> r = -1 /\ es = []).
Proof.
  unfold tap_tx_queue_setup. intros Heq.
  destruct (nb_queues (dev_private dev) <=? i)%nat eqn:Hi.
  { rewrite run_ret in Heq. inversion Heq; subst. repeat split; auto. }
  apply Nat.leb_gt in Hi. rewrite run_bind in Heq.
  destruct (tap_setup_queue E (dev_private dev) i k)
    as [[fd pmd2] es0] eqn:Hs.
  apply tap_setup_queue_outcome in Hs.
  destruct (fd =? -1) eqn:Hfd; rewrite run_ret in Heq; inversion Heq; subst.
  - destruct Hs as [[_ ->]|[Hpos _]]; [| lia].
    rewrite with_private_same. repeat split; auto. lia.
  - destruct Hs as [[Hm _]|[Hpos ->]]; [lia |].
    repeat split; auto; try lia. 
Qed.

Lemma tap_tx_queue_setup_outcome_witness :
  tap_tx_queue_setup E_create dev_created 1 6%nat = (0, dev_tx1, tx1_events) /\
  fds (dev_private dev_tx1) = fds (dev_private dev_created).
Proof.
  split; [reflexivity |].
  exact (proj1 (tap_tx_queue_setup_outcome E_create dev_created 1%nat 6%nat
                  0 dev_tx1 tx1_events eq_refl)).
Defined.

(** X11.  A failed RX setup returns -1 or -ENOMEM and changes no descriptor:
    [fds], the TX queues and the RX descriptors are as before.  A missing
    pool or an out-of-range queue id leaves the whole device as it was;
    these and the -ENOMEM case make no external call. *)
Theorem tap_rx_queue_setup_failure E headroom dev i mp k r dev' es :
  tap_rx_queue_setup E headroom dev i mp k = (r, dev', es) ->
  r <> 0 ->
  (r = -1 \/ r = - ENOMEM) /\
  fds (dev_private dev') = fds (dev_private dev) /\
  txq (dev_private dev') = txq (dev_private dev) /\
  rx_fd <$> rxq (dev_private dev') = rx_fd <$> rxq (dev_private dev) /\
  (r = - ENOMEM -> es = []) /\
  (mp = None \/ (nb_queues (dev_private dev) <= i)%nat ->
   r = -1 /\ dev' = dev /\ es = []).
Proof.
  unfold tap_rx_queue_setup. intros Heq Hr.
  assert (-1 <> - ENOMEM) as Hne by discriminate.
  destruct mp as [pool|].
  2:{ rewrite run_ret in Heq. inversion Heq; subst.
      repeat split; auto; intros; congruence. }
  destruct (nb_queues (dev_private dev) <=? i)%nat eqn:Hi.
  { rewrite run_ret in Heq. inversion Heq; subst.
    repeat split; auto; intros; congruence. }
  apply Nat.leb_gt in Hi.
  destruct (uint16 (data_room_size pool - headroom) <? ETH_FRAME_LEN).
  { rewrite run_ret in Heq. inversion Heq; subst. cbn.
    repeat split; auto using rx_fd_set_rx_pool;
      try (intros [Hn|Hn]; try discriminate; lia);
      try (match goal with
           | H : _ \/ _ |- _ => destruct H as [H|H]; try discriminate; lia
           end). }
  rewrite run_bind in Heq.
  match type of Heq with context [tap_setup_queue E ?p i k] =>
    destruct (tap_setup_queue E p i k) as [[fd pmd2] es0] eqn:Hs end.
  apply tap_setup_queue_outcome in Hs.
  destruct (fd =? -1) eqn:Hfd; rewrite run_ret in Heq; inversion Heq; subst;
    [| congruence].
  destruct Hs as [[_ ->]|[Hpos _]]; [| lia]. cbn.
  repeat split; auto using rx_fd_set_rx_pool;
    try (intros; congruence);
    try (intros [Hn|Hn]; try discriminate; lia);
    try (match goal with
         | H : _ \/ _ |- _ => destruct H as [H|H]; try discriminate; lia
         end).
Qed.

Lemma tap_rx_queue_setup_failure_witness :
  tap_rx_queue_setup E_create 128 dev_created 1 (Some pool_small) 6%nat
  = (- ENOMEM,
     with_private dev_created
       {| nb_queues := 16;
          fds := fds (dev_private dev_created);
          rxq := alter (set_rx_pool (Some pool_small) 0) 1%nat
                       (rxq (dev_private dev_created));
          txq := txq (dev_private dev_created) |}, []) /\
  - ENOMEM <> 0 /\
  (- ENOMEM = -1 \/ - ENOMEM = - ENOMEM).
Proof.
  assert (- ENOMEM <> 0) as Hne by discriminate.
  split; [reflexivity | split; [exact Hne |]].
  exact (proj1 (tap_rx_queue_setup_failure E_create 128 dev_created 1%nat
                  (Some pool_small) 6%nat _ _ _ eq_refl Hne)).
Defined.

(** X12.  With a pool whose data room is at least the headroom, an RX setup of
    a valid queue id is refused with -ENOMEM exactly when fewer than
    ETH_FRAME_LEN (1514) bytes remain after the headroom. *)
Theorem tap_rx_queue_setup_size_check E headroom dev i pool k r dev' es :
  (i < nb_queues (dev_private dev))%nat ->
  headroom <= data_room_size pool < 2 ^ 16 -> 0 <= headroom ->
  tap_rx_queue_setup E headroom dev i (Some pool) k = (r, dev', es) ->
  (r = - ENOMEM <-> data_room_size pool - headroom < ETH_FRAME_LEN).
Proof.
  unfold tap_rx_queue_setup. intros Hi Hroom Hh Heq.
  destruct (nb_queues (dev_private dev) <=? i)%nat eqn:Hle.
  { apply Nat.leb_le in Hle. lia. }
  assert (uint16 (data_room_size pool - headroom)
          = data_room_size pool - headroom) as Hw.
  { unfold uint16, wrap. apply Z.mod_small. lia. }
  rewrite Hw in Heq.
  destruct (data_room_size pool - headroom <? ETH_FRAME_LEN) eqn:Hsz.
  { rewrite run_ret in Heq. inversion Heq; subst. split; [lia | reflexivity]. }
  rewrite run_bind in Heq.
  match type of Heq with context [tap_setup_queue E ?p i k] =>
    destruct (tap_setup_queue E p i k) as [[fd pmd2] es0] end.
  destruct (fd =? -1); rewrite run_ret in Heq; inversion Heq; subst;
    (split; [unfold ENOMEM; intros; discriminate | lia]).
Qed.

Lemma tap_rx_queue_setup_size_check_witness :
  (1 < nb_queues (dev_private dev_created))%nat /\
  128 <= data_room_size pool_small < 2 ^ 16 /\ 0 <= 128 /\
  (fst (fst (tap_rx_queue_setup E_create 128 dev_created 1 (Some pool_small)
               6%nat)) = - ENOMEM
   <-> data_room_size pool_small - 128 < ETH_FRAME_LEN).
Proof.
  assert (1 < nb_queues (dev_private dev_created))%nat as Hi by (cbn; lia).
  assert (128 <= data_room_size pool_small < 2 ^ 16) as Hroom by (cbn; lia).
  assert (0 <= 128) as Hh by lia.
  split; [exact Hi | split; [exact Hroom | split; [exact Hh |]]].
  exact (tap_rx_queue_setup_size_check E_create 128 dev_created 1%nat
           pool_small 6%nat _ _ _ Hi Hroom Hh eq_refl).
Defined.

Lemma install_fd_frame pmd i fd :
  nb_queues (install_fd pmd i fd) = nb_queues pmd /\
  fds (install_fd pmd i fd) = fds pmd /\
  length (rxq (install_fd pmd i fd)) = length (rxq pmd) /\
  length (txq (install_fd pmd i fd)) = length (txq pmd) /\
  forall j, j <> i ->
            rxq (install_fd pmd i fd) !! j = rxq pmd !! j /\
            txq (install_fd pmd i fd) !! j = txq pmd !! j.
Proof.
  unfold install_fd. cbn. rewrite !length_alter.
  repeat split; auto; apply list_lookup_alter_ne; congruence.
Qed.

(** X13.  A setup of queue [i], of either half and whatever its result, changes
    nothing outside queue [i]: the queue count, the lengths of the three
    arrays, the port and the link state stay as they are, and so do the
    RX queue, the TX queue and the [fds] slot of every other queue. *)
Theorem queue_setup_frame E headroom dev i h k r dev' es :
  queue_setup E headroom dev i h k = (r, dev', es) ->
  nb_queues (dev_private dev') = nb_queues (dev_private dev) /\
  length (fds (dev_private dev')) = length (fds (dev_private dev)) /\
  length (rxq (dev_private dev')) = length (rxq (dev_private dev)) /\
  length (txq (dev_private dev')) = length (txq (dev_private dev)) /\
  port_id dev' = port_id dev /\ link_status dev' = link_status dev /\
  forall j, j <> i ->
            rxq (dev_private dev') !! j = rxq (dev_private dev) !! j /\
            txq (dev_private dev') !! j = txq (dev_private dev) !! j /\
            fds (dev_private dev') !! j = fds (dev_private dev) !! j.
Proof.
  destruct h as [mp|]; cbn [queue_setup].
  - unfold tap_rx_queue_setup. intros Heq.
    destruct mp as [pool|];
      [| rewrite run_ret in Heq; inversion Heq; subst; repeat split; auto].
    destruct (nb_queues (dev_private dev) <=? i)%nat;
      [rewrite run_ret in Heq; inversion Heq; subst; repeat split; auto |].
    destruct (uint16 (data_room_size pool - headroom) <? ETH_FRAME_LEN).
    { rewrite run_ret in Heq; inversion Heq; subst. cbn.
      rewrite length_alter. repeat split; auto.
      apply list_lookup_alter_ne. congruence. }
    rewrite run_bind in Heq.
    match type of Heq with context [tap_setup_queue E ?p i k] =>
      destruct (tap_setup_queue E p i k) as [[fd pmd2] es0] eqn:Hs end.
    apply tap_setup_queue_outcome in Hs.
    destruct (fd =? -1) eqn:Hfd; rewrite run_ret in Heq; inversion Heq; subst;
      clear Heq.
    + destruct Hs as [[_ ->]|[Hpos _]]; [| lia]. cbn.
      rewrite length_alter. repeat split; auto.
      apply list_lookup_alter_ne. congruence.
    + destruct Hs as [[Hm _]|[Hpos ->]]; [lia |]. cbn.
      rewrite !length_alter, length_insert. repeat split; auto.
      * rewrite !list_lookup_alter_ne by congruence. reflexivity.
      * apply list_lookup_alter_ne. congruence.
      * apply list_lookup_insert_ne. congruence.
  - unfold tap_tx_queue_setup. intros Heq.
    destruct (nb_queues (dev_private dev) <=? i)%nat;
      [rewrite run_ret in Heq; inversion Heq; subst; repeat split; auto |].
    rewrite run_bind in Heq.
    destruct (tap_setup_queue E (dev_private dev) i k)
      as [[fd pmd2] es0] eqn:Hs.
    apply tap_setup_queue_outcome in Hs.
    destruct (fd =? -1) eqn:Hfd; rewrite run_ret in Heq; inversion Heq; subst;
      clear Heq.
    + destruct Hs as [[_ ->]|[Hpos _]]; [| lia]. repeat split; auto.
    + destruct Hs as [[Hm _]|[Hpos ->]]; [lia |]. cbn.
      rewrite !length_alter. repeat split; auto;
        apply list_lookup_alter_ne; congruence.
Qed.

Lemma queue_setup_frame_witness :
  queue_setup E_create 128 dev_created 1 SetupTx 6%nat
  = (0, dev_tx1, tx1_events) /\
  nb_queues (dev_private dev_tx1) = nb_queues (dev_private dev_created).
Proof.
  split; [reflexivity |].
  exact (proj1 (queue_setup_frame E_create 128 dev_created 1%nat SetupTx 6%nat
                  0 dev_tx1 tx1_events eq_refl)).
Defined.

Lemma closes_of_close_events (l : list Z) : closes (EvClose <$> l) = l.
Proof.
  induction l as [|x l IH]; [reflexivity |].
  rewrite fmap_cons. unfold closes in *. cbn. now rewrite IH.
Qed.

(** X14.  A successful RX setup of queue [i] records the queue's descriptor in
    slot [i] of [fds], the same descriptor the RX and TX slots hold, and a
    stop that follows closes it. *)
Theorem tap_rx_queue_setup_recorded E headroom dev i mp k r dev' es :
  wf_internals (dev_private dev) ->
  tap_rx_queue_setup E headroom dev i mp k = (r, dev', es) ->
  r = 0 ->
  exists fd,
    0 <= fd /\
    fds (dev_private dev') !! i = Some fd /\
    rxq_fd (dev_private dev') i = Some fd /\
    txq_fd (dev_private dev') i = Some fd /\
    forall k', fd ∈ closes (snd (tap_dev_stop dev' k')).
Proof.
  intros (Hf & _ & _) Heq ->.
  pose proof (queue_setup_success E headroom dev i (SetupRx mp) k dev' es Heq)
    as (fd & Hpos & Hrx & Htx & _).
  exists fd.
  assert (fds (dev_private dev') !! i = Some fd /\
          (i < nb_queues (dev_private dev'))%nat) as [Hfd Hi].
  { unfold tap_rx_queue_setup in Heq.
    destruct mp as [pool|]; [| rewrite run_ret in Heq; inversion Heq].
    destruct (nb_queues (dev_private dev) <=? i)%nat eqn:Hle;
      [rewrite run_ret in Heq; inversion Heq |].
    apply Nat.leb_gt in Hle.
    destruct (uint16 (data_room_size pool - headroom) <? ETH_FRAME_LEN);
      [rewrite run_ret in Heq; inversion Heq |].
    rewrite run_bind in Heq.
    match type of Heq with context [tap_setup_queue E ?p i k] =>
      destruct (tap_setup_queue E p i k) as [[fd2 pmd2] es0] eqn:Hs end.
    pose proof (tap_setup_queue_outcome _ _ _ _ _ _ _ Hs) as Hout.
    destruct (fd2 =? -1) eqn:Hm; rewrite run_ret in Heq; inversion Heq; subst;
      clear Heq.
    destruct Hout as [[Hneg _]|[Hp2 ->]]; [lia |].
    cbn in Hrx |- *. unfold rxq_fd in Hrx. cbn in Hrx.
    split; [| exact Hle].
    rewrite list_lookup_insert_eq by lia. f_equal.
    rewrite list_lookup_alter_eq in Hrx.
    destruct (alter (set_rx_pool (Some pool) (port_id dev)) i
                    (rxq (dev_private dev)) !! i); cbn in Hrx; congruence. }
  repeat split; try assumption.
  intros k'. rewrite tap_dev_stop_events. cbn [snd].
  rewrite closes_of_close_events.
  apply list_elem_of_filter. split; [unfold assigned; lia |].
  apply elem_of_take. exists i. split; [exact Hfd | exact Hi].
Qed.

Lemma tap_rx_queue_setup_recorded_witness :
  wf_internals (dev_private dev_created) /\
  fst (fst (tap_rx_queue_setup E_create 128 dev_created 1 (Some pool0) 6%nat))
  = 0 /\
  exists fd,
    0 <= fd /\
    fds (dev_private
           (snd (fst (tap_rx_queue_setup E_create 128 dev_created 1
                        (Some pool0) 6%nat)))) !! 1%nat = Some fd.
Proof.
  assert (wf_internals (dev_private dev_created)) as Hwf
    by (repeat split; cbn; lia).
  split; [exact Hwf | split; [reflexivity |]].
  destruct (tap_rx_queue_setup_recorded E_create 128 dev_created 1%nat
              (Some pool0) 6%nat 0 _ _ Hwf eq_refl eq_refl)
    as (fd & Hpos & Hfd & _).
  exists fd. split; [exact Hpos | exact Hfd].
Defined.

(** ** Queue release *)

(** X15.  Releasing a queue closes its descriptor exactly when the descriptor
    is positive and then marks the queue unassigned, so releasing the same
    queue again makes no call.  A NULL queue, an unassigned one and one on
    descriptor 0 are left alone: descriptor 0 is never closed. *)
Theorem tap_queue_release_once (rx : rx_queue) (tx : tx_queue) k k' :
  let r1 := tap_rx_queue_release (Some rx) k in
  let t1 := tap_tx_queue_release (Some tx) k in
  snd r1 = (if 0 <? rx_fd rx then [EvClose (rx_fd rx)] else []) /\
  snd t1 = (if 0 <? tx_fd tx then [EvClose (tx_fd tx)] else []) /\
  fst r1 = Some (if 0 <? rx_fd rx then set_rx_fd (-1) rx else rx) /\
  fst t1 = Some (if 0 <? tx_fd tx then set_tx_fd (-1) tx else tx) /\
  (0 < rx_fd rx -> tap_rx_queue_release (fst r1) k' = (fst r1, [])) /\
  (0 < tx_fd tx -> tap_tx_queue_release (fst t1) k' = (fst t1, [])) /\
  tap_rx_queue_release None k = (None, []) /\
  tap_tx_queue_release None k = (None, []).
Proof.
  cbn zeta. unfold tap_rx_queue_release, tap_tx_queue_release.
  destruct (0 <? rx_fd rx) eqn:Hr; destruct (0 <? tx_fd tx) eqn:Ht; mrun;
    repeat split; intros; try lia; reflexivity.
Qed.

Lemma tap_queue_release_once_witness :
  0 < rx_fd (rx_on 9) /\
  tap_rx_queue_release (Some (rx_on 9)) 0%nat
  = (Some (rx_on (-1)), [EvClose 9]) /\
  tap_rx_queue_release (Some (rx_on (-1))) 1%nat = (Some (rx_on (-1)), []) /\
  tap_rx_queue_release (Some (rx_on 0)) 0%nat = (Some (rx_on 0), []).
Proof.
  assert (0 < rx_fd (rx_on 9)) as H9 by (cbn; lia).
  split; [exact H9 | split; [reflexivity | split; [| reflexivity]]].
  exact (proj1 (proj2 (proj2 (proj2 (proj2
           (tap_queue_release_once (rx_on 9) (tx_on 9) 0%nat 1%nat))))) H9).
Defined.

(** X16.  The two halves of a queue hold their own copy of the shared
    descriptor: releasing the RX half and then the TX half of a queue
    whose halves share a positive descriptor calls [close] on it twice. *)
Theorem tap_queue_release_both_halves fd (rx : rx_queue) (tx : tx_queue) k :
  0 < fd -> rx_fd rx = fd -> tx_fd tx = fd ->
  closes (snd (tap_rx_queue_release (Some rx) k)
          ++ snd (tap_tx_queue_release (Some tx) (k + 1)%nat))
  = [fd; fd].
Proof.
  intros Hfd Hrx Htx. unfold tap_rx_queue_release, tap_tx_queue_release.
  rewrite Hrx, Htx. destruct (0 <? fd) eqn:Hp; [| lia]. mrun. reflexivity.
Qed.

Lemma tap_queue_release_both_halves_witness :
  0 < 9 /\ rx_fd (rx_on 9) = 9 /\ tx_fd (tx_on 9) = 9 /\
  closes (snd (tap_rx_queue_release (Some (rx_on 9)) 0%nat)
          ++ snd (tap_tx_queue_release (Some (tx_on 9)) (0 + 1)%nat))
  = [9; 9].
Proof.
  assert (0 < 9) as H9 by lia.
  split; [exact H9 | split; [reflexivity | split; [reflexivity |]]].
  exact (tap_queue_release_both_halves 9 (rx_on 9) (tx_on 9) 0%nat
           H9 eq_refl eq_refl).
Defined.

(** ** DeviceLifecycle: what stop and remove close *)

(** X17.  Stop, and likewise remove, calls [close] on exactly the slots of
    [fds] below the queue count that differ from -1, once each and in slot
    order, and makes no other call; stop leaves the link down and the port
    as it is.  Removing a device that is not there makes no call. *)
Theorem tap_dev_stop_closes_assigned dev k :
  snd (tap_dev_stop dev k)
  = EvClose <$> filter assigned (take (nb_queues (dev_private dev))
                                      (fds (dev_private dev))) /\
  closes (snd (tap_dev_stop dev k))
  = filter assigned (take (nb_queues (dev_private dev))
                          (fds (dev_private dev))) /\
  link_status (fst (tap_dev_stop dev k)) = ETH_LINK_DOWN /\
  port_id (fst (tap_dev_stop dev k)) = port_id dev /\
  rte_pmd_tap_remove (Some dev) k = (0, snd (tap_dev_stop dev k)) /\
  rte_pmd_tap_remove None k = (0, []).
Proof.
  rewrite tap_dev_stop_events. cbn [fst snd].
  rewrite closes_of_close_events. repeat split.
  unfold rte_pmd_tap_remove. rewrite run_bind, close_loop_events, drop_0.
  rewrite run_ret, app_nil_r. reflexivity.
Qed.

(** ** Device creation *)

Lemma tun_steps_ok_dec E k : tun_steps_ok E k \/ ~ tun_steps_ok E k.
Proof.
  unfold tun_steps_ok.
  destruct (supports_multiqueue_dec (sys_out E (k + 1))) as [Hm|Hm];
    [| right; intros (_ & _ & H & _); contradiction].
  destruct (Z_le_dec 0 (sys_ret E k)); [| right; intros (H & _); lia].
  destruct (Z_le_dec 0 (sys_ret E (k + 1)));
    [| right; intros (_ & H & _); lia].
  destruct (Z_le_dec 0 (sys_ret E (k + 2)));
    [| right; intros (_ & _ & _ & H & _); lia].
  destruct (Z_le_dec 0 (sys_ret E (k + 3)));
    [| right; intros (_ & _ & _ & _ & H); lia].
  left. repeat split; assumption.
Qed.

Lemma tun_alloc_not_ok E k : ~ tun_steps_ok E k -> fst (tun_alloc E k) = -1.
Proof.
  intros Hnot. destruct (tun_alloc E k) as [fd es] eqn:Heq. cbn.
  destruct (tun_alloc_result E k) as (fd0 & es0 & Hrun & [Hm|Hpos] & _);
    rewrite Hrun in Heq; inversion Heq; subst; [reflexivity |].
  exfalso. apply Hnot. clear Heq.
  unfold tun_alloc, tun_alloc_error in Hrun. revert Hrun. mrun.
  destruct (sys_ret E k <? 0) eqn:E0; mrun.
  { destruct (0 <? sys_ret E k); mrun; intros H; inversion H; lia. }
  destruct (sys_ret E (k + 1) <? 0) eqn:E1; mrun.
  { destruct (0 <? sys_ret E k); mrun; intros H; inversion H; lia. }
  destruct (supports_multiqueue_dec (sys_out E (k + 1))) as [Hmq|Hmq].
  2:{ rewrite (proj2 (tun_mode_built _) Hmq). mrun.
      destruct (0 <? sys_ret E k); mrun; intros H; inversion H; lia. }
  rewrite (proj1 (tun_mode_built _) Hmq). mrun.
  replace (k + 1 + 1)%nat with (k + 2)%nat by lia.
  destruct (sys_ret E (k + 2) <? 0) eqn:E2; mrun.
  { destruct (0 <? sys_ret E k); mrun; intros H; inversion H; lia. }
  replace (k + 2 + 1)%nat with (k + 3)%nat by lia.
  destruct (sys_ret E (k + 3) <? 0) eqn:E3; mrun.
  { destruct (0 <? sys_ret E k); mrun; intros H; inversion H; lia. }
  intros _. unfold tun_steps_ok. repeat split; try lia. exact Hmq.
Qed.

(** What [eth_dev_tap_create] does once [tun_alloc] has delivered a
    descriptor. *)
Lemma eth_dev_tap_create_after_alloc E port k :
  tun_steps_ok E k ->
  let fd := sys_ret E k in
  let es0 := snd (tun_alloc E k) in
  eth_dev_tap_create E port k
  = if fd <=? 0 then (None, es0)
    else if sys_ret E (k + 4) =? -1
    then (None, es0 ++ [EvIoctl fd SIOCGIFHWADDR (sys_ret E (k + 4))])
    else if sys_ret E (k + 5) =? -1
    then (None, es0 ++ [EvIoctl fd SIOCGIFHWADDR (sys_ret E (k + 4));
                        EvIoctl fd SIOCSIFHWADDR (sys_ret E (k + 5))])
    else (Some {| port_id := port; link_status := ETH_LINK_DOWN;
                  dev_private :=
                    {| nb_queues := 16;
                       fds := fd :: replicate 15 (-1);
                       rxq := set_rx_fd fd rx_unset :: replicate 15 rx_unset;
                       txq := set_tx_fd fd tx_unset :: replicate 15 tx_unset
                    |} |},
          es0 ++ [EvIoctl fd SIOCGIFHWADDR (sys_ret E (k + 4));
                  EvIoctl fd SIOCSIFHWADDR (sys_ret E (k + 5))]).
Proof.
  intros Hok fd es0. subst fd es0.
  unfold eth_dev_tap_create. rewrite run_bind.
  rewrite (tun_alloc_ok E k Hok). cbn [snd length].
  destruct Hok as (H0 & _).
  destruct (sys_ret E k <? 0) eqn:E0; [lia |].
  rewrite run_bind. unfold pmd_mac_address.
  destruct (sys_ret E k <=? 0) eqn:L0.
  { rewrite run_ret. cbn. reflexivity. }
  mrun. replace (k + 4)%nat with (k + 4)%nat by lia.
  destruct (sys_ret E (k + 4) =? -1) eqn:M1.
  { mrun. reflexivity. }
  mrun. replace (k + 4 + 1)%nat with (k + 5)%nat by lia.
  destruct (sys_ret E (k + 5) =? -1) eqn:M2.
  { mrun. reflexivity. }
  mrun. reflexivity.
Qed.

(** X18.  A device comes out of [eth_dev_tap_create] with 16 queues, a positive
    descriptor in slot 0 of [fds] and in both halves of queue 0, every
    other slot unassigned, all counters at zero and the link down; the
    creation made six external calls and closed nothing. *)
Theorem eth_dev_tap_create_success E port k dev es :
  eth_dev_tap_create E port k = (Some dev, es) ->
  tun_steps_ok E k /\ 0 < sys_ret E k /\
  dev = {| port_id := port; link_status := ETH_LINK_DOWN;
           dev_private :=
             {| nb_queues := 16;
                fds := sys_ret E k :: replicate 15 (-1);
                rxq := set_rx_fd (sys_ret E k) rx_unset
                       :: replicate 15 rx_unset;
                txq := set_tx_fd (sys_ret E k) tx_unset
                       :: replicate 15 tx_unset |} |} /\
  wf_internals (dev_private dev) /\
  closes es = [] /\ length es = 6%nat.
Proof.
  intros Heq. destruct (tun_steps_ok_dec E k) as [Hok|Hnot].
  2:{ exfalso. apply tun_alloc_not_ok in Hnot.
      unfold eth_dev_tap_create in Heq. rewrite run_bind in Heq.
      destruct (tun_alloc E k) as [fd es0]. cbn in Hnot. subst fd.
      cbn in Heq. discriminate. }
  pose proof (eth_dev_tap_create_after_alloc E port k Hok) as Hrun.
  cbn zeta in Hrun. rewrite (tun_alloc_ok E k Hok) in Hrun. cbn [snd] in Hrun.
  rewrite Hrun in Heq. clear Hrun.
  destruct (sys_ret E k <=? 0) eqn:L0; [discriminate |].
  destruct (sys_ret E (k + 4) =? -1); [discriminate |].
  destruct (sys_ret E (k + 5) =? -1); [discriminate |].
  inversion Heq; subst; clear Heq.
  split; [exact Hok | split; [lia | split; [reflexivity |]]].
  split; [repeat split; cbn; lia | split; reflexivity].
Qed.

Lemma eth_dev_tap_create_success_witness :
  eth_dev_tap_create E_create 0 0%nat = (Some dev_created, created_events) /\
  0 < sys_ret E_create 0 /\ length created_events = 6%nat.
Proof.
  split; [reflexivity |].
  destruct (eth_dev_tap_create_success E_create 0 0%nat dev_created
              created_events eq_refl) as (_ & Hfd & _ & _ & _ & Hlen).
  split; [exact Hfd | exact Hlen].
Defined.

(** X19.  Once the channel has been opened and configured, creation fails
    exactly when the descriptor is 0 or one of the two hardware-address
    ioctls returns -1, and a failed creation never closes the channel: the
    descriptor stays open. *)
Theorem eth_dev_tap_create_failure_keeps_channel E port k :
  tun_steps_ok E k ->
  (fst (eth_dev_tap_create E port k) = None
   <-> sys_ret E k = 0 \/ sys_ret E (k + 4) = -1 \/ sys_ret E (k + 5) = -1) /\
  (fst (eth_dev_tap_create E port k) = None ->
   closes (snd (eth_dev_tap_create E port k)) = [] /\
   still_open (snd (eth_dev_tap_create E port k)) = [sys_ret E k]).
Proof.
  intros Hok.
  pose proof (eth_dev_tap_create_after_alloc E port k Hok) as Hrun.
  cbn zeta in Hrun. rewrite (tun_alloc_ok E k Hok) in Hrun. cbn [snd] in Hrun.
  rewrite Hrun. clear Hrun. destruct Hok as (H0 & _).
  assert ((sys_ret E k <? 0) = false) as Hneg by lia.
  destruct (sys_ret E k <=? 0) eqn:L0.
  { split; [split; [intros _; left; lia | reflexivity] |].
    intros _. split; [reflexivity |].
    unfold still_open. cbn. now rewrite Hneg. }
  destruct (sys_ret E (k + 4) =? -1) eqn:M1.
  { split; [split; [intros _; right; left; lia | reflexivity] |].
    intros _. split; [reflexivity |].
    unfold still_open. cbn. now rewrite Hneg. }
  destruct (sys_ret E (k + 5) =? -1) eqn:M2.
  { split; [split; [intros _; right; right; lia | reflexivity] |].
    intros _. split; [reflexivity |].
    unfold still_open. cbn. now rewrite Hneg. }
  split; [split; [discriminate | lia] | discriminate].
Qed.

Lemma eth_dev_tap_create_failure_keeps_channel_witness :
  tun_steps_ok E_mac_fails 0 /\
  fst (eth_dev_tap_create E_mac_fails 0 0%nat) = None /\
  still_open (snd (eth_dev_tap_create E_mac_fails 0 0%nat)) = [3].
Proof.
  assert (tun_steps_ok E_mac_fails 0) as Hok.
  { unfold tun_steps_ok, supports_multiqueue.
    change (0 <= 3 /\ 0 <= 0 /\
            Z.land IFF_MULTI_QUEUE IFF_MULTI_QUEUE <> 0 /\ 0 <= 0 /\ 0 <= 0).
    repeat split; try lia. discriminate. }
  split; [exact Hok | split; [reflexivity |]].
  exact (proj2 (proj2 (eth_dev_tap_create_failure_keeps_channel
                         E_mac_fails 0 0%nat Hok) eq_refl)).
Defined.

(** ** StatsAggregator: what get reports and what reset keeps *)

Lemma sum_z_snoc l x : sum_z (l ++ [x]) = sum_z l + x.
Proof.
  induction l as [|y l IH]; unfold sum_z in *; cbn; [lia | rewrite IH; lia].
Qed.

Lemma view_step {A} (f : A -> Z) (l : list A) (l0 : list Z) n q :
  l !! n = Some q -> (n < length l0)%nat ->
  <[n := f q]> ((f <$> take n l) ++ drop n l0)
  = (f <$> take (S n) l) ++ drop (S n) l0.
Proof.
  intros Hq Hn.
  assert (length (f <$> take n l) = n) as Hlen.
  { rewrite length_fmap, length_take. apply lookup_lt_Some in Hq. lia. }
  rewrite insert_app_r_alt by lia. rewrite Hlen, Nat.sub_diag.
  destruct (lookup_lt_is_Some_2 l0 n Hn) as [x Hx].
  rewrite (drop_S _ _ _ Hx). cbn [insert list_insert].
  rewrite (take_S_r _ _ _ Hq), fmap_app, <- app_assoc. reflexivity.
Qed.

Lemma sum_step {A} (f : A -> Z) (l : list A) n q :
  l !! n = Some q ->
  sum_z (f <$> take (S n) l) = sum_z (f <$> take n l) + f q.
Proof.
  intros Hq. rewrite (take_S_r _ _ _ Hq), fmap_app. apply sum_z_snoc.
Qed.

Lemma view_length {A} (f : A -> Z) (l : list A) (l0 : list Z) n :
  (n <= length l)%nat -> (n <= length l0)%nat ->
  length ((f <$> take n l) ++ drop n l0) = length l0.
Proof.
  intros H1 H2. rewrite length_app, length_fmap, length_take, length_drop. lia.
Qed.

Lemma stats_get_rx_view pmd st0 n :
  (n <= length (rxq pmd))%nat ->
  (n <= length (q_ipackets st0))%nat -> (n <= length (q_ibytes st0))%nat ->
  for_range n (stats_get_rx pmd) (st0, 0, 0)
  = ({| s_ipackets := s_ipackets st0; s_opackets := s_opackets st0;
        s_ibytes := s_ibytes st0; s_obytes := s_obytes st0;
        s_oerrors := s_oerrors st0;
        q_ipackets := rx_counters ipackets pmd n ++ drop n (q_ipackets st0);
        q_opackets := q_opackets st0;
        q_ibytes := rx_counters ibytes pmd n ++ drop n (q_ibytes st0);
        q_obytes := q_obytes st0;
        q_errors := q_errors st0 |},
     uint64 (sum_z (rx_counters ipackets pmd n)),
     uint64 (sum_z (rx_counters ibytes pmd n))).
Proof.
  unfold rx_counters.
  induction n as [|n IH]; intros Hq H1 H2.
  - destruct st0. reflexivity.
  - rewrite for_range_S, IH by lia. unfold stats_get_rx.
    destruct (lookup_lt_is_Some_2 (rxq pmd) n) as [q Hqn]; [lia |].
    rewrite Hqn. cbn [q_ipackets q_ibytes s_ipackets s_opackets s_ibytes
                      s_obytes s_oerrors q_opackets q_obytes q_errors].
    rewrite !rd_insert by (rewrite view_length; lia).
    rewrite (view_step (fun q => ipackets (rx_stats q)) _ _ _ _ Hqn) by lia.
    rewrite (view_step (fun q => ibytes (rx_stats q)) _ _ _ _ Hqn) by lia.
    rewrite !(sum_step _ _ _ _ Hqn), !uint64_add_l.
    reflexivity.
Qed.

Lemma stats_get_tx_view pmd st0 n :
  (n <= length (txq pmd))%nat ->
  (n <= length (q_opackets st0))%nat -> (n <= length (q_obytes st0))%nat ->
  (n <= length (q_errors st0))%nat ->
  for_range n (stats_get_tx pmd) (st0, 0, 0, 0)
  = ({| s_ipackets := s_ipackets st0; s_opackets := s_opackets st0;
        s_ibytes := s_ibytes st0; s_obytes := s_obytes st0;
        s_oerrors := s_oerrors st0;
        q_ipackets := q_ipackets st0;
        q_opackets := tx_counters opackets pmd n ++ drop n (q_opackets st0);
        q_ibytes := q_ibytes st0;
        q_obytes := tx_counters obytes pmd n ++ drop n (q_obytes st0);
        q_errors := tx_counters errs pmd n ++ drop n (q_errors st0) |},
     uint64 (sum_z (tx_counters opackets pmd n)),
     uint64 (sum_z (tx_counters errs pmd n)),
     uint64 (sum_z (tx_counters obytes pmd n))).
Proof.
  unfold tx_counters.
  induction n as [|n IH]; intros Hq H1 H2 H3.
  - destruct st0. reflexivity.
  - rewrite for_range_S, IH by lia. unfold stats_get_tx.
    destruct (lookup_lt_is_Some_2 (txq pmd) n) as [q Hqn]; [lia |].
    rewrite Hqn. cbn [q_ipackets q_ibytes s_ipackets s_opackets s_ibytes
                      s_obytes s_oerrors q_opackets q_obytes q_errors].
    rewrite !rd_insert by (rewrite view_length; lia).
    rewrite (view_step (fun q => opackets (tx_stats q)) _ _ _ _ Hqn) by lia.
    rewrite (view_step (fun q => obytes (tx_stats q)) _ _ _ _ Hqn) by lia.
    rewrite (view_step (fun q => errs (tx_stats q)) _ _ _ _ Hqn) by lia.
    rewrite !(sum_step _ _ _ _ Hqn), !uint64_add_l.
    reflexivity.
Qed.

Lemma tap_stats_get_eq stat_cntrs dev tap_stats :
  wf_internals (dev_private dev) ->
  stats_shape stat_cntrs tap_stats ->
  let pmd := dev_private dev in
  let imax := Nat.min (nb_queues pmd) stat_cntrs in
  tap_stats_get stat_cntrs dev tap_stats
  = {| s_ipackets := uint64 (sum_z (rx_counters ipackets pmd imax));
       s_opackets := uint64 (sum_z (tx_counters opackets pmd imax));
       s_ibytes := uint64 (sum_z (rx_counters ibytes pmd imax));
       s_obytes := uint64 (sum_z (tx_counters obytes pmd imax));
       s_oerrors := uint64 (sum_z (tx_counters errs pmd imax));
       q_ipackets := rx_counters ipackets pmd imax
                     ++ drop imax (q_ipackets tap_stats);
       q_opackets := tx_counters opackets pmd imax
                     ++ drop imax (q_opackets tap_stats);
       q_ibytes := rx_counters ibytes pmd imax
                   ++ drop imax (q_ibytes tap_stats);
       q_obytes := tx_counters obytes pmd imax
                   ++ drop imax (q_obytes tap_stats);
       q_errors := tx_counters errs pmd imax
                   ++ drop imax (q_errors tap_stats) |}.
Proof.
  intros (_ & Hrx & Htx) (H1 & H2 & H3 & H4 & H5) pmd imax.
  unfold tap_stats_get. fold pmd.
  assert ((if (nb_queues pmd <? stat_cntrs)%nat then nb_queues pmd
           else stat_cntrs) = imax) as ->.
  { unfold imax. destruct (nb_queues pmd <? stat_cntrs)%nat eqn:Hlt.
    - apply Nat.ltb_lt in Hlt. lia.
    - apply Nat.ltb_ge in Hlt. lia. }
  assert (imax <= nb_queues pmd)%nat by (unfold imax; lia).
  assert (imax <= stat_cntrs)%nat by (unfold imax; lia).
  rewrite stats_get_rx_view by (subst pmd; lia).
  rewrite stats_get_tx_view by (subst pmd; cbn; lia).
  reflexivity.
Qed.

(** X20.  The per-queue view [tap_stats_get] fills in: for each of the five
    per-queue arrays, the entries below the smaller of the queue count and
    the array length are the queues' counters (RX packets and bytes from
    the RX queues; TX packets, bytes and errors from the TX queues), the
    entries from there on are what the caller's structure held, and the
    arrays keep their length. *)
Theorem tap_stats_get_per_queue stat_cntrs dev tap_stats :
  wf_internals (dev_private dev) ->
  stats_shape stat_cntrs tap_stats ->
  let pmd := dev_private dev in
  let imax := Nat.min (nb_queues pmd) stat_cntrs in
  let st := tap_stats_get stat_cntrs dev tap_stats in
  q_ipackets st = rx_counters ipackets pmd imax
                  ++ drop imax (q_ipackets tap_stats) /\
  q_ibytes st = rx_counters ibytes pmd imax ++ drop imax (q_ibytes tap_stats) /\
  q_opackets st = tx_counters opackets pmd imax
                  ++ drop imax (q_opackets tap_stats) /\
  q_obytes st = tx_counters obytes pmd imax ++ drop imax (q_obytes tap_stats) /\
  q_errors st = tx_counters errs pmd imax ++ drop imax (q_errors tap_stats) /\
  stats_shape stat_cntrs st.
Proof.
  intros Hwf Hsh pmd imax st. subst st.
  rewrite (tap_stats_get_eq stat_cntrs dev tap_stats Hwf Hsh).
  fold pmd imax.
  cbn [q_ipackets q_ibytes q_opackets q_obytes q_errors].
  repeat (split; [reflexivity |]).
  destruct Hwf as (_ & Hrx & Htx). destruct Hsh as (H1 & H2 & H3 & H4 & H5).
  unfold stats_shape, rx_counters, tx_counters.
  cbn [q_ipackets q_ibytes q_opackets q_obytes q_errors].
  rewrite !view_length by (subst pmd imax; lia).
  repeat split; assumption.
Qed.

Lemma tap_stats_get_per_queue_witness :
  wf_internals (dev_private dev_busy) /\
  stats_shape 16 stale_stats /\
  q_ipackets (tap_stats_get 16 dev_busy stale_stats) = 5 :: replicate 15 0 /\
  q_ipackets (tap_stats_get 16 dev_busy stale_stats)
  = rx_counters ipackets (dev_private dev_busy) 16
    ++ drop 16 (q_ipackets stale_stats).
Proof.
  assert (wf_internals (dev_private dev_busy)) as Hwf
    by (repeat split; cbn; lia).
  assert (stats_shape 16 stale_stats) as Hsh by (repeat split).
  split; [exact Hwf | split; [exact Hsh | split; [reflexivity |]]].
  exact (proj1 (tap_stats_get_per_queue 16 dev_busy stale_stats Hwf Hsh)).
Defined.

(** X21.  The device totals [tap_stats_get] reports are the sums, modulo 2^64,
    of the per-queue counters it exposes: input packets and bytes over the
    RX queues; output packets, bytes and errors over the TX queues.  What
    the caller's structure held in these fields plays no part. *)
Theorem tap_stats_get_totals stat_cntrs dev tap_stats :
  wf_internals (dev_private dev) ->
  stats_shape stat_cntrs tap_stats ->
  let pmd := dev_private dev in
  let imax := Nat.min (nb_queues pmd) stat_cntrs in
  let st := tap_stats_get stat_cntrs dev tap_stats in
  s_ipackets st = uint64 (sum_z (rx_counters ipackets pmd imax)) /\
  s_ibytes st = uint64 (sum_z (rx_counters ibytes pmd imax)) /\
  s_opackets st = uint64 (sum_z (tx_counters opackets pmd imax)) /\
  s_obytes st = uint64 (sum_z (tx_counters obytes pmd imax)) /\
  s_oerrors st = uint64 (sum_z (tx_counters errs pmd imax)).
Proof.
  intros Hwf Hsh pmd imax st. subst st.
  rewrite (tap_stats_get_eq stat_cntrs dev tap_stats Hwf Hsh).
  repeat split.
Qed.

Lemma tap_stats_get_totals_witness :
  wf_internals (dev_private dev_busy) /\
  stats_shape 16 stale_stats /\
  s_oerrors (tap_stats_get 16 dev_busy stale_stats) = 2 /\
  s_ipackets (tap_stats_get 16 dev_busy stale_stats)
  = uint64 (sum_z (rx_counters ipackets (dev_private dev_busy) 16)).
Proof.
  assert (wf_internals (dev_private dev_busy)) as Hwf
    by (repeat split; cbn; lia).
  assert (stats_shape 16 stale_stats) as Hsh by (repeat split).
  split; [exact Hwf | split; [exact Hsh | split; [reflexivity |]]].
  exact (proj1 (tap_stats_get_totals 16 dev_busy stale_stats Hwf Hsh)).
Defined.

Lemma reset_loop_fmap {A B} (f : A -> B) (g : A -> A) n (l : list A) :
  (forall x, f (g x) = f x) ->
  f <$> for_range n (fun i => alter g i) l = f <$> l.
Proof.
  intros Hfg. apply list_eq. intros j.
  rewrite !list_lookup_fmap, reset_loop_lookup_gen.
  destruct (decide (j < n)%nat); [| reflexivity].
  destruct (l !! j); cbn; [now rewrite Hfg | reflexivity].
Qed.

Lemma reset_loop_idem {A} (g : A -> A) n (l : list A) :
  (forall x, g (g x) = g x) ->
  for_range n (fun i => alter g i) (for_range n (fun i => alter g i) l)
  = for_range n (fun i => alter g i) l.
Proof.
  intros Hg. apply list_eq. intros j.
  rewrite !reset_loop_lookup_gen.
  destruct (decide (j < n)%nat); [| reflexivity].
  destruct (l !! j); cbn; [now rewrite Hg | reflexivity].
Qed.

(** X22.  A statistics reset touches counters only: the queue count, the [fds]
    array, every queue's descriptor, pool and input port, the port and the
    link state are as before, and so are queues at or above the queue
    count.  Resetting twice is the same as resetting once. *)
Theorem tap_stats_reset_keeps_state dev :
  let dev' := tap_stats_reset dev in
  nb_queues (dev_private dev') = nb_queues (dev_private dev) /\
  fds (dev_private dev') = fds (dev_private dev) /\
  rx_fd <$> rxq (dev_private dev') = rx_fd <$> rxq (dev_private dev) /\
  tx_fd <$> txq (dev_private dev') = tx_fd <$> txq (dev_private dev) /\
  rx_mp <$> rxq (dev_private dev') = rx_mp <$> rxq (dev_private dev) /\
  in_port <$> rxq (dev_private dev') = in_port <$> rxq (dev_private dev) /\
  port_id dev' = port_id dev /\ link_status dev' = link_status dev /\
  drop (nb_queues (dev_private dev)) (rxq (dev_private dev'))
  = drop (nb_queues (dev_private dev)) (rxq (dev_private dev)) /\
  drop (nb_queues (dev_private dev)) (txq (dev_private dev'))
  = drop (nb_queues (dev_private dev)) (txq (dev_private dev)) /\
  tap_stats_reset dev' = dev'.
Proof.
  cbn zeta. unfold tap_stats_reset, with_private.
  cbn [dev_private nb_queues rxq txq fds port_id link_status].
  rewrite !reset_loop_fmap by reflexivity.
  rewrite !reset_loop_idem by reflexivity.
  repeat split.
  - apply list_eq. intros j. rewrite !lookup_drop, reset_loop_lookup_gen.
    destruct (decide (nb_queues (dev_private dev) + j
                      < nb_queues (dev_private dev))%nat); [lia | reflexivity].
  - apply list_eq. intros j. rewrite !lookup_drop, reset_loop_lookup_gen.
    destruct (decide (nb_queues (dev_private dev) + j
                      < nb_queues (dev_private dev))%nat); [lia | reflexivity].
Qed.

(** ** Probe *)

(** X23.  A probe returns 0 exactly when it leaves a device, and otherwise -1
    (an argument handler failed; no external call was made and the speed
    is untouched) or -EINVAL (creation failed).  It takes the next unit
    number and gives it back only when it returns -1: after a failed
    creation the unit number stays used. *)
Theorem rte_pmd_tap_probe_unit E has_params kv g port k ret g' d es :
  rte_pmd_tap_probe E has_params kv g port k = (ret, g', d, es) ->
  (ret = 0 \/ ret = -1 \/ ret = - EINVAL) /\
  (ret = 0 <-> d <> None) /\
  (ret = -1 -> g' = g /\ es = []) /\
  (ret <> -1 -> tap_unit g' = tap_unit g + 1).
Proof.
  assert (forall g, {| tap_unit := tap_unit g + 1 - 1;
                       link_speed := link_speed g |} = g) as Hback.
  { intros [u s]. cbn. f_equal. lia. }
  assert (forall speed,
            (d0 ← eth_dev_tap_create E port;
             mret (probe_leave (match d0 with Some _ => 0 | None => - EINVAL end)
                     {| tap_unit := tap_unit g + 1; link_speed := speed |} d0))
              k = (ret, g', d, es) ->
            (ret = 0 \/ ret = -1 \/ ret = - EINVAL) /\
            (ret = 0 <-> d <> None) /\
            (ret = -1 -> g' = g /\ es = []) /\
            (ret <> -1 -> tap_unit g' = tap_unit g + 1)) as Hcreate.
  { intros speed Heq. rewrite run_bind in Heq.
    destruct (eth_dev_tap_create E port k) as [[dv|] es0];
      rewrite run_ret in Heq; inversion Heq; subst; cbn;
      repeat split; auto; try discriminate; try congruence;
      intros; try discriminate; try congruence. }
  unfold rte_pmd_tap_probe. cbn zeta. intros Heq.
  destruct (has_params && kv_list kv).
  2:{ eapply Hcreate; eauto. }
  destruct (kv_speed_count kv =? 1).
  - destruct (kv_speed_ret kv =? -1) eqn:Hs.
    + rewrite run_ret in Heq. unfold probe_leave in Heq. rewrite Hs in Heq.
      cbn in Heq. rewrite Hback in Heq. inversion Heq; subst.
      repeat split; auto; try lia; try congruence; intros; try lia; congruence.
    + destruct (kv_iface_count kv =? 1); [| eapply Hcreate; eauto].
      destruct (kv_iface_ret kv =? -1) eqn:Hi; [| eapply Hcreate; eauto].
      rewrite run_ret in Heq. unfold probe_leave in Heq. rewrite Hi in Heq.
      cbn in Heq. rewrite Hback in Heq. inversion Heq; subst.
      repeat split; auto; try lia; try congruence; intros; try lia; congruence.
  - destruct (kv_iface_count kv =? 1); [| eapply Hcreate; eauto].
    destruct (kv_iface_ret kv =? -1) eqn:Hi; [| eapply Hcreate; eauto].
    rewrite run_ret in Heq. unfold probe_leave in Heq. rewrite Hi in Heq.
    cbn in Heq. rewrite Hback in Heq. inversion Heq; subst.
    repeat split; auto; try lia; try congruence; intros; try lia; congruence.
Qed.

Lemma rte_pmd_tap_probe_unit_witness :
  fst (fst (fst (rte_pmd_tap_probe E_mac_fails false no_kvargs globals0 0
                   0%nat))) = - EINVAL /\
  tap_unit (snd (fst (fst (rte_pmd_tap_probe E_mac_fails false no_kvargs
                             globals0 0 0%nat)))) = tap_unit globals0 + 1.
Proof.
  split; [reflexivity |].
  assert (- EINVAL <> -1) as Hne by discriminate.
  exact (proj2 (proj2 (proj2
           (rte_pmd_tap_probe_unit E_mac_fails false no_kvargs globals0 0
              0%nat _ _ _ _ eq_refl))) Hne).
Defined.
